(** * fhir_upload_temperature: a shallow embedding of [main]

    The program reads one body temperature (from [argv[1]] or from a line of
    standard input), renders a fixed FHIR R4 Observation document around it
    with [snprintf], and hands the document to libcurl for one HTTPS POST.

    [double] values are IEEE 754 binary64 numbers, modelled with the
    reference specification [spec_float] (precision 53, [emax] 1024); C
    strings are [string]s; [int] and [long] values are [Z].  The libc and
    libcurl functions that [main] calls are modelled after the C standard
    and the libcurl manual; what the outside world decides (arguments, the
    bytes waiting on standard input, the clock, the outcome of the
    transfer) is collected in the record [World].

    Conventions of the model:
    - [atof] is [strtod] with the end pointer dropped, in the C locale,
      correctly rounded, an overflow giving an infinity;
    - [printf] converts the exact value of a [double], rounding to nearest
      with ties to even;
    - a read error on standard input is not told apart from its end;
    - memory is not exhausted: [curl_slist_append] returns its list. *)

From Stdlib Require Import ZArith Lia Bool List Ascii String.
From Stdlib Require Import Floats.SpecFloat.
Import ListNotations.

Open Scope string_scope.
Open Scope Z_scope.

(** ** Doubles *)

Definition double := spec_float.

Definition prec64 : Z := 53.
Definition emax64 : Z := 1024.

(** [isfinite] of <math.h>: neither an infinity nor a NaN. *)
Definition isfinite (x : double) : bool :=
  match x with
  | S754_zero _ | S754_finite _ _ _ => true
  | S754_infinity _ | S754_nan => false
  end.

(** The values a C [double] can hold. *)
Definition is_binary64 (x : double) : Prop :=
  valid_binary prec64 emax64 x = true.

(** ** Characters

    The tests of <ctype.h> in the C locale, on character codes. *)

Definition code (c : ascii) : nat := nat_of_ascii c.

Definition between (lo hi : nat) (c : ascii) : bool :=
  ((lo <=? code c) && (code c <=? hi))%nat.

Definition is_char (k : nat) (c : ascii) : bool := (code c =? k)%nat.

(** Space, and the controls from horizontal tab to carriage return. *)
Definition isspace (c : ascii) : bool := is_char 32 c || between 9 13 c.

Definition is_digit (c : ascii) : bool := between 48 57 c.

Definition isxdigit (c : ascii) : bool :=
  is_digit c || between 65 70 c || between 97 102 c.

Definition isalnum (c : ascii) : bool :=
  is_digit c || between 65 90 c || between 97 122 c.

Definition tolower (c : ascii) : ascii :=
  if between 65 90 c then ascii_of_nat (code c + 32) else c.

Definition digit_val (c : ascii) : Z := Z.of_nat (code c) - 48.

Definition xdigit_val (c : ascii) : Z :=
  if is_digit c then digit_val c else Z.of_nat (code (tolower c)) - 87.

Definition nl : string := String (ascii_of_nat 10) "".
Definition dq : string := String (ascii_of_nat 34) "".

(** ** Decimal output *)

Definition digit_char (d : Z) : ascii := ascii_of_nat (48 + Z.to_nat d).

Fixpoint all_digits (s : string) : bool :=
  match s with
  | "" => true
  | String c s' => is_digit c && all_digits s'
  end.

(** Digits of [n], most significant first, pushed in front of [acc]. *)
Fixpoint utoa_fuel (fuel : nat) (n : Z) (acc : string) : string :=
  match fuel with
  | O => acc
  | S fuel' =>
      let acc' := String (digit_char (n mod 10)) acc in
      if n / 10 =? 0 then acc' else utoa_fuel fuel' (n / 10) acc'
  end.

Definition utoa (n : Z) : string :=
  utoa_fuel (S (Z.to_nat (Z.log2 n))) n "".

(** Reading a digit string back, for stating what [utoa] prints. *)
Fixpoint digits_value (acc : Z) (s : string) : Z :=
  match s with
  | "" => acc
  | String c s' => digits_value (10 * acc + digit_val c) s'
  end.

(** The integer nearest to [m * 2^e * 100], ties to even: the number of
    hundredths that the conversion [%.2f] prints for the magnitude
    [m * 2^e]. *)
Definition hundredths (m : positive) (e : Z) : Z :=
  if 0 <=? e then Zpos m * 2 ^ e * 100
  else
    let d := 2 ^ (- e) in
    let q := (Zpos m * 100) / d in
    let r := (Zpos m * 100) mod d in
    match 2 * r ?= d with
    | Lt => q
    | Eq => if Z.even q then q else q + 1
    | Gt => q + 1
    end.

Definition sign_text (s : bool) : string := if s then "-" else "".

(** [h] hundredths as [i.dd]. *)
Definition fixed2 (h : Z) : string :=
  utoa (h / 100) ++ "." ++
  String (digit_char (h / 10 mod 10)) (String (digit_char (h mod 10)) "").

(** The conversion [%.2f] of printf. *)
Definition printf_2f (x : double) : string :=
  match x with
  | S754_zero s => sign_text s ++ fixed2 0
  | S754_finite s m e => sign_text s ++ fixed2 (hundredths m e)
  | S754_infinity s => sign_text s ++ "inf"
  | S754_nan => "nan"
  end.

(** The conversion [%ld] of printf. *)
Definition printf_ld (n : Z) : string :=
  if n <? 0 then "-" ++ utoa (- n) else utoa n.

(** ** Decimal and hexadecimal input: [atof]

    [atof(s)] is [strtod(s, NULL)]: white space is skipped, an optional
    sign is taken, and the longest prefix of what follows that has the
    shape of a decimal constant, of a hexadecimal constant, or of INF or
    NAN in any case, is converted, rounding to nearest with ties to even.
    When no prefix has such a shape nothing is converted and the value is
    zero.  [atof] does not report where the conversion stopped, so nothing
    after the converted prefix is looked at. *)

Fixpoint skip_space (s : string) : string :=
  match s with
  | String c r => if isspace c then skip_space r else s
  | "" => ""
  end.

Definition take_sign (s : string) : bool * string :=
  match s with
  | String c r =>
      if is_char 45 c then (true, r)
      else if is_char 43 c then (false, r)
      else (false, s)
  | "" => (false, "")
  end.

Inductive radix := Dec | Hex.

Definition radix_base (b : radix) : Z :=
  match b with Dec => 10 | Hex => 16 end.

Definition in_radix (b : radix) (c : ascii) : bool :=
  match b with Dec => is_digit c | Hex => isxdigit c end.

Definition radix_val (b : radix) (c : ascii) : Z :=
  match b with Dec => digit_val c | Hex => xdigit_val c end.

(** Consume digits: the value read so far, how many digits were read, and
    what is left. *)
Fixpoint scan (b : radix) (acc : Z) (k : Z) (s : string) : Z * Z * string :=
  match s with
  | String c r =>
      if in_radix b c
      then scan b (radix_base b * acc + radix_val b c) (k + 1) r
      else (acc, k, s)
  | "" => (acc, k, "")
  end.

(** Digits with at most one radix point among them, at least one digit in
    all: the digits as one integer, the number of digits after the point,
    and what is left. *)
Definition mantissa (b : radix) (s : string) : option (Z * Z * string) :=
  let '(ip, ni, r1) := scan b 0 0 s in
  match r1 with
  | String c r2 =>
      if is_char 46 c then
        let '(m, nf, r3) := scan b ip 0 r2 in
        if ni + nf =? 0 then None else Some (m, nf, r3)
      else if ni =? 0 then None else Some (ip, 0, r1)
  | "" => if ni =? 0 then None else Some (ip, 0, "")
  end.

(** An exponent part: the marker ([e] or [p], either case), an optional
    sign and at least one decimal digit; 0 when there is none. *)
Definition exponent (marker : nat) (s : string) : Z :=
  match s with
  | String c r =>
      if is_char marker (tolower c) then
        let '(neg, r') := take_sign r in
        let '(v, n, _) := scan Dec 0 0 r' in
        if n =? 0 then 0 else if neg then - v else v
      else 0
  | "" => 0
  end.

(** The binary64 number nearest to [p / q], ties to even. *)
Definition round_ratio (neg : bool) (p q : Z) : double :=
  if p =? 0 then S754_zero neg
  else
    let '(m, e, l) := SFdiv_core_binary prec64 emax64 p 0 q 0 in
    binary_round_aux prec64 emax64 neg m e l.

(** The binary64 number nearest to [m * base ^ e]. *)
Definition scaled (neg : bool) (m base e : Z) : double :=
  if 0 <=? e then round_ratio neg (m * base ^ e) 1
  else round_ratio neg m (base ^ (- e)).

Definition decimal_constant (neg : bool) (s : string) : option double :=
  match mantissa Dec s with
  | Some (m, nf, r) => Some (scaled neg m 10 (exponent 101 r - nf))
  | None => None
  end.

Definition hex_constant (neg : bool) (s : string) : option double :=
  match s with
  | String c0 (String c1 r) =>
      if is_char 48 c0 && is_char 120 (tolower c1) then
        match mantissa Hex r with
        | Some (m, nf, r') => Some (scaled neg m 2 (exponent 112 r' - 4 * nf))
        | None => None
        end
      else None
  | _ => None
  end.

(** [t] starts with [p], letters compared without case. *)
Fixpoint prefix_nocase (p t : string) : bool :=
  match p, t with
  | "", _ => true
  | String a p', String c t' =>
      (code a =? code (tolower c))%nat && prefix_nocase p' t'
  | String _ _, "" => false
  end.

Definition special_constant (neg : bool) (s : string) : option double :=
  if prefix_nocase "inf" s then Some (S754_infinity neg)
  else if prefix_nocase "nan" s then Some S754_nan
  else None.

(** The constant at the head of [r], once the sign has been taken. *)
Definition constant (neg : bool) (r : string) : double :=
  match hex_constant neg r with
  | Some x => x
  | None =>
      match decimal_constant neg r with
      | Some x => x
      | None =>
          match special_constant neg r with
          | Some x => x
          | None => S754_zero false
          end
      end
  end.

Definition atof (s : string) : double :=
  let '(neg, r) := take_sign (skip_space s) in constant neg r.

(** ** The outside world *)

(** [CURLcode]: 0 is [CURLE_OK]. *)
Definition CURLcode := Z.
Definition CURLE_OK : CURLcode := 0.

Record World := {
  w_argv : list string;      (* argv; argc is its length *)
  w_stdin : string;          (* the bytes standard input delivers before its end *)
  w_iso_time : string;       (* what strftime leaves in the buffer of current_time_iso8601 *)
  w_curl_init : bool;        (* curl_easy_init returns a handle *)
  w_res : CURLcode;          (* what curl_easy_perform returns *)
  w_reason : string;         (* curl_easy_strerror of that code *)
  w_http_code : Z;           (* CURLINFO_RESPONSE_CODE after the transfer *)
  w_body : string            (* the bytes of the response body that arrive *)
}.

(** What libcurl is asked to transfer: the options set on the handle. *)
Record request := {
  rq_url : string;
  rq_headers : list string;
  rq_postfields : string;
  rq_postfieldsize : Z;
  rq_useragent : string;
  rq_cainfo : string
}.

Inductive event :=
| Stdout (s : string)        (* printf *)
| Stderr (s : string)        (* fprintf (stderr, ...) *)
| Fgets                      (* one line asked of standard input *)
| Perform (rq : request)     (* curl_easy_perform: the POST is attempted *)
| Body (s : string).         (* response bytes libcurl copies to standard output *)

(** A computation that logs events and either goes on with a value or
    leaves [main] with an exit status. *)
Definition prog (A : Type) : Type := list event * (A + Z).

Definition ret {A} (a : A) : prog A := ([], inl a).
Definition exit {A} (status : Z) : prog A := ([], inr status).
Definition emit (e : event) : prog unit := ([e], inl tt).

Definition bind {A B} (m : prog A) (k : A -> prog B) : prog B :=
  match snd m with
  | inl a => ((fst m ++ fst (k a))%list, snd (k a))
  | inr status => (fst m, inr status)
  end.

Notation "x <- m ;; k" := (bind m (fun x => k))
  (at level 61, m at next level, right associativity).
Notation "m ;; k" := (bind m (fun _ => k))
  (at level 61, right associativity).

Definition run (m : prog Z) : list event * Z :=
  (fst m, match snd m with inl status => status | inr status => status end).

Definition printf (s : string) : prog unit := emit (Stdout s).
Definition fprintf_stderr (s : string) : prog unit := emit (Stderr s).

(** [fgets (buf, size, stdin)]: at most [size - 1] characters, stopping
    after a newline; nothing at all (a null pointer) at the end of the
    input. *)
Fixpoint fgets_chars (n : nat) (stream : string) : string :=
  match n, stream with
  | S n', String c r =>
      if is_char 10 c then String c "" else String c (fgets_chars n' r)
  | _, _ => ""
  end.

Definition fgets (size : nat) (stream : string) : prog (option string) :=
  emit Fgets ;;
  ret (match stream with
       | "" => None
       | _ => Some (fgets_chars (size - 1) stream)
       end).

(** ** The program *)

Definition FHIR_SERVER_URL : string := "https://hapi.fhir.org/baseR4/Observation".
Definition PATIENT_ID : string := "49410276".

Definition current_time_iso8601 (w : World) : string := w_iso_time w.

(** A JSON string literal of the format, and a member with a string value. *)
Definition js (s : string) : string := dq ++ s ++ dq.
Definition member (k v : string) : string := js k ++ ": " ++ js v.

(** The format of the [snprintf] call, cut at its three conversions. *)
Definition fmt_1 : string :=
  "{" ++ nl ++
  "  " ++ member "resourceType" "Observation" ++ "," ++ nl ++
  "  " ++ member "status" "final" ++ "," ++ nl ++
  "  " ++ js "category" ++ ": [ { " ++ js "coding" ++ ": [ { " ++
      member "system" "http://terminology.hl7.org/CodeSystem/observation-category" ++ ", " ++
      member "code" "vital-signs" ++ ", " ++
      member "display" "Vital Signs" ++ " } ] } ]," ++ nl ++
  "  " ++ js "code" ++ ": { " ++ js "coding" ++ ": [ { " ++
      member "system" "http://loinc.org" ++ ", " ++
      member "code" "8310-5" ++ ", " ++
      member "display" "Body temperature" ++ " } ], " ++
      member "text" "Body temperature" ++ " }," ++ nl ++
  "  " ++ js "subject" ++ ": { " ++ js "reference" ++ ": " ++ dq ++ "Patient/".

Definition fmt_2 : string :=
  dq ++ " }," ++ nl ++
  "  " ++ js "effectiveDateTime" ++ ": " ++ dq.

Definition fmt_3 : string :=
  dq ++ "," ++ nl ++
  "  " ++ js "valueQuantity" ++ ": { " ++ js "value" ++ ": ".

Definition fmt_4 : string :=
  ", " ++ member "unit" "degrees C" ++ ", " ++
  member "system" "http://unitsofmeasure.org" ++ ", " ++
  member "code" "Cel" ++ " }" ++ nl ++
  "}" ++ nl.

(** The text [snprintf] formats: [%s] filled by [patient], [%s] by
    [iso_time], [%.2f] by [temp_value]. *)
Definition json_text (patient iso_time : string) (temp_value : double) : string :=
  fmt_1 ++ patient ++ fmt_2 ++ iso_time ++ fmt_3 ++ printf_2f temp_value ++ fmt_4.

Definition json_size : Z := 2048.

(** The temperature, from [argv[1]] or from a line of standard input. *)
Definition read_temperature (w : World) : prog double :=
  if 2 <=? Z.of_nat (List.length (w_argv w)) then
    ret (atof (nth 1 (w_argv w) ""))
  else
    printf "Enter body temperature (e.g. 36.5): " ;;
    line <- fgets 64 (w_stdin w) ;;
    match line with
    | None => fprintf_stderr ("No input" ++ nl) ;; exit 1
    | Some input => ret (atof input)
    end.

(** The handle as [main] sets it up before the transfer. *)
Definition post_request (json : string) : request :=
  {| rq_url := FHIR_SERVER_URL;
     rq_headers := [ "Content-Type: application/fhir+json;charset=utf-8";
                     "Accept: application/fhir+json" ];
     rq_postfields := json;
     rq_postfieldsize := Z.of_nat (String.length json);
     rq_useragent := "fhir-c-uploader/1.0";
     rq_cainfo := "curl-ca-bundle.crt" |}.

(** libcurl, as far as [main] uses it.  [curl_easy_perform] attempts the
    transfer the handle describes; no write callback is set, so the bytes
    of the response body that arrive are copied to standard output. *)
Definition curl_easy_init (w : World) : prog bool := ret (w_curl_init w).

Definition curl_easy_perform (w : World) (rq : request) : prog CURLcode :=
  emit (Perform rq) ;; emit (Body (w_body w)) ;; ret (w_res w).

Definition curl_easy_strerror (w : World) (res : CURLcode) : string := w_reason w.

Definition curl_easy_getinfo_response_code (w : World) : prog Z :=
  ret (w_http_code w).

Definition main_prog (w : World) : prog Z :=
  temp_value <- read_temperature w ;;
  (if negb (isfinite temp_value)
   then fprintf_stderr ("Invalid temperature value." ++ nl) ;; exit 1
   else ret tt) ;;
  let iso_time := current_time_iso8601 w in
  let json := json_text PATIENT_ID iso_time temp_value in
  let n := Z.of_nat (String.length json) in
  (if (n <? 0) || (n >=? json_size)
   then fprintf_stderr ("JSON payload too long or formatting error." ++ nl) ;; exit 1
   else ret tt) ;;
  curl <- curl_easy_init w ;;
  (if negb curl
   then fprintf_stderr ("Failed to initialize curl." ++ nl) ;; exit 1
   else ret tt) ;;
  printf ("Posting Observation to " ++ FHIR_SERVER_URL ++ nl) ;;
  res <- curl_easy_perform w (post_request json) ;;
  (if negb (res =? CURLE_OK)
   then fprintf_stderr ("curl_easy_perform() failed: " ++ curl_easy_strerror w res ++ nl) ;;
        exit 1
   else ret tt) ;;
  http_code <- curl_easy_getinfo_response_code w ;;
  printf ("Server HTTP response code: " ++ printf_ld http_code ++ nl) ;;
  if (http_code >=? 200) && (http_code <? 300) then
    printf ("Observation uploaded successfully." ++ nl) ;; ret 0
  else
    printf ("Upload may have failed. Check server logs or response." ++ nl) ;; ret 1.

Definition main (w : World) : list event * Z := run (main_prog w).

(** ** Vocabulary of the statements *)

Definition signbit (x : double) : bool :=
  match x with
  | S754_zero s | S754_infinity s | S754_finite s _ _ => s
  | S754_nan => false
  end.

(** [h] hundredths are as near to the magnitude of [x] as hundredths get:
    the exact product when it is an integer, within half a unit of
    [m * 2^e * 100] otherwise. *)
Definition nearest_hundredths (x : double) (h : Z) : Prop :=
  match x with
  | S754_zero _ => h = 0
  | S754_finite _ m e =>
      if 0 <=? e then h = Zpos m * 2 ^ e * 100
      else 2 * Z.abs (h * 2 ^ (- e) - Zpos m * 100) <= 2 ^ (- e)
  | _ => False
  end.

Definition prompt : string := "Enter body temperature (e.g. 36.5): ".

Definition argc (w : World) : Z := Z.of_nat (List.length (w_argv w)).

(** The text that [atof] is applied to, when there is one. *)
Definition input_text (w : World) : option string :=
  if 2 <=? argc w then Some (nth 1 (w_argv w) "")
  else match w_stdin w with
       | "" => None
       | _ => Some (fgets_chars 63 (w_stdin w))
       end.

(** What the input reader logs before the temperature is parsed. *)
Definition prompt_events (w : World) : list event :=
  if 2 <=? argc w then []
  else [Stdout prompt; Fgets].

(** The document of a run that parsed the temperature [t]. *)
Definition payload (w : World) (t : double) : string :=
  json_text PATIENT_ID (current_time_iso8601 w) t.

Definition fits (json : string) : Prop :=
  Z.of_nat (String.length json) < json_size.

Definition posting_line : string :=
  "Posting Observation to " ++ FHIR_SERVER_URL ++ nl.

Definition is_2xx (http_code : Z) : bool :=
  (200 <=? http_code) && (http_code <? 300).

Fixpoint performs (t : list event) : nat :=
  match t with
  | [] => 0
  | Perform _ :: t' => S (performs t')
  | _ :: t' => performs t'
  end.

(** The same world with other arguments and another standard input. *)
Definition with_input (w : World) (argv : list string) (stdin : string) : World :=
  {| w_argv := argv; w_stdin := stdin; w_iso_time := w_iso_time w;
     w_curl_init := w_curl_init w; w_res := w_res w; w_reason := w_reason w;
     w_http_code := w_http_code w; w_body := w_body w |}.

(** The members that come before the timestamp in every document. *)
Definition fixed_members : string :=
  "{" ++ nl ++
  "  " ++ member "resourceType" "Observation" ++ "," ++ nl ++
  "  " ++ member "status" "final" ++ "," ++ nl ++
  "  " ++ js "category" ++ ": [ { " ++ js "coding" ++ ": [ { " ++
      member "system" "http://terminology.hl7.org/CodeSystem/observation-category" ++ ", " ++
      member "code" "vital-signs" ++ ", " ++
      member "display" "Vital Signs" ++ " } ] } ]," ++ nl ++
  "  " ++ js "code" ++ ": { " ++ js "coding" ++ ": [ { " ++
      member "system" "http://loinc.org" ++ ", " ++
      member "code" "8310-5" ++ ", " ++
      member "display" "Body temperature" ++ " } ], " ++
      member "text" "Body temperature" ++ " }," ++ nl ++
  "  " ++ js "subject" ++ ": { " ++ member "reference" "Patient/49410276" ++ " }," ++ nl.

(** Magnitude below [2 ^ 1024]: the mantissa has at most 53 bits and the
    exponent is at most 971, as in every finite binary64 number. *)
Definition in_range (x : double) : Prop :=
  match x with
  | S754_finite _ m e => Zpos m < 2 ^ prec64 /\ e <= emax64 - prec64
  | _ => True
  end.

(** The binary64 number nearest to a ratio, stated on integers and
    without the conversion.  A magnitude of binary64 is [m * 2 ^ e] with
    a mantissa below [2 ^ 53] and an exponent from -1074 to 971. *)
Definition binary64_magnitude (m e : Z) : Prop :=
  0 <= m < 2 ^ 53 /\ -1074 <= e <= 971.

(** The distance of [m * 2 ^ e] from [p / q], in units of
    [1 / (q * 2 ^ 1074)], in which it is an integer. *)
Definition gap (p q m e : Z) : Z :=
  Z.abs (m * 2 ^ (e + 1074) * q - p * 2 ^ 1074).

(** [m * 2 ^ e] is the magnitude that round-to-nearest, ties-to-even
    gives for [p / q]: it is written with the mantissa of its binade
    (normal, or subnormal at the least exponent), [p / q] is below the
    point halfway from the largest magnitude to [2 ^ 1024], no magnitude
    is nearer to [p / q], and when another one is as near the mantissa is
    even. *)
Definition nearest_magnitude (p q m e : Z) : Prop :=
  binary64_magnitude m e /\
  (2 ^ 52 <= m \/ e = -1074) /\
  2 * p < (2 ^ 1025 - 2 ^ 971) * q /\
  (forall m' e', binary64_magnitude m' e' -> gap p q m e <= gap p q m' e') /\
  (forall m' e',
     binary64_magnitude m' e' -> gap p q m' e' = gap p q m e ->
     m' * 2 ^ (e' + 1074) <> m * 2 ^ (e + 1074) -> Z.even m = true).

(** [x] is what IEEE 754 round-to-nearest, ties-to-even makes of the
    number of sign [neg] and magnitude [p / q]: the nearest magnitude with
    that sign, or the infinity of that sign from the halfway point on. *)
Definition nearest_binary64 (x : double) (neg : bool) (p q : Z) : Prop :=
  match x with
  | S754_zero s => s = neg /\ nearest_magnitude p q 0 (-1074)
  | S754_finite s m e => s = neg /\ nearest_magnitude p q (Zpos m) e
  | S754_infinity s => s = neg /\ (2 ^ 1025 - 2 ^ 971) * q <= 2 * p
  | S754_nan => False
  end.

(** What a [location] of SpecFloat records: [N / D] lies from [m] to
    [m + 1], and on [m], below, on or above the middle. *)
Definition located (N D m : Z) (l : location) : Prop :=
  m * D <= N < (m + 1) * D /\
  match l with
  | loc_Exact => N = m * D
  | loc_Inexact Lt => m * D < N /\ 2 * N < (2 * m + 1) * D
  | loc_Inexact Eq => 2 * N = (2 * m + 1) * D
  | loc_Inexact Gt => (2 * m + 1) * D < 2 * N
  end.

(** Texts of the shape the input reader is meant for: white space, an
    optional sign, digits with or without a point. *)
Fixpoint all_space (s : string) : bool :=
  match s with
  | "" => true
  | String c s' => isspace c && all_space s'
  end.

Definition sign_prefix (sg : option bool) : string :=
  match sg with
  | None => ""
  | Some true => "-"
  | Some false => "+"
  end.

Definition is_minus (sg : option bool) : bool :=
  match sg with Some true => true | _ => false end.

(** What may follow the digits after a point without being read as part
    of the number: anything but a digit or an exponent marker. *)
Definition ends_fraction (rest : string) : bool :=
  match rest with
  | "" => true
  | String c _ => negb (is_digit c) && negb (is_char 101 (tolower c))
  end.

(** What may follow integer digits without being read as part of the
    number: anything but a digit, a point, an exponent marker or the x of
    a hexadecimal prefix. *)
Definition ends_integer (rest : string) : bool :=
  match rest with
  | "" => true
  | String c _ =>
      negb (is_digit c) && negb (is_char 46 c) &&
      negb (is_char 101 (tolower c)) && negb (is_char 120 (tolower c))
  end.

(** [t] starts like a number: a digit, a point before a digit, or INF or
    NAN in any case. *)
Definition numeric_start (t : string) : bool :=
  match t with
  | "" => false
  | String c r =>
      is_digit c ||
      (is_char 46 c && match r with String d _ => is_digit d | "" => false end) ||
      prefix_nocase "inf" t || prefix_nocase "nan" t
  end.

(** The text after the white space and the sign. *)
Definition unsigned_part (s : string) : string := snd (take_sign (skip_space s)).

(** A word of lower-case letters. *)
Fixpoint lower_word (p : string) : bool :=
  match p with
  | "" => true
  | String a p' => between 97 122 a && lower_word p'
  end.

(** A character that can neither continue nor start a number. *)
Definition stopper (c : ascii) : bool :=
  negb (isalnum c) && negb (is_char 46 c) && negb (is_char 43 c) &&
  negb (is_char 45 c).

Fixpoint no_newline (s : string) : bool :=
  match s with
  | "" => true
  | String c s' => negb (is_char 10 c) && no_newline s'
  end.

(** Every character. *)
Definition all_ascii : list ascii := List.map ascii_of_nat (seq 0 256).

(** [s] reads as the number [v]. *)
Definition reads_as (s : string) (v : Z) : Prop :=
  forall a, digits_value a s = a * 10 ^ Z.of_nat (String.length s) + v.

(** The head of [t], if any, satisfies [P]. *)
Definition head_ok (P : ascii -> bool) (t : string) : bool :=
  match t with "" => true | String c _ => P c end.

(** What [main] does once the temperature [t] has been parsed. *)
Definition after_read (w : World) (t : double) : list event * Z :=
  if negb (isfinite t) then
    ([Stderr ("Invalid temperature value." ++ nl)], 1)
  else if Z.of_nat (String.length (payload w t)) >=? json_size then
    ([Stderr ("JSON payload too long or formatting error." ++ nl)], 1)
  else if negb (w_curl_init w) then
    ([Stderr ("Failed to initialize curl." ++ nl)], 1)
  else if negb (w_res w =? CURLE_OK) then
    ([Stdout posting_line; Perform (post_request (payload w t));
      Body (w_body w);
      Stderr ("curl_easy_perform() failed: " ++ w_reason w ++ nl)], 1)
  else if is_2xx (w_http_code w) then
    ([Stdout posting_line; Perform (post_request (payload w t));
      Body (w_body w);
      Stdout ("Server HTTP response code: " ++ printf_ld (w_http_code w) ++ nl);
      Stdout ("Observation uploaded successfully." ++ nl)], 0)
  else
    ([Stdout posting_line; Perform (post_request (payload w t));
      Body (w_body w);
      Stdout ("Server HTTP response code: " ++ printf_ld (w_http_code w) ++ nl);
      Stdout ("Upload may have failed. Check server logs or response." ++ nl)], 1).

(** ** Worlds and values used as examples *)

Definition d36_5 : double := atof "36.5".

Definition world_of (argv : list string) (stdin : string) : World :=
  {| w_argv := argv; w_stdin := stdin; w_iso_time := "2024-01-01T00:00:00Z";
     w_curl_init := true; w_res := CURLE_OK; w_reason := "No error";
     w_http_code := 201; w_body := "{}" |}.

Definition world_unreachable : World :=
  {| w_argv := ["fhir_upload"; "36.6"]; w_stdin := "";
     w_iso_time := "2024-01-01T00:00:00Z";
     w_curl_init := true; w_res := 7; w_reason := "Couldn't connect to server";
     w_http_code := 0; w_body := "" |}.

Definition world_404 : World :=
  {| w_argv := ["fhir_upload"; "36.6"]; w_stdin := "";
     w_iso_time := "2024-01-01T00:00:00Z";
     w_curl_init := true; w_res := CURLE_OK; w_reason := "No error";
     w_http_code := 404; w_body := "Not Found" |}.

Definition world_no_handle : World :=
  {| w_argv := ["fhir_upload"]; w_stdin := "37.2" ++ nl;
     w_iso_time := "2024-01-01T00:00:00Z";
     w_curl_init := false; w_res := CURLE_OK; w_reason := "No error";
     w_http_code := 0; w_body := "" |}.

(** A clock text far longer than the buffer of [current_time_iso8601]
    could hold: the only way into the guard. *)
Definition world_long_clock : World :=
  {| w_argv := ["fhir_upload"; "36.6"]; w_stdin := "";
     w_iso_time := string_of_list_ascii (List.repeat (ascii_of_nat 48) 1600);
     w_curl_init := true; w_res := CURLE_OK; w_reason := "No error";
     w_http_code := 201; w_body := "" |}.

Definition dbl_max : double := S754_finite true 9007199254740991 971.

(** ** The clock: [time], [gmtime_r] and [strftime]

    [current_time_iso8601] asks [time] for the seconds since the Epoch,
    [gmtime_r] for the broken-down UTC time and [strftime] for its text.
    [World] records that text; the functions below say what it is when the
    clock reads [t]. *)

Record tm := {
  tm_sec : Z; tm_min : Z; tm_hour : Z;
  tm_mday : Z; tm_mon : Z; tm_year : Z;
  tm_wday : Z; tm_yday : Z; tm_isdst : Z
}.

Definition is_leap (y : Z) : bool :=
  ((y mod 4 =? 0) && negb (y mod 100 =? 0)) || (y mod 400 =? 0).

(** Day [doe] of a 400-year era that starts on a first of March: year of
    the era counted from March, month (1 to 12), day of the month, and
    day counted from the first of March. *)
Definition civil_of_doe (doe : Z) : Z * Z * Z * Z :=
  let yoe := (doe - doe / 1460 + doe / 36524 - doe / 146096) / 365 in
  let doy := doe - (365 * yoe + yoe / 4 - yoe / 100) in
  let mp := (5 * doy + 2) / 153 in
  let d := doy - (153 * mp + 2) / 5 + 1 in
  let m := if mp <? 10 then mp + 3 else mp - 9 in
  (yoe, m, d, doy).

(** The calendar computation of [gmtime_r]: the Gregorian date and the
    time of day, [t] seconds after 1970-01-01T00:00:00Z, with days of
    86400 seconds. *)
Definition gmtime (t : Z) : tm :=
  let days := t / 86400 in
  let rem := t mod 86400 in
  let z := days + 719468 in
  let era := z / 146097 in
  let '(yoe, m, d, doy) := civil_of_doe (z mod 146097) in
  let y := yoe + era * 400 + (if m <=? 2 then 1 else 0) in
  {| tm_sec := rem mod 60;
     tm_min := rem / 60 mod 60;
     tm_hour := rem / 3600;
     tm_mday := d;
     tm_mon := m - 1;
     tm_year := y - 1900;
     tm_wday := (days + 4) mod 7;
     tm_yday := if m <=? 2 then doy - 306
                else doy + 59 + (if is_leap y then 1 else 0);
     tm_isdst := 0 |}.

(** The conversions [%m], [%d], [%H], [%M], [%S]: a decimal number of at
    least two digits. *)
Definition pad2 (n : Z) : string :=
  if (0 <=? n) && (n <? 10) then "0" ++ utoa n else printf_ld n.

(** The text of the format [%Y-%m-%dT%H:%M:%SZ].  [%Y] is the year as a
    decimal number; C libraries differ on how they pad years of fewer
    than four digits, which the statements below stay clear of. *)
Definition iso8601_text (x : tm) : string :=
  printf_ld (tm_year x + 1900) ++ "-" ++ pad2 (tm_mon x + 1) ++ "-" ++
  pad2 (tm_mday x) ++ "T" ++ pad2 (tm_hour x) ++ ":" ++ pad2 (tm_min x) ++ ":" ++
  pad2 (tm_sec x) ++ "Z".

(** [strftime (buf, bufsz, ...)]: the text when it fits [buf] with its
    terminating zero; otherwise 0 is returned and [buf] holds nothing
    that can be relied on. *)
Definition strftime (bufsz : nat) (x : tm) : option string :=
  if (String.length (iso8601_text x) <? bufsz)%nat then Some (iso8601_text x)
  else None.

(** The world's clock text is the one of a clock that reads [t]. *)
Definition clock_reads (w : World) (t : Z) : Prop :=
  strftime 32 (gmtime t) = Some (w_iso_time w).

(** The range of the [int] fields of [struct tm]. *)
Definition INT_MIN : Z := -2147483648.
Definition INT_MAX : Z := 2147483647.

(** [gmtime_r]: the calendar computation above when the year fits the
    [int] field [tm_year]; otherwise it fails (a null pointer is returned
    and the structure is not filled). *)
Definition gmtime_r (t : Z) : option tm :=
  if (INT_MIN <=? tm_year (gmtime t)) && (tm_year (gmtime t) <=? INT_MAX)
  then Some (gmtime t) else None.

(** Seconds since the Epoch of a broken-down time, by the formula POSIX
    gives for the years from 1970 on, in the integer arithmetic of C
    (division truncates). *)
Definition seconds_since_epoch (x : tm) : Z :=
  tm_sec x + tm_min x * 60 + tm_hour x * 3600 + tm_yday x * 86400 +
  (tm_year x - 70) * 31536000 + Z.quot (tm_year x - 69) 4 * 86400 -
  Z.quot (tm_year x - 1) 100 * 86400 + Z.quot (tm_year x + 299) 400 * 86400.

Definition days_in_month (y m : Z) : Z :=
  if m =? 2 then (if is_leap y then 29 else 28)
  else if (m =? 4) || (m =? 6) || (m =? 9) || (m =? 11) then 30
  else 31.

(** [s] follows the pattern [p]: a [d] of the pattern stands for any
    decimal digit, every other character for itself. *)
Fixpoint follows_pattern (p s : string) : bool :=
  match p, s with
  | "", "" => true
  | String a p', String c s' =>
      (if is_char 100 a then is_digit c else (code a =? code c)%nat) &&
      follows_pattern p' s'
  | _, _ => false
  end.

(** The first and the last second of the years of four digits. *)
Definition year_1000 : Z := -30610224000.
Definition year_10000 : Z := 253402300800.

(** [P] holds of [lo], [lo + 1], ... ([fuel] numbers). *)
Fixpoint forall_range (fuel : nat) (lo : Z) (P : Z -> bool) : bool :=
  match fuel with
  | O => true
  | S fuel' => P lo && forall_range fuel' (lo + 1) P
  end.

(** What is checked, day by day, over one era of 146097 days. *)
Definition doe_ok (doe : Z) : bool :=
  let '(yoe, m, d, doy) := civil_of_doe doe in
  let k := yoe + (if m <=? 2 then 1 else 0) in
  let yday := if m <=? 2 then doy - 306
              else doy + 59 + (if is_leap k then 1 else 0) in
  (0 <=? yoe) && (yoe <=? 399) &&
  (1 <=? m) && (m <=? 12) &&
  (1 <=? d) && (d <=? days_in_month k m) &&
  (0 <=? yday) && (yday <=? 365) &&
  (doe - 719468 =?
     yday + (k - 1970) * 365 + (k - 1969) / 4 - (k - 1901) / 100 + (k - 1601) / 400) &&
  ((doe <? 72989) || (200 <=? k)) &&
  ((146036 <? doe) || (k <=? 399)).

(** A pattern of [n] digits. *)
Fixpoint digits_pattern (n : nat) : string :=
  match n with
  | O => ""
  | S n' => String (ascii_of_nat 100) (digits_pattern n')
  end.

(** [s] is [n] decimal digits that read as [v]. *)
Definition digits_of (n : nat) (v : Z) (s : string) : Prop :=
  String.length s = n /\ all_digits s = true /\ digits_value 0 s = v.

Definition digits_of_b (n : nat) (v : Z) (s : string) : bool :=
  (String.length s =? n)%nat && all_digits s && (digits_value 0 s =? v).

Fixpoint stderr_lines (t : list event) : nat :=
  match t with
  | [] => 0
  | Stderr _ :: t' => S (stderr_lines t')
  | _ :: t' => stderr_lines t'
  end.

Definition world_silent : World :=
  {| w_argv := ["fhir_upload"]; w_stdin := "";
     w_iso_time := "2024-01-01T00:00:00Z";
     w_curl_init := true; w_res := CURLE_OK; w_reason := "No error";
     w_http_code := 201; w_body := "" |}.

Definition world_leap_day : World :=
  {| w_argv := ["fhir_upload"; "36.6"]; w_stdin := "";
     w_iso_time := "2024-02-29T12:34:56Z";
     w_curl_init := true; w_res := CURLE_OK; w_reason := "No error";
     w_http_code := 201; w_body := "" |}.

(** * Properties *)

(** ** Strings *)

Lemma append_assoc (s t u : string) : (s ++ t) ++ u = s ++ (t ++ u).
Proof. induction s as [|c s IH]; simpl; [reflexivity | now rewrite IH]. Qed.

Lemma length_append (s t : string) :
  String.length (s ++ t) = (String.length s + String.length t)%nat.
Proof. induction s as [|c s IH]; simpl; [reflexivity | now rewrite IH]. Qed.

(** ** Characters: a fact about every character is checked on the 256 of
    them. *)

Lemma in_all_ascii (c : ascii) : In c all_ascii.
Proof.
  unfold all_ascii. rewrite <- (ascii_nat_embedding c).
  apply in_map, in_seq. pose proof (nat_ascii_bounded c). lia.
Qed.

Lemma forall_ascii (P : ascii -> bool) :
  forallb P all_ascii = true -> forall c, P c = true.
Proof.
  intros H c. rewrite forallb_forall in H. apply H, in_all_ascii.
Qed.

Lemma digit_char_is_digit (d : Z) : 0 <= d < 10 -> is_digit (digit_char d) = true.
Proof.
  intros H.
  assert (D : d = 0 \/ d = 1 \/ d = 2 \/ d = 3 \/ d = 4 \/ d = 5 \/ d = 6 \/
              d = 7 \/ d = 8 \/ d = 9) by lia.
  repeat (destruct D as [D|D]; [subst d; reflexivity|]). subst d; reflexivity.
Qed.

Lemma digit_val_digit_char (d : Z) : 0 <= d < 10 -> digit_val (digit_char d) = d.
Proof.
  intros H.
  assert (D : d = 0 \/ d = 1 \/ d = 2 \/ d = 3 \/ d = 4 \/ d = 5 \/ d = 6 \/
              d = 7 \/ d = 8 \/ d = 9) by lia.
  repeat (destruct D as [D|D]; [subst d; reflexivity|]). subst d; reflexivity.
Qed.

(** ** [utoa] prints the decimal digits of its argument *)

Lemma reads_as_nil : reads_as "" 0.
Proof. intros a. simpl. lia. Qed.

Lemma reads_as_cons (d : Z) (s : string) (v : Z) :
  0 <= d < 10 -> reads_as s v ->
  reads_as (String (digit_char d) s) (d * 10 ^ Z.of_nat (String.length s) + v).
Proof.
  intros Hd Hs a. cbn [digits_value String.length].
  rewrite Hs, digit_val_digit_char by assumption.
  rewrite Nat2Z.inj_succ, Z.pow_succ_r by lia. ring.
Qed.

Lemma utoa_fuel_reads_as (fuel : nat) :
  forall n acc v, 0 <= n < 2 ^ Z.of_nat fuel -> reads_as acc v ->
    reads_as (utoa_fuel fuel n acc) (n * 10 ^ Z.of_nat (String.length acc) + v).
Proof.
  induction fuel as [|fuel IH]; intros n acc v Hn Hacc.
  - simpl in *. replace n with 0 by lia. now rewrite Z.mul_0_l.
  - cbn [utoa_fuel].
    assert (Hd : 0 <= n mod 10 < 10) by (apply Z.mod_pos_bound; lia).
    pose proof (reads_as_cons _ _ _ Hd Hacc) as Hacc'.
    pose proof (Z.div_mod n 10 ltac:(lia)) as Hdm.
    destruct (Z.eqb_spec (n / 10) 0) as [E|E].
    + replace (n * 10 ^ Z.of_nat (String.length acc))
        with (n mod 10 * 10 ^ Z.of_nat (String.length acc)) by (f_equal; lia).
      exact Hacc'.
    + assert (Hq : 0 <= n / 10 < 2 ^ Z.of_nat fuel).
      { rewrite Nat2Z.inj_succ, Z.pow_succ_r in Hn by lia.
        split; [apply Z.div_pos; lia|]. apply Z.div_lt_upper_bound; lia. }
      pose proof (IH _ _ _ Hq Hacc') as R.
      cbn [String.length] in R.
      rewrite Nat2Z.inj_succ, Z.pow_succ_r in R by lia.
      replace (n * 10 ^ Z.of_nat (String.length acc) + v)
        with (n / 10 * (10 * 10 ^ Z.of_nat (String.length acc)) +
              (n mod 10 * 10 ^ Z.of_nat (String.length acc) + v)); [exact R|].
      rewrite Hdm at 3. ring.
Qed.

Lemma utoa_value (n : Z) : 0 <= n -> digits_value 0 (utoa n) = n.
Proof.
  intros Hn. unfold utoa.
  assert (B : 0 <= n < 2 ^ Z.of_nat (S (Z.to_nat (Z.log2 n)))).
  { split; [assumption|].
    rewrite Nat2Z.inj_succ, Z2Nat.id by apply Z.log2_nonneg.
    destruct (Z.eq_dec n 0) as [->|N]; [reflexivity|].
    apply Z.log2_spec. lia. }
  rewrite (utoa_fuel_reads_as _ _ _ _ B reads_as_nil). simpl. lia.
Qed.

Lemma utoa_fuel_all_digits (fuel : nat) :
  forall n acc, all_digits acc = true -> all_digits (utoa_fuel fuel n acc) = true.
Proof.
  induction fuel as [|fuel IH]; intros n acc Hacc; [exact Hacc|].
  cbn [utoa_fuel].
  assert (A : all_digits (String (digit_char (n mod 10)) acc) = true).
  { cbn [all_digits]. rewrite Hacc, digit_char_is_digit; [reflexivity|].
    apply Z.mod_pos_bound; lia. }
  destruct (n / 10 =? 0); [exact A | now apply IH].
Qed.

Lemma utoa_all_digits (n : Z) : all_digits (utoa n) = true.
Proof. now apply utoa_fuel_all_digits. Qed.

Lemma utoa_fuel_length_ge (fuel : nat) :
  forall n acc, (String.length acc <= String.length (utoa_fuel fuel n acc))%nat.
Proof.
  induction fuel as [|fuel IH]; intros n acc; [apply Nat.le_refl|].
  cbn [utoa_fuel]. destruct (n / 10 =? 0).
  - simpl. lia.
  - specialize (IH (n / 10) (String (digit_char (n mod 10)) acc)). simpl in IH. lia.
Qed.

Lemma utoa_nonempty (n : Z) : utoa n <> "".
Proof.
  unfold utoa. cbn [utoa_fuel].
  destruct (n / 10 =? 0); [discriminate|].
  intros E.
  pose proof (utoa_fuel_length_ge (Z.to_nat (Z.log2 n)) (n / 10)
                (String (digit_char (n mod 10)) "")) as L.
  rewrite E in L. simpl in L. lia.
Qed.

(** A number below [10 ^ k] has at most [k] digits. *)
Lemma utoa_fuel_length_le (fuel : nat) :
  forall n k acc, 0 <= n < 10 ^ Z.of_nat k -> (1 <= k)%nat ->
    (String.length (utoa_fuel fuel n acc) <= String.length acc + k)%nat.
Proof.
  induction fuel as [|fuel IH]; intros n k acc Hn Hk; [simpl; lia|].
  cbn [utoa_fuel]. destruct (Z.eqb_spec (n / 10) 0) as [E|E].
  - simpl. lia.
  - destruct k as [|k]; [lia|].
    rewrite Nat2Z.inj_succ, Z.pow_succ_r in Hn by lia.
    assert (Hq : 0 <= n / 10 < 10 ^ Z.of_nat k).
    { split; [apply Z.div_pos; lia|]. apply Z.div_lt_upper_bound; lia. }
    destruct k as [|k].
    + simpl in Hq. lia.
    + specialize (IH (n / 10) (S k) (String (digit_char (n mod 10)) acc) Hq ltac:(lia)).
      simpl in IH |- *. lia.
Qed.

Lemma utoa_length_le (n : Z) (k : nat) :
  0 <= n < 10 ^ Z.of_nat k -> (1 <= k)%nat -> (String.length (utoa n) <= k)%nat.
Proof.
  intros Hn Hk. unfold utoa.
  now apply (utoa_fuel_length_le _ n k "").
Qed.

(** ** The conversion [%.2f] *)

Lemma digits_value_append (s t : string) :
  forall a, digits_value a (s ++ t) = digits_value (digits_value a s) t.
Proof. induction s as [|c s IH]; intros a; simpl; [reflexivity | apply IH]. Qed.

Lemma hundredths_nonneg (m : positive) (e : Z) : 0 <= hundredths m e.
Proof.
  unfold hundredths. destruct (0 <=? e) eqn:E.
  - apply Z.mul_nonneg_nonneg; [|lia].
    apply Z.mul_nonneg_nonneg; [lia|]. apply Z.pow_nonneg; lia.
  - apply Z.leb_gt in E.
    assert (D : 0 < 2 ^ (- e)) by (apply Z.pow_pos_nonneg; lia).
    assert (Q : 0 <= Z.pos m * 100 / 2 ^ (- e)) by (apply Z.div_pos; lia).
    destruct (2 * _ ?= _); [destruct (Z.even _)| |]; lia.
Qed.

Lemma hundredths_nearest (s : bool) (m : positive) (e : Z) :
  nearest_hundredths (S754_finite s m e) (hundredths m e).
Proof.
  unfold nearest_hundredths, hundredths. destruct (0 <=? e) eqn:E; [reflexivity|].
  apply Z.leb_gt in E.
  assert (D : 0 < 2 ^ (- e)) by (apply Z.pow_pos_nonneg; lia).
  pose proof (Z.div_mod (Z.pos m * 100) (2 ^ (- e)) ltac:(lia)) as DM.
  pose proof (Z.mod_pos_bound (Z.pos m * 100) (2 ^ (- e)) D) as RB.
  set (d := 2 ^ (- e)) in *.
  set (q := Z.pos m * 100 / d) in *.
  set (r := (Z.pos m * 100) mod d) in *.
  destruct (Z.compare_spec (2 * r) d) as [C|C|C];
    [destruct (Z.even q)| |]; rewrite DM;
    [ replace (q * d - (d * q + r)) with (- r) by ring
    | replace ((q + 1) * d - (d * q + r)) with (d - r) by ring
    | replace (q * d - (d * q + r)) with (- r) by ring
    | replace ((q + 1) * d - (d * q + r)) with (d - r) by ring ]; lia.
Qed.

Lemma fixed2_shape (h : Z) :
  0 <= h ->
  exists ip fp,
    fixed2 h = ip ++ "." ++ fp /\
    ip <> "" /\ all_digits ip = true /\
    all_digits fp = true /\ String.length fp = 2%nat /\
    digits_value 0 (ip ++ fp) = h.
Proof.
  intros Hh.
  exists (utoa (h / 100)),
         (String (digit_char (h / 10 mod 10)) (String (digit_char (h mod 10)) "")).
  assert (D1 : 0 <= h / 10 mod 10 < 10) by (apply Z.mod_pos_bound; lia).
  assert (D2 : 0 <= h mod 10 < 10) by (apply Z.mod_pos_bound; lia).
  repeat split.
  - apply utoa_nonempty.
  - apply utoa_all_digits.
  - cbn [all_digits]. now rewrite !digit_char_is_digit.
  - rewrite digits_value_append, utoa_value by (apply Z.div_pos; lia).
    cbn [digits_value]. rewrite !digit_val_digit_char by assumption.
    pose proof (Z.div_mod h 10 ltac:(lia)).
    pose proof (Z.div_mod (h / 10) 10 ltac:(lia)).
    assert (Q : h / 10 / 10 = h / 100) by (rewrite Z.div_div by lia; reflexivity).
    lia.
Qed.

(** C1. For every finite temperature, the document that the payload
    builder formats carries, as the value member of valueQuantity, the
    conversion of the temperature with an optional minus sign, at least
    one integer digit, a point and exactly two fraction digits; the
    digits read as the number of hundredths nearest to the magnitude of
    the temperature. *)
Theorem value_rendered_with_two_decimals
    (patient iso_time : string) (v : double) :
  isfinite v = true ->
  exists pre post ip fp,
    json_text patient iso_time v =
      pre ++ js "valueQuantity" ++ ": { " ++ js "value" ++ ": "
          ++ printf_2f v ++ ", " ++ js "unit" ++ post /\
    printf_2f v = sign_text (signbit v) ++ ip ++ "." ++ fp /\
    ip <> "" /\ all_digits ip = true /\
    all_digits fp = true /\ String.length fp = 2%nat /\
    nearest_hundredths v (digits_value 0 (ip ++ fp)).
Proof.
  intros F.
  assert (S : exists ip fp,
    printf_2f v = sign_text (signbit v) ++ ip ++ "." ++ fp /\
    ip <> "" /\ all_digits ip = true /\
    all_digits fp = true /\ String.length fp = 2%nat /\
    nearest_hundredths v (digits_value 0 (ip ++ fp))).
  { destruct v as [s|s| |s m e]; try discriminate F.
    - destruct (fixed2_shape 0 ltac:(lia)) as (ip & fp & E & P1 & P2 & P3 & P4 & P5).
      exists ip, fp. cbn [printf_2f signbit nearest_hundredths].
      rewrite E. auto 10.
    - destruct (fixed2_shape _ (hundredths_nonneg m e))
        as (ip & fp & E & P1 & P2 & P3 & P4 & P5).
      exists ip, fp. cbn [printf_2f signbit].
      rewrite E, P5. auto 10 using hundredths_nearest. }
  destruct S as (ip & fp & S).
  exists (fmt_1 ++ patient ++ fmt_2 ++ iso_time ++ dq ++ "," ++ nl ++ "  "),
         (": " ++ js "degrees C" ++ ", " ++
          member "system" "http://unitsofmeasure.org" ++ ", " ++
          member "code" "Cel" ++ " }" ++ nl ++ "}" ++ nl),
         ip, fp.
  split; [|exact S].
  unfold json_text, fmt_3, fmt_4, member.
  repeat rewrite append_assoc. reflexivity.
Qed.

Lemma value_rendered_with_two_decimals_36_5 :
  isfinite d36_5 = true /\ printf_2f d36_5 = "36.50" /\
  exists pre post ip fp,
    json_text PATIENT_ID "2024-01-01T00:00:00Z" d36_5 =
      pre ++ js "valueQuantity" ++ ": { " ++ js "value" ++ ": "
          ++ printf_2f d36_5 ++ ", " ++ js "unit" ++ post /\
    printf_2f d36_5 = sign_text (signbit d36_5) ++ ip ++ "." ++ fp /\
    ip <> "" /\ all_digits ip = true /\
    all_digits fp = true /\ String.length fp = 2%nat /\
    nearest_hundredths d36_5 (digits_value 0 (ip ++ fp)).
Proof.
  split; [reflexivity|]. split; [vm_compute; reflexivity|].
  apply (value_rendered_with_two_decimals PATIENT_ID "2024-01-01T00:00:00Z" d36_5).
  reflexivity.
Defined.

(** ** Rounding to binary64 stays in range *)

Lemma digits2_pos_gt (m : positive) : Zpos m < 2 ^ Zpos (digits2_pos m).
Proof.
  induction m as [m IH|m IH|]; cbn [digits2_pos]; [| |reflexivity];
    rewrite Pos2Z.inj_succ, Z.pow_succ_r by lia; lia.
Qed.

Lemma digits2_le_lt (m : positive) (k : Z) :
  Zpos (digits2_pos m) <= k -> Zpos m < 2 ^ k.
Proof.
  intros H. apply Z.lt_le_trans with (2 ^ Zpos (digits2_pos m)).
  - apply digits2_pos_gt.
  - apply Z.pow_le_mono_r; lia.
Qed.

Lemma Zdigits2_shr_1 (mrs : shr_record) :
  Zdigits2 (shr_m (shr_1 mrs)) = Z.max 0 (Zdigits2 (shr_m mrs) - 1).
Proof.
  destruct mrs as [m r s]. destruct m as [|[p|p|]|[p|p|]];
    cbn [shr_1 shr_m Zdigits2 digits2_pos]; rewrite ?Pos2Z.inj_succ; lia.
Qed.

Lemma Zdigits2_nonneg (m : Z) : 0 <= Zdigits2 m.
Proof. destruct m; simpl; lia. Qed.

Lemma Zdigits2_iter_shr_1 (p : positive) :
  forall mrs,
    Zdigits2 (shr_m (iter_pos shr_1 p mrs)) = Z.max 0 (Zdigits2 (shr_m mrs) - Zpos p).
Proof.
  induction p as [p IH|p IH|]; intros mrs; cbn [iter_pos].
  - rewrite !IH, Zdigits2_shr_1. lia.
  - rewrite !IH. lia.
  - apply Zdigits2_shr_1.
Qed.

Lemma shr_record_of_loc_m (m : Z) (l : location) : shr_m (shr_record_of_loc m l) = m.
Proof. destruct l as [|[]]; reflexivity. Qed.

Lemma shr_fexp_digits (m e : Z) (l : location) :
  Zdigits2 (shr_m (fst (shr_fexp prec64 emax64 m e l))) <= prec64.
Proof.
  unfold shr_fexp, shr, fexp, emin.
  pose proof (Zdigits2_nonneg m) as D.
  destruct (Z.max (Zdigits2 m + e - prec64) (3 - emax64 - prec64) - e) as [|p|p] eqn:N;
    cbn [fst]; rewrite ?Zdigits2_iter_shr_1, shr_record_of_loc_m;
    unfold prec64, emax64 in *; lia.
Qed.

Lemma binary_round_aux_in_range (s : bool) (m e : Z) (l : location) :
  in_range (binary_round_aux prec64 emax64 s m e l).
Proof.
  unfold binary_round_aux.
  destruct (shr_fexp prec64 emax64 m e l) as [mrs' e'].
  pose proof (shr_fexp_digits
                (round_nearest_even (shr_m mrs') (loc_of_shr_record mrs')) e' loc_Exact) as D.
  destruct (shr_fexp prec64 emax64 _ e' loc_Exact) as [mrs'' e''].
  cbn [fst] in D.
  destruct (shr_m mrs'') as [|q|q]; cbn [in_range]; [exact I| |exact I].
  destruct (Z.leb_spec e'' (emax64 - prec64)); cbn [in_range]; [|exact I].
  split; [|assumption]. apply digits2_le_lt. exact D.
Qed.

Lemma round_ratio_in_range (neg : bool) (p q : Z) : in_range (round_ratio neg p q).
Proof.
  unfold round_ratio. destruct (p =? 0); [exact I|].
  destruct (SFdiv_core_binary prec64 emax64 p 0 q 0) as [[m e] l].
  apply binary_round_aux_in_range.
Qed.

Lemma scaled_in_range (neg : bool) (m base e : Z) : in_range (scaled neg m base e).
Proof. unfold scaled. destruct (0 <=? e); apply round_ratio_in_range. Qed.

Lemma constant_in_range (neg : bool) (r : string) : in_range (constant neg r).
Proof.
  unfold constant.
  destruct (hex_constant neg r) as [x|] eqn:H.
  { unfold hex_constant in H.
    destruct r as [|c0 [|c1 r]]; try discriminate H.
    destruct (is_char 48 c0 && is_char 120 (tolower c1)); [|discriminate H].
    destruct (mantissa Hex r) as [[[m nf] r']|]; [|discriminate H].
    injection H as <-. apply scaled_in_range. }
  destruct (decimal_constant neg r) as [x|] eqn:D.
  { unfold decimal_constant in D.
    destruct (mantissa Dec r) as [[[m nf] r']|]; [|discriminate D].
    injection D as <-. apply scaled_in_range. }
  destruct (special_constant neg r) as [x|] eqn:P; [|exact I].
  unfold special_constant in P.
  destruct (prefix_nocase "inf" r); [injection P as <-; exact I|].
  destruct (prefix_nocase "nan" r); [injection P as <-; exact I | discriminate P].
Qed.

(** Every value [atof] returns has magnitude below [2 ^ 1024]. *)
Lemma atof_in_range (s : string) : in_range (atof s).
Proof.
  unfold atof. destruct (take_sign (skip_space s)) as [neg r].
  apply constant_in_range.
Qed.

Lemma binary64_in_range (x : double) : is_binary64 x -> in_range x.
Proof.
  unfold is_binary64. destruct x as [s|s| |s m e]; cbn [valid_binary in_range]; auto.
  unfold bounded, canonical_mantissa, fexp, emin. intros H.
  apply andb_true_iff in H. destruct H as [C E].
  apply Z.eqb_eq in C. apply Z.leb_le in E.
  split; [|exact E]. apply digits2_le_lt. unfold prec64, emax64 in *. lia.
Qed.

(** ** The document fits its buffer *)

Lemma hundredths_bound (m : positive) (e : Z) :
  Zpos m < 2 ^ prec64 -> e <= emax64 - prec64 ->
  hundredths m e < 10 ^ 311.
Proof.
  intros M E. unfold hundredths, prec64, emax64 in *.
  destruct (Z.leb_spec 0 e) as [P|N].
  - assert (B : 2 ^ e <= 2 ^ 971) by (apply Z.pow_le_mono_r; lia).
    assert (Q : 0 < 2 ^ e) by (apply Z.pow_pos_nonneg; lia).
    apply Z.le_lt_trans with (2 ^ 53 * 2 ^ 971 * 100); [|reflexivity].
    apply Z.mul_le_mono_nonneg_r; [lia|].
    apply Z.mul_le_mono_nonneg; lia.
  - assert (D : 0 < 2 ^ (- e)) by (apply Z.pow_pos_nonneg; lia).
    assert (Q : Z.pos m * 100 / 2 ^ (- e) <= Z.pos m * 100).
    { apply Z.div_le_upper_bound; [lia|]. nia. }
    assert (T : 2 ^ 53 * 100 + 1 < 10 ^ 311) by reflexivity.
    destruct (2 * _ ?= _); [destruct (Z.even _)| |]; lia.
Qed.

Lemma fixed2_length (h : Z) :
  0 <= h < 10 ^ 311 -> (String.length (fixed2 h) <= 312)%nat.
Proof.
  intros H. unfold fixed2. rewrite !length_append. cbn [String.length].
  assert (L : (String.length (utoa (h / 100)) <= 309)%nat).
  { apply utoa_length_le; [|lia]. split; [apply Z.div_pos; lia|].
    apply Z.div_lt_upper_bound; [lia|].
    change (100 * 10 ^ Z.of_nat 309) with (10 ^ 311). lia. }
  lia.
Qed.

Lemma printf_2f_length (x : double) :
  in_range x -> (String.length (printf_2f x) <= 313)%nat.
Proof.
  destruct x as [s|s| |s m e]; cbn [printf_2f in_range].
  - intros _. destruct s; vm_compute; lia.
  - intros _. destruct s; vm_compute; lia.
  - intros _. vm_compute; lia.
  - intros [M E]. rewrite length_append.
    pose proof (fixed2_length (hundredths m e)
                  (conj (hundredths_nonneg m e) (hundredths_bound m e M E))).
    destruct s; cbn [sign_text String.length]; lia.
Qed.

Lemma json_text_length (iso_time : string) (x : double) :
  String.length (json_text PATIENT_ID iso_time x) =
    (543 + String.length iso_time + String.length (printf_2f x))%nat.
Proof.
  unfold json_text. rewrite !length_append.
  change (String.length fmt_1) with 393%nat.
  change (String.length PATIENT_ID) with 8%nat.
  change (String.length fmt_2) with 29%nat.
  change (String.length fmt_3) with 33%nat.
  change (String.length fmt_4) with 80%nat.
  lia.
Qed.

(** ** What [atof] accepts *)

Lemma ascii_implb (P Q : ascii -> bool) :
  forallb (fun c => implb (P c) (Q c)) all_ascii = true ->
  forall c, P c = true -> Q c = true.
Proof.
  intros H c Pc. pose proof (forall_ascii _ H c) as I. cbv beta in I.
  rewrite Pc in I. exact I.
Qed.

Lemma digit_facts (c : ascii) :
  is_digit c = true ->
  isspace c = false /\ is_char 46 c = false /\ is_char 45 c = false /\
  is_char 43 c = false /\ is_char 120 (tolower c) = false.
Proof.
  intros H.
  pose proof (ascii_implb is_digit
    (fun c => negb (isspace c) && negb (is_char 46 c) && negb (is_char 45 c) &&
              negb (is_char 43 c) && negb (is_char 120 (tolower c)))
    ltac:(vm_compute; reflexivity) c H) as F.
  cbv beta in F. rewrite !andb_true_iff, !negb_true_iff in F. tauto.
Qed.

Lemma point_facts (c : ascii) :
  is_char 46 c = true ->
  isspace c = false /\ is_digit c = false /\ is_char 45 c = false /\
  is_char 43 c = false /\ is_char 48 c = false /\ is_char 120 (tolower c) = false.
Proof.
  intros H.
  pose proof (ascii_implb (is_char 46)
    (fun c => negb (isspace c) && negb (is_digit c) && negb (is_char 45 c) &&
              negb (is_char 43 c) && negb (is_char 48 c) &&
              negb (is_char 120 (tolower c)))
    ltac:(vm_compute; reflexivity) c H) as F.
  cbv beta in F. rewrite !andb_true_iff, !negb_true_iff in F. tauto.
Qed.

Lemma stopper_facts (c : ascii) :
  stopper c = true ->
  is_digit c = false /\ isxdigit c = false /\ is_char 46 c = false /\
  is_char 45 c = false /\ is_char 43 c = false /\
  between 97 122 (tolower c) = false.
Proof.
  intros H.
  pose proof (ascii_implb stopper
    (fun c => negb (is_digit c) && negb (isxdigit c) && negb (is_char 46 c) &&
              negb (is_char 45 c) && negb (is_char 43 c) &&
              negb (between 97 122 (tolower c)))
    ltac:(vm_compute; reflexivity) c H) as F.
  cbv beta in F. rewrite !andb_true_iff, !negb_true_iff in F. tauto.
Qed.

Lemma not_lower_letter (k : nat) (c : ascii) :
  (97 <= k <= 122)%nat -> between 97 122 c = false -> is_char k c = false.
Proof.
  unfold between, is_char. intros K B.
  destruct (Nat.eqb_spec (code c) k) as [E|E]; [|reflexivity].
  rewrite E in B.
  destruct (Nat.leb_spec 97 k); destruct (Nat.leb_spec k 122); simpl in B;
    (discriminate B || lia).
Qed.

Lemma stopper_in_radix (b : radix) (c : ascii) :
  stopper c = true -> in_radix b c = false.
Proof.
  intros H. destruct (stopper_facts c H) as (D & X & _). now destruct b.
Qed.

Lemma skip_space_all_space (ws t : string) :
  all_space ws = true -> skip_space (ws ++ t) = skip_space t.
Proof.
  induction ws as [|c ws IH]; [reflexivity|].
  cbn [all_space]. intros H. apply andb_true_iff in H. destruct H as [C W].
  cbn [append skip_space]. rewrite C. now apply IH.
Qed.

Lemma scan_all_digits (ds : string) :
  forall acc k rest, all_digits ds = true ->
    scan Dec acc k (ds ++ rest) =
    scan Dec (digits_value acc ds) (k + Z.of_nat (String.length ds)) rest.
Proof.
  induction ds as [|c ds IH]; intros acc k rest H.
  - simpl. now rewrite Z.add_0_r.
  - cbn [all_digits] in H. apply andb_true_iff in H. destruct H as [C D].
    cbn [append scan in_radix radix_base radix_val digits_value String.length].
    rewrite C, IH by assumption. f_equal. lia.
Qed.

Lemma scan_stop (b : radix) (acc k : Z) (rest : string) :
  match rest with "" => true | String c _ => negb (in_radix b c) end = true ->
  scan b acc k rest = (acc, k, rest).
Proof.
  destruct rest as [|c r]; [reflexivity|]. cbn [scan].
  intros H. apply negb_true_iff in H. now rewrite H.
Qed.

Lemma nonempty_length (s : string) : s <> "" -> (0 < String.length s)%nat.
Proof. destruct s; [congruence | simpl; lia]. Qed.

Lemma mantissa_fraction (ip fp rest : string) :
  all_digits ip = true -> all_digits fp = true -> ip ++ fp <> "" ->
  ends_fraction rest = true ->
  mantissa Dec (ip ++ "." ++ fp ++ rest) =
    Some (digits_value 0 (ip ++ fp), Z.of_nat (String.length fp), rest).
Proof.
  intros I F N R. unfold mantissa.
  rewrite scan_all_digits by assumption.
  rewrite scan_stop by reflexivity.
  cbn [append]. change (is_char 46 ".") with true. cbv iota.
  rewrite scan_all_digits by assumption.
  rewrite scan_stop.
  2:{ destruct rest as [|c r]; [reflexivity|]. cbn [ends_fraction in_radix] in *.
      apply andb_true_iff in R. tauto. }
  apply nonempty_length in N. rewrite length_append in N.
  destruct (Z.eqb_spec (0 + Z.of_nat (String.length ip) + (0 + Z.of_nat (String.length fp))) 0);
    [lia|].
  now rewrite digits_value_append.
Qed.

Lemma mantissa_integer (ip rest : string) :
  all_digits ip = true -> ip <> "" -> ends_integer rest = true ->
  mantissa Dec (ip ++ rest) = Some (digits_value 0 ip, 0, rest).
Proof.
  intros I N R. unfold mantissa.
  rewrite scan_all_digits by assumption.
  apply nonempty_length in N.
  destruct rest as [|c r].
  - cbn [scan]. destruct (Z.eqb_spec (0 + Z.of_nat (String.length ip)) 0); [lia | reflexivity].
  - cbn [ends_integer] in R. rewrite !andb_true_iff, !negb_true_iff in R.
    destruct R as [[[D P] _] _].
    cbn [scan in_radix]. rewrite D, P.
    destruct (Z.eqb_spec (0 + Z.of_nat (String.length ip)) 0); [lia | reflexivity].
Qed.

Lemma exponent_absent (marker : nat) (rest : string) :
  match rest with "" => true | String c _ => negb (is_char marker (tolower c)) end = true ->
  exponent marker rest = 0.
Proof.
  destruct rest as [|c r]; [reflexivity|]. cbn [exponent].
  intros H. apply negb_true_iff in H. now rewrite H.
Qed.

(** A text that starts with digits and then anything but x, or with a
    point, has no hexadecimal prefix. *)
Lemma hex_constant_decimal (neg : bool) (ip t : string) :
  all_digits ip = true ->
  match ip, t with
  | "", String c _ => is_char 46 c
  | String _ "", String c _ => negb (is_char 120 (tolower c))
  | _, _ => true
  end = true ->
  hex_constant neg (ip ++ t) = None.
Proof.
  intros I T. unfold hex_constant.
  destruct ip as [|c0 [|c1 ip]]; cbn [append].
  - destruct t as [|c [|c' t]]; try reflexivity.
    destruct (point_facts c T) as (_ & _ & _ & _ & Z0 & _). now rewrite Z0.
  - destruct t as [|c t]; [reflexivity|].
    apply negb_true_iff in T. rewrite T, andb_false_r. reflexivity.
  - cbn [all_digits] in I. rewrite !andb_true_iff in I.
    destruct I as (_ & D1 & _).
    destruct (digit_facts c1 D1) as (_ & _ & _ & _ & X). rewrite X, andb_false_r.
    reflexivity.
Qed.

Lemma skip_space_head (t : string) :
  head_ok (fun c => negb (isspace c)) t = true -> skip_space t = t.
Proof.
  destruct t as [|c t]; [reflexivity|]. cbn [head_ok skip_space].
  intros H. apply negb_true_iff in H. now rewrite H.
Qed.

Lemma take_sign_head (t : string) :
  head_ok (fun c => negb (is_char 45 c) && negb (is_char 43 c)) t = true ->
  take_sign t = (false, t).
Proof.
  destruct t as [|c t]; [reflexivity|]. cbn [head_ok take_sign].
  intros H. rewrite andb_true_iff, !negb_true_iff in H. destruct H as [-> ->].
  reflexivity.
Qed.

(** A text made of digits around an optional point starts neither with a
    space nor with a sign. *)
Lemma number_head (ip t : string) (P : ascii -> bool) :
  all_digits ip = true ->
  (forall c, is_digit c = true -> P c = true) ->
  head_ok P t = true ->
  head_ok P (ip ++ t) = true.
Proof.
  intros I D T. destruct ip as [|c ip]; [exact T|].
  cbn [all_digits] in I. apply andb_true_iff in I. cbn [append head_ok].
  apply D, I.
Qed.

Lemma atof_signed (ws : string) (sg : option bool) (t : string) :
  all_space ws = true ->
  head_ok (fun c => negb (isspace c)) t = true ->
  head_ok (fun c => negb (is_char 45 c) && negb (is_char 43 c)) t = true ->
  atof (ws ++ sign_prefix sg ++ t) = constant (is_minus sg) t.
Proof.
  intros W S G. unfold atof. rewrite skip_space_all_space by assumption.
  destruct sg as [[|]|]; cbn [sign_prefix append is_minus].
  - reflexivity.
  - reflexivity.
  - now rewrite skip_space_head, take_sign_head.
Qed.

Lemma digit_not_space (c : ascii) : is_digit c = true -> negb (isspace c) = true.
Proof. intros H. destruct (digit_facts c H) as (-> & _). reflexivity. Qed.

Lemma digit_not_sign (c : ascii) :
  is_digit c = true -> negb (is_char 45 c) && negb (is_char 43 c) = true.
Proof. intros H. destruct (digit_facts c H) as (_ & _ & -> & -> & _). reflexivity. Qed.

(** Digits, a point, digits: the value is that of the digits, whatever
    follows. *)
Lemma atof_fraction (ws : string) (sg : option bool) (ip fp rest : string) :
  all_space ws = true -> all_digits ip = true -> all_digits fp = true ->
  ip ++ fp <> "" -> ends_fraction rest = true ->
  atof (ws ++ sign_prefix sg ++ ip ++ "." ++ fp ++ rest) =
    scaled (is_minus sg) (digits_value 0 (ip ++ fp)) 10 (- Z.of_nat (String.length fp)).
Proof.
  intros W I F N R.
  rewrite atof_signed; try assumption.
  - unfold constant, decimal_constant.
    rewrite hex_constant_decimal by (try assumption; now destruct ip as [|? [|? ?]]).
    rewrite mantissa_fraction by assumption.
    rewrite exponent_absent.
    + reflexivity.
    + destruct rest as [|c r]; [reflexivity|]. cbn [ends_fraction] in R.
      apply andb_true_iff in R. tauto.
  - apply number_head; [assumption | apply digit_not_space | reflexivity].
  - apply number_head; [assumption | apply digit_not_sign | reflexivity].
Qed.

(** Digits alone: the same, provided what follows cannot be taken for a
    point, an exponent or a hexadecimal prefix. *)
Lemma atof_integer (ws : string) (sg : option bool) (ip rest : string) :
  all_space ws = true -> all_digits ip = true -> ip <> "" ->
  ends_integer rest = true ->
  atof (ws ++ sign_prefix sg ++ ip ++ rest) =
    scaled (is_minus sg) (digits_value 0 ip) 10 0.
Proof.
  intros W I N R.
  assert (H : exists c ip', ip = String c ip' /\ is_digit c = true).
  { destruct ip as [|c ip']; [congruence|]. exists c, ip'. split; [reflexivity|].
    cbn [all_digits] in I. apply andb_true_iff in I. tauto. }
  destruct H as (c & ip' & E & D).
  rewrite atof_signed; try assumption.
  - unfold constant, decimal_constant.
    rewrite hex_constant_decimal.
    + rewrite mantissa_integer by assumption.
      rewrite exponent_absent; [reflexivity|].
      destruct rest as [|c' r]; [reflexivity|]. cbn [ends_integer] in R.
      rewrite !andb_true_iff in R. tauto.
    + assumption.
    + subst ip. destruct ip'; [|reflexivity].
      destruct rest as [|c' r]; [reflexivity|]. cbn [ends_integer] in R.
      rewrite !andb_true_iff in R. tauto.
  - subst ip. cbn [append head_ok]. now apply digit_not_space.
  - subst ip. cbn [append head_ok]. now apply digit_not_sign.
Qed.

(** *** Nothing that looks like a number *)

Lemma zero_is_digit (c : ascii) : is_char 48 c = true -> is_digit c = true.
Proof.
  apply (ascii_implb (is_char 48) is_digit). vm_compute. reflexivity.
Qed.

Lemma constant_no_number (neg : bool) (t : string) :
  numeric_start t = false -> constant neg t = S754_zero false.
Proof.
  destruct t as [|c r]; [reflexivity|].
  cbn [numeric_start]. rewrite !orb_false_iff. intros [[[D P] I] N].
  assert (H : hex_constant neg (String c r) = None).
  { unfold hex_constant. destruct r as [|c1 r']; [reflexivity|].
    destruct (is_char 48 c) eqn:Z0; [|reflexivity].
    apply zero_is_digit in Z0. congruence. }
  assert (M : mantissa Dec (String c r) = None).
  { unfold mantissa. cbn [scan in_radix]. rewrite D.
    destruct (is_char 46 c); [|reflexivity].
    cbn [andb] in P. rewrite scan_stop; [reflexivity|].
    destruct r as [|d r']; [reflexivity|]. cbn [in_radix]. now rewrite P. }
  unfold constant, decimal_constant, special_constant. now rewrite H, M, I, N.
Qed.

Lemma atof_no_number (s : string) :
  numeric_start (unsigned_part s) = false -> atof s = S754_zero false.
Proof.
  unfold unsigned_part, atof. destruct (take_sign (skip_space s)) as [neg r].
  apply constant_no_number.
Qed.

(** *** Trailing text *)

Section Trailing.
Variables (c : ascii) (rest : string).
Hypothesis c_stops : stopper c = true.

Let tl : string := String c rest.

Lemma scan_trailing (b : radix) (t : string) :
  forall acc k,
    scan b acc k (t ++ tl) =
    let '(v, n, r) := scan b acc k t in (v, n, r ++ tl).
Proof.
  induction t as [|x t IH]; intros acc k.
  - cbn [append scan]. unfold tl. cbn [scan].
    now rewrite (stopper_in_radix b c c_stops).
  - cbn [append scan]. destruct (in_radix b x); [apply IH | reflexivity].
Qed.

Lemma mantissa_trailing (b : radix) (t : string) :
  mantissa b (t ++ tl) =
  match mantissa b t with
  | Some (m, nf, r) => Some (m, nf, r ++ tl)
  | None => None
  end.
Proof.
  unfold mantissa. rewrite scan_trailing.
  destruct (scan b 0 0 t) as [[ip ni] r1].
  destruct r1 as [|x r2].
  - cbn [append]. unfold tl.
    destruct (stopper_facts c c_stops) as (_ & _ & -> & _).
    destruct (ni =? 0); reflexivity.
  - cbn [append]. destruct (is_char 46 x).
    + rewrite scan_trailing. destruct (scan b ip 0 r2) as [[m nf] r3].
      destruct (ni + nf =? 0); reflexivity.
    + destruct (ni =? 0); reflexivity.
Qed.

Lemma take_sign_trailing (t : string) :
  take_sign (t ++ tl) = (fst (take_sign t), snd (take_sign t) ++ tl).
Proof.
  destruct t as [|x t].
  - cbn [append take_sign fst snd]. unfold tl. cbn [take_sign].
    destruct (stopper_facts c c_stops) as (_ & _ & _ & -> & -> & _). reflexivity.
  - cbn [append take_sign].
    destruct (is_char 45 x); [reflexivity|]. destruct (is_char 43 x); reflexivity.
Qed.

Lemma marker_not_stopper (marker : nat) :
  (97 <= marker <= 122)%nat -> is_char marker (tolower c) = false.
Proof.
  intros M. apply not_lower_letter; [exact M|].
  now destruct (stopper_facts c c_stops) as (_ & _ & _ & _ & _ & L).
Qed.

Lemma exponent_trailing (marker : nat) (t : string) :
  (97 <= marker <= 122)%nat -> exponent marker (t ++ tl) = exponent marker t.
Proof.
  intros M. destruct t as [|x t].
  - cbn [append exponent]. unfold tl. cbn [exponent].
    now rewrite marker_not_stopper.
  - cbn [append exponent]. destruct (is_char marker (tolower x)); [|reflexivity].
    rewrite take_sign_trailing. destruct (take_sign t) as [neg r]. cbn [fst snd].
    rewrite scan_trailing. destruct (scan Dec 0 0 r) as [[v n] r']. reflexivity.
Qed.

Lemma decimal_constant_trailing (neg : bool) (t : string) :
  decimal_constant neg (t ++ tl) = decimal_constant neg t.
Proof.
  unfold decimal_constant. rewrite mantissa_trailing.
  destruct (mantissa Dec t) as [[[m nf] r]|]; [|reflexivity].
  rewrite exponent_trailing by lia. reflexivity.
Qed.

Lemma hex_constant_trailing (neg : bool) (t : string) :
  hex_constant neg (t ++ tl) = hex_constant neg t.
Proof.
  unfold hex_constant. destruct t as [|c0 [|c1 t]]; cbn [append].
  - unfold tl. destruct rest as [|c1 r]; [reflexivity|].
    destruct (is_char 48 c) eqn:Z0; [|reflexivity].
    apply zero_is_digit in Z0.
    destruct (stopper_facts c c_stops) as (D & _). congruence.
  - unfold tl. rewrite (marker_not_stopper 120) by lia.
    now rewrite andb_false_r.
  - destruct (is_char 48 c0 && is_char 120 (tolower c1)); [|reflexivity].
    rewrite mantissa_trailing.
    destruct (mantissa Hex t) as [[[m nf] r]|]; [|reflexivity].
    rewrite exponent_trailing by lia. reflexivity.
Qed.

Lemma prefix_nocase_trailing (p : string) :
  lower_word p = true ->
  forall t, prefix_nocase p (t ++ tl) = prefix_nocase p t.
Proof.
  induction p as [|a p IH]; intros L t; [now destruct t|].
  cbn [lower_word] in L. apply andb_true_iff in L. destruct L as [A L].
  destruct t as [|x t].
  - cbn [append prefix_nocase]. unfold tl. cbn [prefix_nocase].
    assert (E : is_char (code a) (tolower c) = false).
    { apply marker_not_stopper. unfold between in A.
      apply andb_true_iff in A. destruct A as [A1 A2].
      apply Nat.leb_le in A1, A2. lia. }
    unfold is_char in E. rewrite Nat.eqb_sym, E. reflexivity.
  - cbn [append prefix_nocase]. now rewrite IH.
Qed.

Lemma special_constant_trailing (neg : bool) (t : string) :
  special_constant neg (t ++ tl) = special_constant neg t.
Proof.
  unfold special_constant. now rewrite !prefix_nocase_trailing.
Qed.

Lemma constant_trailing (neg : bool) (t : string) :
  constant neg (t ++ tl) = constant neg t.
Proof.
  unfold constant.
  now rewrite hex_constant_trailing, decimal_constant_trailing,
    special_constant_trailing.
Qed.

Lemma skip_space_append (s u : string) :
  skip_space (s ++ u) =
  match skip_space s with
  | "" => skip_space u
  | r => r ++ u
  end.
Proof.
  induction s as [|x s IH]; [reflexivity|].
  cbn [append skip_space]. destruct (isspace x); [exact IH | reflexivity].
Qed.

(** A character that cannot belong to a number ends the text for
    [atof], as the terminating zero byte does: what follows is not
    looked at.  (A white-space character before any number is skipped
    instead, so that case needs the text before it to hold something
    else, or the text after it to hold nothing.) *)
Lemma atof_trailing (s : string) :
  isspace c = false \/ skip_space s <> "" \/ skip_space rest = "" ->
  atof (s ++ tl) = atof s.
Proof.
  intros H. unfold atof. rewrite skip_space_append.
  destruct (skip_space s) as [|x r] eqn:E.
  - assert (K : skip_space tl = tl \/ skip_space tl = "").
    { unfold tl. cbn [skip_space]. destruct (isspace c); [|now left].
      destruct H as [H|[H|H]]; [discriminate H | congruence | now right]. }
    destruct K as [-> | ->]; [|reflexivity].
    change tl with ("" ++ tl). rewrite take_sign_trailing.
    cbn [take_sign fst snd]. now rewrite constant_trailing.
  - rewrite take_sign_trailing.
    destruct (take_sign (String x r)) as [neg r']. cbn [fst snd].
    now rewrite constant_trailing.
Qed.
End Trailing.

Lemma atof_line (a : string) : atof (a ++ nl) = atof a.
Proof.
  apply atof_trailing; [reflexivity|]. right. right. reflexivity.
Qed.

Lemma fgets_chars_line (a more : string) :
  forall n, no_newline a = true -> (String.length a < n)%nat ->
    fgets_chars n (a ++ nl ++ more) = a ++ nl.
Proof.
  induction a as [|x a IH]; intros n N L.
  - destruct n as [|n]; [simpl in L; lia | reflexivity].
  - cbn [no_newline] in N. apply andb_true_iff in N. destruct N as [X N].
    apply negb_true_iff in X. cbn [String.length] in L.
    destruct n as [|n]; [lia|].
    cbn [append fgets_chars]. rewrite X. f_equal. apply IH; [assumption | lia].
Qed.

(** ** [main], branch by branch *)

Ltac step_prog :=
  cbv beta iota zeta delta
    [bind ret exit emit printf fprintf_stderr run fst snd
     curl_easy_init curl_easy_perform curl_easy_strerror
     curl_easy_getinfo_response_code].

Lemma read_temperature_eq (w : World) :
  read_temperature w =
    match input_text w with
    | Some s => (prompt_events w, inl (atof s))
    | None => ((prompt_events w ++ [Stderr ("No input" ++ nl)])%list, inr 1)
    end.
Proof.
  unfold read_temperature, input_text, prompt_events, argc.
  destruct (2 <=? Z.of_nat (List.length (w_argv w))); [reflexivity|].
  destruct (w_stdin w); reflexivity.
Qed.

Lemma main_eq (w : World) :
  main w =
    match input_text w with
    | Some s => ((prompt_events w ++ fst (after_read w (atof s)))%list,
                 snd (after_read w (atof s)))
    | None => ((prompt_events w ++ [Stderr ("No input" ++ nl)])%list, 1)
    end.
Proof.
  unfold main, main_prog. rewrite read_temperature_eq.
  destruct (input_text w) as [s|]; [|reflexivity].
  unfold after_read, payload, is_2xx, posting_line.
  step_prog.
  set (json := json_text PATIENT_ID (current_time_iso8601 w) (atof s)).
  set (n := Z.of_nat (String.length json)).
  assert (N : (n <? 0) = false) by (apply Z.ltb_ge; subst n; lia).
  rewrite N. cbn [orb].
  replace (w_http_code w >=? 200) with (200 <=? w_http_code w)
    by (rewrite Z.geb_leb; reflexivity).
  destruct (isfinite (atof s)); cbn [negb]; [|reflexivity].
  destruct (n >=? json_size); [reflexivity|].
  destruct (w_curl_init w); cbn [negb]; [|reflexivity].
  destruct (w_res w =? CURLE_OK); cbn [negb]; [|reflexivity].
  destruct ((200 <=? w_http_code w) && (w_http_code w <? 300)); reflexivity.
Qed.

Lemma prompt_events_no_perform (w : World) (rq : request) :
  ~ In (Perform rq) (prompt_events w).
Proof.
  unfold prompt_events. destruct (2 <=? argc w); simpl; [tauto|].
  intros [H|[H|[]]]; discriminate H.
Qed.

Lemma performs_app (t u : list event) :
  performs (t ++ u) = (performs t + performs u)%nat.
Proof.
  induction t as [|e t IH]; [reflexivity|].
  destruct e; simpl; rewrite IH; reflexivity.
Qed.

Lemma performs_prompt_events (w : World) : performs (prompt_events w) = 0%nat.
Proof. unfold prompt_events. destruct (2 <=? argc w); reflexivity. Qed.

(** A transfer is attempted only by a run that read a finite temperature,
    formatted a document that fits, and obtained a handle; what is posted
    is that document. *)
Lemma perform_inv (w : World) (rq : request) :
  In (Perform rq) (fst (main w)) ->
  exists s,
    input_text w = Some s /\ isfinite (atof s) = true /\
    fits (payload w (atof s)) /\ w_curl_init w = true /\
    rq = post_request (payload w (atof s)).
Proof.
  rewrite main_eq. destruct (input_text w) as [s|]; cbn [fst].
  - intros H. apply in_app_or in H.
    destruct H as [H|H]; [now apply prompt_events_no_perform in H|].
    exists s. unfold after_read, fits in *.
    destruct (isfinite (atof s)); cbn [negb] in H;
      [|destruct H as [H|[]]; discriminate H].
    destruct (Z.geb_spec (Z.of_nat (String.length (payload w (atof s)))) json_size);
      [destruct H as [H|[]]; discriminate H|].
    destruct (w_curl_init w); cbn [negb] in H;
      [|destruct H as [H|[]]; discriminate H].
    assert (R : rq = post_request (payload w (atof s))).
    { destruct (negb (w_res w =? CURLE_OK)); [|destruct (is_2xx (w_http_code w))];
        simpl in H;
        repeat (destruct H as [H|H]; [try discriminate H; now inversion H|]);
        destruct H. }
    auto.
  - intros H. apply in_app_or in H.
    destruct H as [H|H]; [now apply prompt_events_no_perform in H|].
    destruct H as [H|[]]; discriminate H.
Qed.

(** Once the transfer is attempted, the run ends in one of three ways. *)
Lemma main_after_perform (w : World) (rq : request) :
  In (Perform rq) (fst (main w)) ->
  main w =
    if negb (w_res w =? CURLE_OK) then
      ((prompt_events w ++
        [Stdout posting_line; Perform rq; Body (w_body w);
         Stderr ("curl_easy_perform() failed: " ++ w_reason w ++ nl)])%list, 1)
    else
      ((prompt_events w ++
        [Stdout posting_line; Perform rq; Body (w_body w);
         Stdout ("Server HTTP response code: " ++ printf_ld (w_http_code w) ++ nl);
         Stdout (if is_2xx (w_http_code w)
                 then "Observation uploaded successfully." ++ nl
                 else "Upload may have failed. Check server logs or response." ++ nl)])%list,
       if is_2xx (w_http_code w) then 0 else 1).
Proof.
  intros H. destruct (perform_inv w rq H) as (s & I & F & L & C & R).
  rewrite main_eq, I. unfold after_read. rewrite F, C, <- R. cbn [negb].
  unfold fits in L.
  destruct (Z.geb_spec (Z.of_nat (String.length (payload w (atof s)))) json_size);
    [lia|].
  destruct (negb (w_res w =? CURLE_OK)); [reflexivity|].
  destruct (is_2xx (w_http_code w)); reflexivity.
Qed.

(** ** The claims about [main] *)

(** C2. When the text that is parsed (the first argument, or the line read
    from standard input) converts to a NaN or an infinity, the run logs
    nothing after the input reader but the invalid-value message on
    standard error, exits with status 1, and attempts no transfer. *)
Theorem non_finite_input_rejected (w : World) (s : string) :
  input_text w = Some s ->
  isfinite (atof s) = false ->
  main w =
    ((prompt_events w ++ [Stderr ("Invalid temperature value." ++ nl)])%list, 1) /\
  performs (fst (main w)) = 0%nat.
Proof.
  intros I F.
  assert (E : main w =
    ((prompt_events w ++ [Stderr ("Invalid temperature value." ++ nl)])%list, 1)).
  { rewrite main_eq, I. unfold after_read. rewrite F. reflexivity. }
  split; [exact E|].
  rewrite E. cbn [fst]. rewrite performs_app, performs_prompt_events. reflexivity.
Qed.

Lemma non_finite_input_rejected_nan :
  main (world_of ["fhir_upload"; "nan"] "") =
    ([Stderr ("Invalid temperature value." ++ nl)], 1) /\
  main (world_of ["fhir_upload"] ("1e999" ++ nl)) =
    ([Stdout "Enter body temperature (e.g. 36.5): "; Fgets;
      Stderr ("Invalid temperature value." ++ nl)], 1).
Proof.
  split.
  - apply (non_finite_input_rejected (world_of ["fhir_upload"; "nan"] "") "nan");
      reflexivity.
  - apply (non_finite_input_rejected (world_of ["fhir_upload"] ("1e999" ++ nl))
             ("1e999" ++ nl)); vm_compute; reflexivity.
Defined.

(** C3. When the transfer is attempted and libcurl reports success, the
    run copies the body to standard output untouched, prints the status
    code in decimal, then one of two fixed lines: the success line, with
    exit status 0, when the code is in [200, 300), and the same failure
    line, with exit status 1, for every other code.  Neither the lines nor
    the exit status depend on the body. *)
Theorem response_reported_by_status_code (w : World) (rq : request) :
  In (Perform rq) (fst (main w)) ->
  w_res w = CURLE_OK ->
  exists verdict status,
    main w =
      ((prompt_events w ++
        [Stdout posting_line; Perform rq; Body (w_body w);
         Stdout ("Server HTTP response code: " ++ printf_ld (w_http_code w) ++ nl);
         Stdout verdict])%list, status) /\
    (200 <= w_http_code w < 300 ->
       verdict = "Observation uploaded successfully." ++ nl /\ status = 0) /\
    (~ 200 <= w_http_code w < 300 ->
       verdict = "Upload may have failed. Check server logs or response." ++ nl /\
       status = 1).
Proof.
  intros H R. rewrite (main_after_perform w rq H), R. cbn [Z.eqb CURLE_OK negb].
  unfold is_2xx.
  destruct (Z.leb_spec 200 (w_http_code w)); destruct (Z.ltb_spec (w_http_code w) 300);
    cbn [andb]; eexists; eexists; (split; [reflexivity|]); split; intros; (lia || auto).
Qed.

Lemma response_reported_by_status_code_201_404 :
  main (world_of ["fhir_upload"; "36.6"] "") =
    ([Stdout posting_line;
      Perform (post_request (payload (world_of ["fhir_upload"; "36.6"] "") (atof "36.6")));
      Body "{}";
      Stdout ("Server HTTP response code: 201" ++ nl);
      Stdout ("Observation uploaded successfully." ++ nl)], 0) /\
  main world_404 =
    ([Stdout posting_line;
      Perform (post_request (payload world_404 (atof "36.6")));
      Body "Not Found";
      Stdout ("Server HTTP response code: 404" ++ nl);
      Stdout ("Upload may have failed. Check server logs or response." ++ nl)], 1).
Proof.
  split.
  - destruct (response_reported_by_status_code (world_of ["fhir_upload"; "36.6"] "")
      (post_request (payload (world_of ["fhir_upload"; "36.6"] "") (atof "36.6"))))
      as (verdict & status & E & Ok & _).
    + vm_compute. right. left. reflexivity.
    + reflexivity.
    + destruct Ok as [-> ->]; [cbn [w_http_code world_of]; lia|]. exact E.
  - destruct (response_reported_by_status_code world_404
      (post_request (payload world_404 (atof "36.6"))))
      as (verdict & status & E & _ & Ko).
    + vm_compute. right. left. reflexivity.
    + reflexivity.
    + destruct Ko as [-> ->]; [cbn [w_http_code world_404]; lia|]. exact E.
Defined.

(** C6. When the transfer is attempted and libcurl reports a failure, the
    run writes one line to standard error that carries the reason libcurl
    gives for the code, and exits with status 1.  The only lines [main]
    has printed on standard output are the prompt, when there was one,
    and the posting notice: no status code, no verdict. *)
Theorem transport_failure_reported (w : World) (rq : request) :
  In (Perform rq) (fst (main w)) ->
  w_res w <> CURLE_OK ->
  main w =
    ((prompt_events w ++
      [Stdout posting_line; Perform rq; Body (w_body w);
       Stderr ("curl_easy_perform() failed: " ++ w_reason w ++ nl)])%list, 1) /\
  (forall out, In (Stdout out) (fst (main w)) -> out = prompt \/ out = posting_line).
Proof.
  intros H R.
  assert (E : main w =
    ((prompt_events w ++
      [Stdout posting_line; Perform rq; Body (w_body w);
       Stderr ("curl_easy_perform() failed: " ++ w_reason w ++ nl)])%list, 1)).
  { rewrite (main_after_perform w rq H).
    destruct (Z.eqb_spec (w_res w) CURLE_OK); [contradiction | reflexivity]. }
  split; [exact E|].
  intros out O. rewrite E in O. cbn [fst] in O. apply in_app_or in O.
  destruct O as [O|O].
  - left. unfold prompt_events in O. destruct (2 <=? argc w); simpl in O.
    + destruct O.
    + destruct O as [O|[O|[]]]; [now inversion O | discriminate O].
  - right. simpl in O. destruct O as [O|[O|[O|[O|[]]]]];
      [now inversion O | discriminate O | discriminate O | discriminate O].
Qed.

Lemma transport_failure_reported_refused :
  main world_unreachable =
    ([Stdout posting_line;
      Perform (post_request (payload world_unreachable (atof "36.6")));
      Body "";
      Stderr ("curl_easy_perform() failed: Couldn't connect to server" ++ nl)], 1).
Proof.
  apply (transport_failure_reported world_unreachable
           (post_request (payload world_unreachable (atof "36.6")))).
  - vm_compute. right. left. reflexivity.
  - discriminate.
Defined.

(** C9. When a finite temperature was read and its document fits, and
    curl_easy_init returns no handle, the run writes the initialisation
    failure line to standard error, exits with status 1, and attempts no
    transfer. *)
Theorem curl_init_failure_reported (w : World) (s : string) :
  input_text w = Some s ->
  isfinite (atof s) = true ->
  fits (payload w (atof s)) ->
  w_curl_init w = false ->
  main w =
    ((prompt_events w ++ [Stderr ("Failed to initialize curl." ++ nl)])%list, 1) /\
  performs (fst (main w)) = 0%nat.
Proof.
  intros I F L C.
  assert (E : main w =
    ((prompt_events w ++ [Stderr ("Failed to initialize curl." ++ nl)])%list, 1)).
  { rewrite main_eq, I. unfold after_read. rewrite F, C. cbn [negb].
    unfold fits in L.
    destruct (Z.geb_spec (Z.of_nat (String.length (payload w (atof s)))) json_size);
      [lia | reflexivity]. }
  split; [exact E|].
  rewrite E. cbn [fst]. rewrite performs_app, performs_prompt_events. reflexivity.
Qed.

Lemma curl_init_failure_reported_stdin :
  main world_no_handle =
    ([Stdout prompt; Fgets; Stderr ("Failed to initialize curl." ++ nl)], 1) /\
  performs (fst (main world_no_handle)) = 0%nat.
Proof.
  apply (curl_init_failure_reported world_no_handle ("37.2" ++ nl)).
  - reflexivity.
  - vm_compute. reflexivity.
  - vm_compute. reflexivity.
  - reflexivity.
Defined.

Lemma after_read_no_prompt (w : World) (t : double) :
  ~ In Fgets (fst (after_read w t)) /\ ~ In (Stdout prompt) (fst (after_read w t)).
Proof.
  unfold after_read.
  destruct (negb (isfinite t)); [|destruct (_ >=? _)]; [| |destruct (negb (w_curl_init w))];
    [| | |destruct (negb (w_res w =? CURLE_OK))]; [| | | |destruct (is_2xx (w_http_code w))];
    cbn [fst]; split; intros H; simpl in H;
    repeat (destruct H as [H|H]; [discriminate H|]); exact H.
Qed.

(** C10. With at least one argument the run never prints the prompt and
    never asks standard input for a line.  The temperature [main] goes on
    with is [atof] of the first argument: the input reader returns it
    without logging anything, the whole run is the one that follows the
    reading of that value, a document that is posted is the one formatted
    from it, and the run is rejected when it is not finite.  The run is
    the same whatever standard input holds and whatever the program name
    and the arguments after the first are. *)
Theorem argument_bypasses_stdin
    (w : World) (argv' : list string) (stdin' : string) :
  2 <= argc w ->
  2 <= Z.of_nat (List.length argv') ->
  nth 1 argv' "" = nth 1 (w_argv w) "" ->
  ~ In (Stdout prompt) (fst (main w)) /\
  ~ In Fgets (fst (main w)) /\
  input_text w = Some (nth 1 (w_argv w) "") /\
  main (with_input w argv' stdin') = main w /\
  read_temperature w = ([], inl (atof (nth 1 (w_argv w) ""))) /\
  main w = after_read w (atof (nth 1 (w_argv w) "")) /\
  (forall rq, In (Perform rq) (fst (main w)) ->
     isfinite (atof (nth 1 (w_argv w) "")) = true /\
     rq_postfields rq =
       json_text PATIENT_ID (current_time_iso8601 w) (atof (nth 1 (w_argv w) ""))) /\
  (isfinite (atof (nth 1 (w_argv w) "")) = false ->
     main w = ([Stderr ("Invalid temperature value." ++ nl)], 1)).
Proof.
  intros A A' N.
  assert (I : input_text w = Some (nth 1 (w_argv w) "")).
  { unfold input_text. destruct (Z.leb_spec 2 (argc w)); [reflexivity | lia]. }
  assert (I' : input_text (with_input w argv' stdin') = Some (nth 1 (w_argv w) "")).
  { unfold input_text, argc. cbn [w_argv with_input].
    destruct (Z.leb_spec 2 (Z.of_nat (List.length argv'))); [now rewrite N | lia]. }
  assert (P : prompt_events w = []).
  { unfold prompt_events. destruct (Z.leb_spec 2 (argc w)); [reflexivity | lia]. }
  assert (P' : prompt_events (with_input w argv' stdin') = []).
  { unfold prompt_events, argc. cbn [w_argv with_input].
    destruct (Z.leb_spec 2 (Z.of_nat (List.length argv'))); [reflexivity | lia]. }
  assert (R : read_temperature w = ([], inl (atof (nth 1 (w_argv w) "")))).
  { rewrite read_temperature_eq, I, P. reflexivity. }
  assert (M : main w = after_read w (atof (nth 1 (w_argv w) ""))).
  { rewrite main_eq, I, P. cbn [List.app].
    now destruct (after_read w (atof (nth 1 (w_argv w) ""))). }
  assert (S : forall rq, In (Perform rq) (fst (main w)) ->
     isfinite (atof (nth 1 (w_argv w) "")) = true /\
     rq_postfields rq =
       json_text PATIENT_ID (current_time_iso8601 w) (atof (nth 1 (w_argv w) ""))).
  { intros rq H. destruct (perform_inv w rq H) as (s & Is & F & _ & _ & ->).
    rewrite I in Is. injection Is as <-. split; [exact F | reflexivity]. }
  assert (X : isfinite (atof (nth 1 (w_argv w) "")) = false ->
     main w = ([Stderr ("Invalid temperature value." ++ nl)], 1)).
  { intros F. rewrite M. unfold after_read. now rewrite F. }
  rewrite !main_eq, I, I', P, P'. cbn [List.app fst].
  destruct (after_read_no_prompt w (atof (nth 1 (w_argv w) ""))) as [F Q].
  rewrite main_eq, I, P in M, S, X. cbn [List.app fst] in M, S, X.
  split; [exact Q|]. split; [exact F|]. split; [reflexivity|].
  split; [reflexivity|]. split; [exact R|]. split; [exact M|].
  split; [exact S | exact X].
Qed.

Lemma argument_bypasses_stdin_extra_args :
  main (with_input (world_of ["fhir_upload"; "36.6"] "")
          ["./a.out"; "36.6"; "40.1"; "x"] ("39.9" ++ nl)) =
  main (world_of ["fhir_upload"; "36.6"] "") /\
  read_temperature (world_of ["fhir_upload"; "36.6"; "40.1"; "x"] ("39.9" ++ nl)) =
    ([], inl (S754_finite false 5150992073805005 (-47))) /\
  main (world_of ["fhir_upload"; "36.6"; "40.1"; "x"] ("39.9" ++ nl)) =
    ([Stdout posting_line;
      Perform (post_request
        (fixed_members ++
         "  " ++ member "effectiveDateTime" "2024-01-01T00:00:00Z" ++ "," ++ nl ++
         "  " ++ js "valueQuantity" ++ ": { " ++ js "value" ++ ": 36.60, " ++
         member "unit" "degrees C" ++ ", " ++
         member "system" "http://unitsofmeasure.org" ++ ", " ++
         member "code" "Cel" ++ " }" ++ nl ++ "}" ++ nl));
      Body "{}";
      Stdout ("Server HTTP response code: 201" ++ nl);
      Stdout ("Observation uploaded successfully." ++ nl)], 0).
Proof.
  split; [|split].
  - apply (argument_bypasses_stdin (world_of ["fhir_upload"; "36.6"] "")
             ["./a.out"; "36.6"; "40.1"; "x"] ("39.9" ++ nl)).
    + vm_compute. discriminate.
    + vm_compute. discriminate.
    + reflexivity.
  - destruct (argument_bypasses_stdin
                (world_of ["fhir_upload"; "36.6"; "40.1"; "x"] ("39.9" ++ nl))
                ["fhir_upload"; "36.6"] "") as (_ & _ & _ & _ & R & _).
    + vm_compute. discriminate.
    + vm_compute. discriminate.
    + reflexivity.
    + rewrite R. vm_compute. reflexivity.
  - destruct (argument_bypasses_stdin
                (world_of ["fhir_upload"; "36.6"; "40.1"; "x"] ("39.9" ++ nl))
                ["fhir_upload"; "36.6"] "") as (_ & _ & _ & _ & _ & M & _).
    + vm_compute. discriminate.
    + vm_compute. discriminate.
    + reflexivity.
    + rewrite M. vm_compute. reflexivity.
Defined.

Lemma performs_after_read (w : World) (t : double) :
  performs (fst (after_read w t)) =
    if isfinite t && (Z.of_nat (String.length (payload w t)) <? json_size)
       && w_curl_init w
    then 1%nat else 0%nat.
Proof.
  unfold after_read. rewrite Z.geb_leb, Z.ltb_antisym.
  destruct (isfinite t); [|reflexivity].
  destruct (json_size <=? _); [reflexivity|].
  destruct (w_curl_init w); [|reflexivity].
  destruct (negb (w_res w =? CURLE_OK)); [reflexivity|].
  destruct (is_2xx (w_http_code w)); reflexivity.
Qed.

(** C5, as the code has it.  A run attempts at most one transfer.  It
    attempts one exactly when a text was available to parse, the text
    converted to a finite temperature, the document fits the buffer and
    libcurl gave a handle; what is posted then is the one document
    formatted from that temperature. *)
Theorem at_most_one_post (w : World) :
  (performs (fst (main w)) <= 1)%nat /\
  (performs (fst (main w)) = 1%nat <->
     exists s, input_text w = Some s /\ isfinite (atof s) = true /\
               fits (payload w (atof s)) /\ w_curl_init w = true) /\
  (forall rq, In (Perform rq) (fst (main w)) ->
     exists s, input_text w = Some s /\ rq = post_request (payload w (atof s))).
Proof.
  assert (E : performs (fst (main w)) =
    match input_text w with
    | Some s =>
        if isfinite (atof s)
           && (Z.of_nat (String.length (payload w (atof s))) <? json_size)
           && w_curl_init w
        then 1%nat else 0%nat
    | None => 0%nat
    end).
  { rewrite main_eq. destruct (input_text w) as [s|]; cbn [fst];
      rewrite performs_app, performs_prompt_events; [|reflexivity].
    now rewrite performs_after_read. }
  split; [|split].
  - rewrite E. destruct (input_text w); [destruct (_ && _)|]; lia.
  - rewrite E. unfold fits. split.
    + destruct (input_text w) as [s|]; [|discriminate].
      destruct (isfinite (atof s)) eqn:F; [|discriminate].
      destruct (Z.ltb_spec (Z.of_nat (String.length (payload w (atof s)))) json_size);
        [|discriminate].
      destruct (w_curl_init w) eqn:C; [|discriminate].
      intros _. exists s. auto.
    + intros (s & I & F & L & C). rewrite I, F, C.
      destruct (Z.ltb_spec (Z.of_nat (String.length (payload w (atof s)))) json_size);
        [reflexivity | lia].
  - intros rq H. destruct (perform_inv w rq H) as (s & I & _ & _ & _ & R).
    exists s. auto.
Qed.

(** C5, as the claim states it, fails: a run whose standard input is
    empty and that has no argument attempts no transfer at all. *)
Lemma some_run_posts_nothing :
  ~ (forall w, performs (fst (main w)) = 1%nat).
Proof.
  intros H. specialize (H (world_of ["fhir_upload"] "")).
  vm_compute in H. discriminate H.
Qed.

(** C7. Whatever the run, the document handed to libcurl starts with the
    same text: resourceType Observation, status final, the vital-signs
    category coding, the LOINC coding 8310-5 and the subject reference
    Patient/49410276.  Temperature and time only come after it. *)
Theorem posted_document_has_fixed_members (w : World) (rq : request) :
  In (Perform rq) (fst (main w)) ->
  exists rest, rq_postfields rq = fixed_members ++ rest.
Proof.
  intros H. destruct (perform_inv w rq H) as (s & _ & _ & _ & _ & ->).
  cbn [rq_postfields post_request]. unfold payload, json_text.
  exists ("  " ++ js "effectiveDateTime" ++ ": " ++ dq ++ current_time_iso8601 w
          ++ fmt_3 ++ printf_2f (atof s) ++ fmt_4).
  change fixed_members with (fmt_1 ++ PATIENT_ID ++ dq ++ " }," ++ nl).
  unfold fmt_2. repeat rewrite append_assoc. reflexivity.
Qed.

Lemma posted_document_has_fixed_members_37_2 :
  exists rest,
    rq_postfields
      (post_request (payload (world_of ["fhir_upload"] ("37.2" ++ nl))
                       (atof ("37.2" ++ nl)))) = fixed_members ++ rest.
Proof.
  apply (posted_document_has_fixed_members (world_of ["fhir_upload"] ("37.2" ++ nl))).
  vm_compute. do 3 right. left. reflexivity.
Defined.

Lemma payload_fits (w : World) (x : double) :
  in_range x -> (String.length (w_iso_time w) <= 31)%nat -> fits (payload w x).
Proof.
  intros R T. unfold fits, payload, current_time_iso8601, json_size.
  rewrite json_text_length. pose proof (printf_2f_length x R). lia.
Qed.

(** C8. A run whose document does not fit the 2048 bytes writes the
    too-long line to standard error, exits with status 1 and attempts no
    transfer.  No run gets there: with a timestamp that fits its 32-byte
    buffer, the document of every binary64 temperature, and so of every
    temperature [atof] returns, is shorter than 2048 bytes. *)
Theorem payload_guard_is_unreachable :
  (forall w s,
     input_text w = Some s -> isfinite (atof s) = true ->
     ~ fits (payload w (atof s)) ->
     main w =
       ((prompt_events w ++
         [Stderr ("JSON payload too long or formatting error." ++ nl)])%list, 1) /\
     performs (fst (main w)) = 0%nat) /\
  (forall iso_time x,
     is_binary64 x -> (String.length iso_time <= 31)%nat ->
     fits (json_text PATIENT_ID iso_time x)) /\
  (forall w s,
     input_text w = Some s -> (String.length (w_iso_time w) <= 31)%nat ->
     fits (payload w (atof s)) /\
     ~ In (Stderr ("JSON payload too long or formatting error." ++ nl)) (fst (main w))).
Proof.
  split; [|split].
  - intros w s I F L.
    assert (E : main w =
      ((prompt_events w ++
        [Stderr ("JSON payload too long or formatting error." ++ nl)])%list, 1)).
    { rewrite main_eq, I. unfold after_read. rewrite F. cbn [negb].
      unfold fits in L.
      destruct (Z.geb_spec (Z.of_nat (String.length (payload w (atof s)))) json_size);
        [reflexivity | lia]. }
    split; [exact E|].
    rewrite E. cbn [fst]. rewrite performs_app, performs_prompt_events. reflexivity.
  - intros iso_time x B T. unfold fits, json_size.
    rewrite json_text_length.
    pose proof (printf_2f_length x (binary64_in_range x B)). lia.
  - intros w s I T.
    pose proof (payload_fits w (atof s) (atof_in_range s) T) as L.
    split; [exact L|].
    rewrite main_eq, I. cbn [fst]. intros H. apply in_app_or in H.
    destruct H as [H|H].
    + unfold prompt_events in H. destruct (2 <=? argc w); simpl in H;
        [destruct H | destruct H as [H|[H|[]]]; discriminate H].
    + unfold after_read, fits in *.
      destruct (Z.geb_spec (Z.of_nat (String.length (payload w (atof s)))) json_size);
        [lia|].
      destruct (negb (isfinite (atof s))); [|destruct (negb (w_curl_init w))];
        [| |destruct (negb (w_res w =? CURLE_OK))];
        [| | |destruct (is_2xx (w_http_code w))];
        simpl in H;
        repeat (destruct H as [H|H]; [discriminate H|]); exact H.
Qed.

Lemma payload_guard_is_unreachable_cases :
  main world_long_clock =
    ([Stderr ("JSON payload too long or formatting error." ++ nl)], 1) /\
  fits (json_text PATIENT_ID "2024-01-01T00:00:00Z" dbl_max) /\
  fits (payload (world_of ["fhir_upload"; "-1.7976931348623157e308"] "")
          (atof "-1.7976931348623157e308")).
Proof.
  destruct payload_guard_is_unreachable as (G & B & R).
  split; [|split].
  - apply (G world_long_clock "36.6").
    + reflexivity.
    + vm_compute. reflexivity.
    + vm_compute. discriminate.
  - apply (B "2024-01-01T00:00:00Z" dbl_max).
    + vm_compute. reflexivity.
    + vm_compute. lia.
  - apply (R (world_of ["fhir_upload"; "-1.7976931348623157e308"] "")
             "-1.7976931348623157e308").
    + reflexivity.
    + vm_compute. lia.
Defined.

Lemma after_read_with_input (w : World) (argv : list string) (stdin : string) (t : double) :
  after_read (with_input w argv stdin) t = after_read w t.
Proof. reflexivity. Qed.

Lemma finite_not_rejected (w : World) (s : string) :
  input_text w = Some s -> isfinite (atof s) = true ->
  ~ In (Stderr ("Invalid temperature value." ++ nl)) (fst (main w)).
Proof.
  intros I F. rewrite main_eq, I. cbn [fst]. intros H. apply in_app_or in H.
  destruct H as [H|H].
  - unfold prompt_events in H. destruct (2 <=? argc w); simpl in H;
      [destruct H | destruct H as [H|[H|[]]]; discriminate H].
  - unfold after_read in H. rewrite F in H. cbn [negb] in H.
    destruct (_ >=? _); [|destruct (negb (w_curl_init w))];
      [| |destruct (negb (w_res w =? CURLE_OK))];
      [| | |destruct (is_2xx (w_http_code w))];
      simpl in H;
      repeat (destruct H as [H|H]; [discriminate H|]); exact H.
Qed.

(** * The rest of the program *)

(** ** The clock *)

Lemma forall_range_sound (P : Z -> bool) (fuel : nat) :
  forall lo, forall_range fuel lo P = true ->
    forall z, lo <= z < lo + Z.of_nat fuel -> P z = true.
Proof.
  induction fuel as [|fuel IH]; intros lo H z Hz; [lia|].
  cbn [forall_range] in H. apply andb_true_iff in H. destruct H as [H0 H].
  destruct (Z.eq_dec z lo) as [->|N]; [exact H0|].
  apply (IH (lo + 1) H). lia.
Qed.

Lemma doe_ok_all (doe : Z) : 0 <= doe < 146097 -> doe_ok doe = true.
Proof.
  intros H.
  apply (forall_range_sound doe_ok (Z.to_nat 146097) 0); [|lia].
  vm_compute. reflexivity.
Qed.

Lemma is_leap_era (k era : Z) : is_leap (k + era * 400) = is_leap k.
Proof.
  unfold is_leap.
  replace ((k + era * 400) mod 4) with (k mod 4)
    by (replace (era * 400) with (era * 100 * 4) by ring;
        now rewrite Z_mod_plus_full).
  replace ((k + era * 400) mod 100) with (k mod 100)
    by (replace (era * 400) with (era * 4 * 100) by ring;
        now rewrite Z_mod_plus_full).
  now rewrite Z_mod_plus_full.
Qed.

(** The fields of [gmtime t] in terms of the era and of the day of the
    era. *)
Lemma gmtime_fields (t : Z) :
  let doe := (t / 86400 + 719468) mod 146097 in
  let era := (t / 86400 + 719468) / 146097 in
  0 <= doe < 146097 /\
  t / 86400 = era * 146097 + doe - 719468 /\
  forall yoe m d doy, civil_of_doe doe = (yoe, m, d, doy) ->
    let k := yoe + (if m <=? 2 then 1 else 0) in
    tm_year (gmtime t) + 1900 = k + era * 400 /\
    tm_mon (gmtime t) + 1 = m /\
    tm_mday (gmtime t) = d /\
    tm_yday (gmtime t) =
      (if m <=? 2 then doy - 306 else doy + 59 + (if is_leap k then 1 else 0)).
Proof.
  cbv zeta.
  pose proof (Z.mod_pos_bound (t / 86400 + 719468) 146097 ltac:(lia)) as B.
  pose proof (Z.div_mod (t / 86400 + 719468) 146097 ltac:(lia)) as DM.
  split; [exact B|]. split; [lia|].
  intros yoe m d doy E. unfold gmtime. rewrite E.
  cbn [tm_year tm_mon tm_mday tm_yday].
  repeat split; try lia.
  destruct (m <=? 2); [reflexivity|].
  replace (yoe + (t / 86400 + 719468) / 146097 * 400 + 0)
    with (yoe + 0 + (t / 86400 + 719468) / 146097 * 400) by ring.
  now rewrite is_leap_era.
Qed.

Ltac split_bools H :=
  repeat match type of H with
         | (_ && _) = true => let H' := fresh H in
                              apply andb_true_iff in H; destruct H as [H H']
         end;
  repeat match goal with
         | G : (_ <=? _) = true |- _ => apply Z.leb_le in G
         | G : (_ <? _) = true |- _ => apply Z.ltb_lt in G
         | G : (_ =? _) = true |- _ => apply Z.eqb_eq in G
         end.

Lemma gmtime_time_of_day (t : Z) :
  0 <= tm_sec (gmtime t) <= 59 /\
  0 <= tm_min (gmtime t) <= 59 /\
  0 <= tm_hour (gmtime t) <= 23 /\
  0 <= tm_wday (gmtime t) <= 6.
Proof.
  pose proof (Z.mod_pos_bound t 86400 ltac:(lia)) as R.
  unfold gmtime. destruct (civil_of_doe _) as [[[? ?] ?] ?].
  cbn [tm_sec tm_min tm_hour tm_wday].
  pose proof (Z.mod_pos_bound (t mod 86400) 60 ltac:(lia)).
  pose proof (Z.mod_pos_bound (t mod 86400 / 60) 60 ltac:(lia)).
  pose proof (Z.mod_pos_bound (t / 86400 + 4) 7 ltac:(lia)).
  assert (0 <= t mod 86400 / 3600) by (apply Z.div_pos; lia).
  assert (t mod 86400 / 3600 < 24) by (apply Z.div_lt_upper_bound; lia).
  lia.
Qed.

Lemma gmtime_date (t : Z) :
  0 <= tm_mon (gmtime t) <= 11 /\
  1 <= tm_mday (gmtime t)
    <= days_in_month (tm_year (gmtime t) + 1900) (tm_mon (gmtime t) + 1) /\
  0 <= tm_yday (gmtime t) <= 365.
Proof.
  destruct (gmtime_fields t) as (B & _ & F). cbv zeta in F.
  pose proof (doe_ok_all _ B) as OK. unfold doe_ok in OK.
  destruct (civil_of_doe ((t / 86400 + 719468) mod 146097)) as [[[yoe m] d] doy].
  destruct (F yoe m d doy eq_refl) as (FY & FM & FD & FYD).
  split_bools OK.
  repeat split; try lia.
  rewrite FD, FY, FM. unfold days_in_month in *. rewrite is_leap_era. exact OK5.
Qed.

Lemma days_in_month_le (y m : Z) : days_in_month y m <= 31.
Proof.
  unfold days_in_month.
  destruct (_ =? 2); [destruct (is_leap _)|destruct (_ || _)]; lia.
Qed.

Lemma gmtime_year_fits (t : Z) :
  - 2 ^ 55 <= t <= 2 ^ 55 -> INT_MIN <= tm_year (gmtime t) <= INT_MAX.
Proof.
  unfold INT_MIN, INT_MAX. intros H.
  destruct (gmtime_fields t) as (B & D & F). cbv zeta in F.
  pose proof (doe_ok_all _ B) as OK. unfold doe_ok in OK.
  destruct (civil_of_doe ((t / 86400 + 719468) mod 146097)) as [[[yoe m] d] doy].
  destruct (F yoe m d doy eq_refl) as (FY & _).
  split_bools OK.
  assert (T : 2 ^ 55 = 36028797018963968) by reflexivity. rewrite T in H.
  assert (Lo : -416999965498 <= t / 86400) by (apply Z.div_le_lower_bound; lia).
  assert (Hi : t / 86400 < 416999965498) by (apply Z.div_lt_upper_bound; lia).
  set (era := (t / 86400 + 719468) / 146097) in *.
  set (doe := (t / 86400 + 719468) mod 146097) in *.
  set (k := yoe + (if m <=? 2 then 1 else 0)) in *.
  assert (K0 : 0 <= k <= 400) by (subst k; destruct (m <=? 2); lia).
  lia.
Qed.

(** X6. Whenever [gmtime_r] succeeds, the year fits its [int] field and
    the other fields are within the ranges of the calendar: seconds and
    minutes 0 to 59, hours 0 to 23, the month 0 to 11, the day from 1 to
    the length of that month in that year, the day of the week 0 to 6
    and the day of the year 0 to 365.  It succeeds for every time within
    [2 ^ 55] seconds of the Epoch. *)
Theorem gmtime_fields_in_range :
  (forall t x,
     gmtime_r t = Some x ->
     INT_MIN <= tm_year x <= INT_MAX /\
     0 <= tm_sec x <= 59 /\
     0 <= tm_min x <= 59 /\
     0 <= tm_hour x <= 23 /\
     0 <= tm_mon x <= 11 /\
     1 <= tm_mday x <= days_in_month (tm_year x + 1900) (tm_mon x + 1) /\
     0 <= tm_wday x <= 6 /\
     0 <= tm_yday x <= 365) /\
  (forall t, - 2 ^ 55 <= t <= 2 ^ 55 -> gmtime_r t = Some (gmtime t)).
Proof.
  split.
  - intros t x G. unfold gmtime_r in G.
    destruct (Z.leb_spec INT_MIN (tm_year (gmtime t)));
      destruct (Z.leb_spec (tm_year (gmtime t)) INT_MAX);
      cbn [andb] in G; try discriminate G.
    injection G as <-.
    destruct (gmtime_time_of_day t) as (S1 & S2 & S3 & S4).
    destruct (gmtime_date t) as (D1 & D2 & D3).
    repeat split; lia.
  - intros t H. unfold gmtime_r.
    destruct (gmtime_year_fits t H) as [Lo Hi].
    apply Z.leb_le in Lo, Hi. now rewrite Lo, Hi.
Qed.

Lemma gmtime_fields_in_range_leap_day :
  gmtime_r 1709210096 =
    Some {| tm_sec := 56; tm_min := 34; tm_hour := 12; tm_mday := 29; tm_mon := 1;
            tm_year := 124; tm_wday := 4; tm_yday := 59; tm_isdst := 0 |} /\
  1 <= 29 <= days_in_month (124 + 1900) (1 + 1).
Proof.
  destruct gmtime_fields_in_range as (R & T).
  assert (G : gmtime_r 1709210096 = Some (gmtime 1709210096)).
  { apply (T 1709210096). vm_compute. split; discriminate. }
  split; [rewrite G; vm_compute; reflexivity|].
  destruct (R 1709210096 _ G) as (_ & _ & _ & _ & _ & D & _). exact D.
Defined.

(** The days before a year, counted as POSIX counts them but rounding the
    divisions down. *)
Lemma gmtime_seconds_floor (t : Z) :
  tm_sec (gmtime t) + tm_min (gmtime t) * 60 + tm_hour (gmtime t) * 3600 +
  tm_yday (gmtime t) * 86400 +
  (tm_year (gmtime t) - 70) * 31536000 + (tm_year (gmtime t) - 69) / 4 * 86400 -
  (tm_year (gmtime t) - 1) / 100 * 86400 + (tm_year (gmtime t) + 299) / 400 * 86400 = t.
Proof.
  destruct (gmtime_fields t) as (B & D & F). cbv zeta in F.
  pose proof (doe_ok_all _ B) as OK. unfold doe_ok in OK.
  destruct (civil_of_doe ((t / 86400 + 719468) mod 146097)) as [[[yoe m] d] doy] eqn:E.
  destruct (F yoe m d doy eq_refl) as (FY & FM & FD & FYD).
  split_bools OK.
  set (era := (t / 86400 + 719468) / 146097) in *.
  set (k := yoe + (if m <=? 2 then 1 else 0)) in *.
  assert (Y : tm_year (gmtime t) = k - 1900 + era * 400) by lia.
  assert (T : tm_sec (gmtime t) + tm_min (gmtime t) * 60 + tm_hour (gmtime t) * 3600
              = t mod 86400).
  { unfold gmtime. rewrite E. cbn [tm_sec tm_min tm_hour].
    pose proof (Z.div_mod (t mod 86400) 60 ltac:(lia)).
    pose proof (Z.div_mod (t mod 86400 / 60) 60 ltac:(lia)).
    assert (t mod 86400 / 60 / 60 = t mod 86400 / 3600)
      by (rewrite Z.div_div by lia; reflexivity).
    lia. }
  rewrite FYD, Y.
  replace ((k - 1900 + era * 400 - 69) / 4) with ((k - 1969) / 4 + era * 100)
    by (replace (k - 1900 + era * 400 - 69) with (k - 1969 + era * 100 * 4) by ring;
        now rewrite Z.div_add by lia).
  replace ((k - 1900 + era * 400 - 1) / 100) with ((k - 1901) / 100 + era * 4)
    by (replace (k - 1900 + era * 400 - 1) with (k - 1901 + era * 4 * 100) by ring;
        now rewrite Z.div_add by lia).
  replace ((k - 1900 + era * 400 + 299) / 400) with ((k - 1601) / 400 + era)
    by (replace (k - 1900 + era * 400 + 299) with (k - 1601 + era * 400) by ring;
        now rewrite Z.div_add by lia).
  pose proof (Z.div_mod t 86400 ltac:(lia)) as TD.
  lia.
Qed.

Lemma year_1970_on (doe : Z) :
  135080 <= doe < 146097 ->
  370 <= (let '(yoe, m, _, _) := civil_of_doe doe in
          yoe + (if m <=? 2 then 1 else 0)).
Proof.
  intros H. apply Z.leb_le.
  apply (forall_range_sound
           (fun doe => 370 <=? (let '(yoe, m, _, _) := civil_of_doe doe in
                                yoe + (if m <=? 2 then 1 else 0)))
           (Z.to_nat 11017) 135080); [vm_compute; reflexivity | lia].
Qed.

Lemma gmtime_year_from_epoch (t : Z) : 0 <= t -> 70 <= tm_year (gmtime t).
Proof.
  intros H.
  destruct (gmtime_fields t) as (B & D & F). cbv zeta in F.
  pose proof (doe_ok_all _ B) as OK. unfold doe_ok in OK.
  pose proof (year_1970_on ((t / 86400 + 719468) mod 146097)) as Y.
  destruct (civil_of_doe ((t / 86400 + 719468) mod 146097)) as [[[yoe m] d] doy].
  destruct (F yoe m d doy eq_refl) as (FY & _).
  split_bools OK.
  assert (Lo : 0 <= t / 86400) by (apply Z.div_pos; lia).
  set (era := (t / 86400 + 719468) / 146097) in *.
  set (doe := (t / 86400 + 719468) mod 146097) in *.
  set (k := yoe + (if m <=? 2 then 1 else 0)) in *.
  assert (K0 : 0 <= k <= 400) by (subst k; destruct (m <=? 2); lia).
  assert (E : 4 <= era) by lia.
  destruct (Z.eq_dec era 4) as [E4|E4]; [|lia].
  specialize (Y ltac:(lia)). lia.
Qed.

(** X7. From the Epoch on, [gmtime_r] is the inverse of the seconds
    since the Epoch as POSIX computes them from a broken-down time: when
    it succeeds on a time [t] that is not negative, the year is 1970 or
    later and the formula applied to the fields gives back [t]. *)
Theorem gmtime_seconds_since_epoch (t : Z) (x : tm) :
  0 <= t -> gmtime_r t = Some x ->
  70 <= tm_year x /\ seconds_since_epoch x = t.
Proof.
  intros H G. unfold gmtime_r in G.
  destruct ((INT_MIN <=? tm_year (gmtime t)) && (tm_year (gmtime t) <=? INT_MAX));
    [|discriminate G].
  injection G as <-.
  pose proof (gmtime_year_from_epoch t H) as Y.
  split; [exact Y|].
  unfold seconds_since_epoch.
  rewrite !Z.quot_div_nonneg by lia.
  apply gmtime_seconds_floor.
Qed.

Lemma gmtime_seconds_since_epoch_leap_day :
  70 <= tm_year (gmtime 1709210096) /\
  seconds_since_epoch (gmtime 1709210096) = 1709210096.
Proof.
  apply (gmtime_seconds_since_epoch 1709210096 (gmtime 1709210096)).
  - vm_compute. discriminate.
  - vm_compute. reflexivity.
Defined.


Lemma digits_of_b_spec (n : nat) (v : Z) (s : string) :
  digits_of_b n v s = true -> digits_of n v s.
Proof.
  unfold digits_of_b, digits_of. rewrite !andb_true_iff.
  intros [[L A] V]. apply Nat.eqb_eq in L. apply Z.eqb_eq in V. auto.
Qed.

Lemma pad2_digits (n : Z) : 0 <= n <= 99 -> digits_of 2 n (pad2 n).
Proof.
  intros H. apply digits_of_b_spec.
  apply (forall_range_sound (fun n => digits_of_b 2 n (pad2 n)) 100 0);
    [vm_compute; reflexivity | lia].
Qed.

Lemma year_digits (y : Z) : 1000 <= y <= 9999 -> digits_of 4 y (printf_ld y).
Proof.
  intros H. apply digits_of_b_spec.
  apply (forall_range_sound (fun y => digits_of_b 4 y (printf_ld y))
           (Z.to_nat 9000) 1000); [vm_compute; reflexivity | lia].
Qed.

Lemma follows_pattern_app (p1 p2 : string) :
  forall s1 s2,
    follows_pattern p1 s1 = true -> follows_pattern p2 s2 = true ->
    follows_pattern (p1 ++ p2) (s1 ++ s2) = true.
Proof.
  induction p1 as [|a p1 IH]; intros s1 s2 H1 H2.
  - destruct s1; [exact H2 | discriminate H1].
  - destruct s1 as [|c s1]; [discriminate H1|].
    cbn [follows_pattern append] in *.
    apply andb_true_iff in H1. destruct H1 as [Hc H1].
    rewrite Hc. now apply IH.
Qed.

Lemma follows_pattern_digits (n : nat) (v : Z) (s : string) :
  digits_of n v s -> follows_pattern (digits_pattern n) s = true.
Proof.
  intros (L & A & _). subst n.
  induction s as [|c s IH]; [reflexivity|].
  cbn [all_digits] in A. apply andb_true_iff in A. destruct A as [C A].
  cbn [String.length digits_pattern follows_pattern].
  change (is_char 100 (ascii_of_nat 100)) with true. cbv iota.
  rewrite C. now apply IH.
Qed.

(** In the years of four digits, the year that [gmtime] finds has four
    digits. *)
Lemma gmtime_year_range (t : Z) :
  year_1000 <= t < year_10000 -> 1000 <= tm_year (gmtime t) + 1900 <= 9999.
Proof.
  unfold year_1000, year_10000. intros H.
  destruct (gmtime_fields t) as (B & D & F). cbv zeta in F.
  pose proof (doe_ok_all _ B) as OK. unfold doe_ok in OK.
  destruct (civil_of_doe ((t / 86400 + 719468) mod 146097)) as [[[yoe m] d] doy].
  destruct (F yoe m d doy eq_refl) as (FY & _).
  split_bools OK.
  assert (Lo : -354285 <= t / 86400) by (apply Z.div_le_lower_bound; lia).
  assert (Hi : t / 86400 < 2932897) by (apply Z.div_lt_upper_bound; lia).
  set (era := (t / 86400 + 719468) / 146097) in *.
  set (doe := (t / 86400 + 719468) mod 146097) in *.
  set (k := yoe + (if m <=? 2 then 1 else 0)) in *.
  assert (K0 : 0 <= k <= 400) by (subst k; destruct (m <=? 2); lia).
  apply orb_true_iff in OK1, OK0.
  rewrite Z.ltb_lt, Z.leb_le in OK1, OK0.
  lia.
Qed.

Lemma iso8601_text_shape_lemma (t : Z) :
  year_1000 <= t < year_10000 ->
  strftime 32 (gmtime t) = Some (iso8601_text (gmtime t)) /\
  String.length (iso8601_text (gmtime t)) = 20%nat.
Proof.
  intros H.
  pose proof (gmtime_year_range t H) as RY.
  destruct (gmtime_time_of_day t) as (Rs & Rm & Rh & _).
  destruct (gmtime_date t) as (Rmo & Rd & _).
  pose proof (days_in_month_le (tm_year (gmtime t) + 1900) (tm_mon (gmtime t) + 1)).
  assert (L : String.length (iso8601_text (gmtime t)) = 20%nat).
  { unfold iso8601_text. rewrite !length_append.
    destruct (year_digits _ RY) as (-> & _).
    destruct (pad2_digits (tm_mon (gmtime t) + 1) ltac:(lia)) as (-> & _).
    destruct (pad2_digits (tm_mday (gmtime t)) ltac:(lia)) as (-> & _).
    destruct (pad2_digits (tm_hour (gmtime t)) ltac:(lia)) as (-> & _).
    destruct (pad2_digits (tm_min (gmtime t)) ltac:(lia)) as (-> & _).
    destruct (pad2_digits (tm_sec (gmtime t)) ltac:(lia)) as (-> & _).
    reflexivity. }
  split; [|exact L]. unfold strftime. rewrite L. reflexivity.
Qed.

(** X8. When the clock reads a time in the years 1000 to 9999, the text
    of [current_time_iso8601] is twenty characters of the pattern
    dddd-dd-ddTdd:dd:ddZ, it fits the 32-byte buffer, and its groups of
    digits read as the year, the month (1 to 12), the day, the hour, the
    minute and the second of that time. *)
Theorem iso8601_text_shape (t : Z) :
  year_1000 <= t < year_10000 ->
  strftime 32 (gmtime t) = Some (iso8601_text (gmtime t)) /\
  String.length (iso8601_text (gmtime t)) = 20%nat /\
  follows_pattern "dddd-dd-ddTdd:dd:ddZ" (iso8601_text (gmtime t)) = true /\
  exists Y M D h m s,
    iso8601_text (gmtime t) =
      Y ++ "-" ++ M ++ "-" ++ D ++ "T" ++ h ++ ":" ++ m ++ ":" ++ s ++ "Z" /\
    digits_of 4 (tm_year (gmtime t) + 1900) Y /\
    digits_of 2 (tm_mon (gmtime t) + 1) M /\
    digits_of 2 (tm_mday (gmtime t)) D /\
    digits_of 2 (tm_hour (gmtime t)) h /\
    digits_of 2 (tm_min (gmtime t)) m /\
    digits_of 2 (tm_sec (gmtime t)) s.
Proof.
  intros H.
  pose proof (gmtime_year_range t H) as RY.
  destruct (gmtime_time_of_day t) as (Rs & Rm & Rh & _).
  destruct (gmtime_date t) as (Rmo & Rd & _).
  pose proof (days_in_month_le (tm_year (gmtime t) + 1900) (tm_mon (gmtime t) + 1)).
  pose proof (year_digits _ RY) as DY.
  pose proof (pad2_digits (tm_mon (gmtime t) + 1) ltac:(lia)) as DM.
  pose proof (pad2_digits (tm_mday (gmtime t)) ltac:(lia)) as DD.
  pose proof (pad2_digits (tm_hour (gmtime t)) ltac:(lia)) as Dh.
  pose proof (pad2_digits (tm_min (gmtime t)) ltac:(lia)) as Dm.
  pose proof (pad2_digits (tm_sec (gmtime t)) ltac:(lia)) as Ds.
  destruct (iso8601_text_shape_lemma t H) as (S & L).
  split; [exact S|]. split; [exact L|]. split.
  - unfold iso8601_text.
    change "dddd-dd-ddTdd:dd:ddZ"
      with (digits_pattern 4 ++ "-" ++ digits_pattern 2 ++ "-" ++ digits_pattern 2 ++
            "T" ++ digits_pattern 2 ++ ":" ++ digits_pattern 2 ++ ":" ++
            digits_pattern 2 ++ "Z").
    repeat (apply follows_pattern_app;
            [first [eapply follows_pattern_digits; eassumption | reflexivity]|]).
    reflexivity.
  - exists (printf_ld (tm_year (gmtime t) + 1900)), (pad2 (tm_mon (gmtime t) + 1)),
      (pad2 (tm_mday (gmtime t))), (pad2 (tm_hour (gmtime t))),
      (pad2 (tm_min (gmtime t))), (pad2 (tm_sec (gmtime t))).
    repeat split; assumption || apply DY || apply DM || apply DD || apply Dh
      || apply Dm || apply Ds.
Qed.

Lemma iso8601_text_shape_2024 :
  strftime 32 (gmtime 1709210096) = Some "2024-02-29T12:34:56Z" /\
  String.length (iso8601_text (gmtime 1709210096)) = 20%nat.
Proof.
  destruct (iso8601_text_shape 1709210096) as (S & L & _).
  - unfold year_1000, year_10000. lia.
  - split; [exact S | exact L].
Defined.

(** ** The input reader at its edges *)

(** X1. Without an argument and with nothing to read on standard input,
    the run prints the prompt, asks for a line, writes the no-input line
    to standard error and exits with status 1; no transfer is attempted,
    whatever the rest of the world. *)
Theorem no_input_reported (w : World) :
  argc w < 2 -> w_stdin w = "" ->
  main w = ([Stdout prompt; Fgets; Stderr ("No input" ++ nl)], 1) /\
  performs (fst (main w)) = 0%nat.
Proof.
  intros A E.
  assert (I : input_text w = None).
  { unfold input_text. destruct (Z.leb_spec 2 (argc w)); [lia|]. now rewrite E. }
  assert (P : prompt_events w = [Stdout prompt; Fgets]).
  { unfold prompt_events. destruct (Z.leb_spec 2 (argc w)); [lia | reflexivity]. }
  assert (M : main w = ([Stdout prompt; Fgets; Stderr ("No input" ++ nl)], 1)).
  { rewrite main_eq, I, P. reflexivity. }
  split; [exact M|]. rewrite M. reflexivity.
Qed.

Lemma no_input_reported_silent :
  main world_silent = ([Stdout prompt; Fgets; Stderr ("No input" ++ nl)], 1) /\
  performs (fst (main world_silent)) = 0%nat.
Proof.
  apply (no_input_reported world_silent).
  - vm_compute. reflexivity.
  - reflexivity.
Defined.

Lemma fgets_chars_length (n : nat) :
  forall s, (String.length (fgets_chars n s) <= n)%nat.
Proof.
  induction n as [|n IH]; intros s; [destruct s; simpl; lia|].
  destruct s as [|c s]; [simpl; lia|].
  cbn [fgets_chars]. destruct (is_char 10 c); cbn [String.length].
  - lia.
  - specialize (IH s). lia.
Qed.

Lemma fgets_chars_prefix (n : nat) :
  forall s, exists rest, s = fgets_chars n s ++ rest.
Proof.
  induction n as [|n IH]; intros s; [exists s; now destruct s|].
  destruct s as [|c s]; [now exists ""|].
  cbn [fgets_chars]. destruct (is_char 10 c).
  - now exists s.
  - destruct (IH s) as [rest E]. exists rest. cbn [append]. now rewrite <- E.
Qed.

Lemma fgets_chars_one_line (n : nat) :
  forall s,
    no_newline (fgets_chars n s) = true \/
    exists a, fgets_chars n s = a ++ nl /\ no_newline a = true.
Proof.
  induction n as [|n IH]; intros s; [left; now destruct s|].
  destruct s as [|c s]; [now left|].
  cbn [fgets_chars]. destruct (is_char 10 c) eqn:C.
  - right. exists "". split; [|reflexivity].
    unfold nl. cbn [append]. f_equal.
    unfold is_char, code in C. apply Nat.eqb_eq in C.
    rewrite <- (ascii_nat_embedding c), C. reflexivity.
  - destruct (IH s) as [N|(a & E & N)].
    + left. cbn [no_newline]. now rewrite C, N.
    + right. exists (String c a). split.
      * cbn [append]. now rewrite E.
      * cbn [no_newline]. now rewrite C, N.
Qed.

Lemma fgets_chars_full (a rest : string) :
  forall n, no_newline a = true -> String.length a = n ->
    fgets_chars n (a ++ rest) = a.
Proof.
  induction a as [|x a IH]; intros n N L.
  - subst n. now destruct rest.
  - cbn [no_newline] in N. apply andb_true_iff in N. destruct N as [X N].
    apply negb_true_iff in X. cbn [String.length] in L. subst n.
    cbn [append fgets_chars]. rewrite X. f_equal. now apply IH.
Qed.

(** X4. What is parsed from standard input never overruns the 64-byte
    buffer: it is a non-empty prefix of the input of at most 63
    characters, holding no newline except possibly as its last character.
    Once [fgets] has its line, or its 63 characters, what follows on
    standard input has no effect on the run. *)
Theorem stdin_line_is_bounded :
  (forall w s,
     argc w < 2 -> input_text w = Some s ->
     s <> "" /\ (String.length s <= 63)%nat /\
     (exists rest, w_stdin w = s ++ rest) /\
     (no_newline s = true \/ exists a, s = a ++ nl /\ no_newline a = true)) /\
  (forall w argv a r1 r2,
     Z.of_nat (List.length argv) < 2 ->
     (no_newline a = true /\ String.length a = 63%nat) \/
     (exists b, a = b ++ nl /\ no_newline b = true /\ (String.length b <= 62)%nat) ->
     main (with_input w argv (a ++ r1)) = main (with_input w argv (a ++ r2))).
Proof.
  split.
  - intros w s A I. unfold input_text in I.
    destruct (Z.leb_spec 2 (argc w)); [lia|].
    pose proof (fgets_chars_length 63 (w_stdin w)) as L.
    pose proof (fgets_chars_prefix 63 (w_stdin w)) as P.
    pose proof (fgets_chars_one_line 63 (w_stdin w)) as O.
    assert (N : w_stdin w <> "" -> fgets_chars 63 (w_stdin w) <> "").
    { destruct (w_stdin w) as [|c r]; [congruence|]. intros _.
      cbn [fgets_chars]. destruct (is_char 10 c); discriminate. }
    assert (S : w_stdin w <> "" /\ s = fgets_chars 63 (w_stdin w)).
    { destruct (w_stdin w); [discriminate I|]. split; congruence. }
    destruct S as [S ->]. auto.
  - intros w argv a r1 r2 A H.
    assert (F : forall r, input_text (with_input w argv (a ++ r)) = Some a).
    { intros r. unfold input_text, argc. cbn [w_argv w_stdin with_input].
      destruct (Z.leb_spec 2 (Z.of_nat (List.length argv))); [lia|].
      assert (G : fgets_chars 63 (a ++ r) = a).
      { destruct H as [[N L]|(b & -> & N & L)].
        - now apply fgets_chars_full.
        - rewrite append_assoc. apply fgets_chars_line; [assumption | lia]. }
      rewrite G.
      destruct (a ++ r) eqn:E; [|reflexivity].
      destruct a; [|discriminate E].
      destruct H as [[_ L]|(b & E' & _)]; [discriminate L|].
      destruct b; discriminate E'. }
    assert (P : forall r, prompt_events (with_input w argv (a ++ r)) = [Stdout prompt; Fgets]).
    { intros r. unfold prompt_events, argc. cbn [w_argv with_input].
      destruct (Z.leb_spec 2 (Z.of_nat (List.length argv))); [lia | reflexivity]. }
    now rewrite !main_eq, !F, !P, !after_read_with_input.
Qed.

Lemma stdin_line_is_bounded_examples :
  (String.length ("37.2" ++ nl) <= 63)%nat /\
  main (with_input world_silent ["fhir_upload"] (("37.2" ++ nl) ++ "41.0")) =
  main (with_input world_silent ["fhir_upload"] (("37.2" ++ nl) ++ "")).
Proof.
  destruct stdin_line_is_bounded as (B & I).
  split.
  - apply (B (with_input world_silent ["fhir_upload"] ("37.2" ++ nl ++ "41.0"))
             ("37.2" ++ nl)).
    + vm_compute. reflexivity.
    + reflexivity.
  - apply (I world_silent ["fhir_upload"] ("37.2" ++ nl) "41.0" "").
    + vm_compute. reflexivity.
    + right. exists "37.2". repeat split. simpl. lia.
Defined.

(** ** Exit status, standard error, and what is sent *)

Lemma stderr_lines_app (t u : list event) :
  stderr_lines (t ++ u) = (stderr_lines t + stderr_lines u)%nat.
Proof.
  induction t as [|e t IH]; [reflexivity|].
  destruct e; simpl; rewrite IH; reflexivity.
Qed.

Lemma stderr_lines_prompt_events (w : World) : stderr_lines (prompt_events w) = 0%nat.
Proof. unfold prompt_events. destruct (2 <=? argc w); reflexivity. Qed.

(** X2. [main] returns 0 or 1, and 0 only for an upload the server
    accepted: exactly when a transfer was attempted, libcurl reported
    success and the status code is in [200, 300). *)
Theorem exit_status_zero_iff_accepted (w : World) :
  (snd (main w) = 0 \/ snd (main w) = 1) /\
  (snd (main w) = 0 <->
     (exists rq, In (Perform rq) (fst (main w))) /\
     w_res w = CURLE_OK /\ 200 <= w_http_code w < 300).
Proof.
  assert (A : forall rq, In (Perform rq) (fst (main w)) ->
    snd (main w) =
      if negb (w_res w =? CURLE_OK) then 1
      else if is_2xx (w_http_code w) then 0 else 1).
  { intros rq H. rewrite (main_after_perform w rq H).
    destruct (negb (w_res w =? CURLE_OK)); reflexivity. }
  assert (B : (forall rq, ~ In (Perform rq) (fst (main w))) -> snd (main w) = 1).
  { intros N. rewrite main_eq in *. destruct (input_text w) as [s|]; [|reflexivity].
    cbn [fst snd] in *. unfold after_read in *.
    destruct (negb (isfinite (atof s))); [reflexivity|].
    destruct (_ >=? _); [reflexivity|].
    destruct (negb (w_curl_init w)); [reflexivity|].
    exfalso. apply (N (post_request (payload w (atof s)))).
    apply in_or_app. right.
    destruct (negb (w_res w =? CURLE_OK)); [|destruct (is_2xx (w_http_code w))];
      simpl; auto. }
  assert (C : (exists rq, In (Perform rq) (fst (main w))) \/
              (forall rq, ~ In (Perform rq) (fst (main w)))).
  { destruct (performs (fst (main w))) eqn:P.
    - right. intros rq H. destruct (perform_inv w rq H) as (s & I & F & L & Cu & _).
      rewrite main_eq, I in P. cbn [fst] in P.
      rewrite performs_app, performs_prompt_events, performs_after_read in P.
      rewrite F, Cu in P. unfold fits in L.
      destruct (Z.ltb_spec (Z.of_nat (String.length (payload w (atof s)))) json_size);
        [discriminate P | lia].
    - left. rewrite main_eq in *. destruct (input_text w) as [s|]; cbn [fst] in *.
      + rewrite performs_app, performs_prompt_events, performs_after_read in P.
        exists (post_request (payload w (atof s))). apply in_or_app. right.
        unfold after_read. rewrite Z.geb_leb.
        destruct (isfinite (atof s)); [|discriminate P].
        rewrite Z.ltb_antisym in P.
        destruct (json_size <=? _); [discriminate P|].
        destruct (w_curl_init w); [|discriminate P]. cbn [negb].
        destruct (negb (w_res w =? CURLE_OK)); [|destruct (is_2xx (w_http_code w))];
          simpl; auto.
      + rewrite performs_app, performs_prompt_events in P. discriminate P. }
  unfold is_2xx in A.
  split.
  - destruct C as [[rq H]|N].
    + rewrite (A rq H). destruct (negb _); [|destruct (_ && _)]; auto.
    + right. now apply B.
  - split.
    + intros Z0. destruct C as [[rq H]|N]; [|rewrite (B N) in Z0; discriminate Z0].
      rewrite (A rq H) in Z0.
      destruct (Z.eqb_spec (w_res w) CURLE_OK) as [R|R]; cbn [negb] in Z0;
        [|discriminate Z0].
      destruct (Z.leb_spec 200 (w_http_code w)); destruct (Z.ltb_spec (w_http_code w) 300);
        cbn [andb] in Z0; try discriminate Z0.
      split; [now exists rq|]. split; [assumption | lia].
    + intros ([rq H] & R & Lo & Hi). rewrite (A rq H), R.
      cbn [Z.eqb CURLE_OK negb].
      destruct (Z.leb_spec 200 (w_http_code w)); destruct (Z.ltb_spec (w_http_code w) 300);
        cbn [andb]; lia || reflexivity.
Qed.

(** X5. A run writes at most one line to standard error.  It writes none
    exactly when libcurl delivered a response: a rejection by the server
    is reported on standard output only, every other failure on standard
    error only. *)
Theorem one_diagnostic_per_failure (w : World) :
  (stderr_lines (fst (main w)) <= 1)%nat /\
  (stderr_lines (fst (main w)) = 0%nat <->
     (exists rq, In (Perform rq) (fst (main w))) /\ w_res w = CURLE_OK).
Proof.
  assert (E : stderr_lines (fst (main w)) =
    match input_text w with
    | Some s =>
        if isfinite (atof s)
           && (Z.of_nat (String.length (payload w (atof s))) <? json_size)
           && w_curl_init w && (w_res w =? CURLE_OK)
        then 0%nat else 1%nat
    | None => 1%nat
    end).
  { rewrite main_eq. destruct (input_text w) as [s|]; cbn [fst];
      rewrite stderr_lines_app, stderr_lines_prompt_events; [|reflexivity].
    unfold after_read. rewrite Z.geb_leb, Z.ltb_antisym.
    destruct (isfinite (atof s)); [|reflexivity].
    destruct (json_size <=? _); [reflexivity|].
    destruct (w_curl_init w); [|reflexivity].
    destruct (w_res w =? CURLE_OK); [|reflexivity].
    destruct (is_2xx (w_http_code w)); reflexivity. }
  split.
  - rewrite E. destruct (input_text w); [destruct (_ && _)|]; lia.
  - rewrite E. split.
    + destruct (input_text w) as [s|] eqn:I; [|discriminate].
      destruct (isfinite (atof s)) eqn:F; [|discriminate].
      destruct (Z.ltb_spec (Z.of_nat (String.length (payload w (atof s)))) json_size);
        [|discriminate].
      destruct (w_curl_init w) eqn:C; [|discriminate].
      destruct (Z.eqb_spec (w_res w) CURLE_OK) as [R|R]; [|discriminate].
      intros _. split; [|exact R].
      exists (post_request (payload w (atof s))).
      rewrite main_eq, I. cbn [fst]. apply in_or_app. right.
      unfold after_read. rewrite F, C, R. cbn [negb Z.eqb CURLE_OK].
      destruct (Z.geb_spec (Z.of_nat (String.length (payload w (atof s)))) json_size);
        [lia|].
      destruct (is_2xx (w_http_code w)); simpl; auto.
    + intros ([rq H] & R).
      destruct (perform_inv w rq H) as (s & I & F & L & C & _).
      rewrite I, F, C, R. unfold fits in L.
      destruct (Z.ltb_spec (Z.of_nat (String.length (payload w (atof s)))) json_size);
        [reflexivity | lia].
Qed.

Lemma value_shape (v : double) :
  isfinite v = true ->
  exists ip fp,
    printf_2f v = sign_text (signbit v) ++ ip ++ "." ++ fp /\
    ip <> "" /\ all_digits ip = true /\
    all_digits fp = true /\ String.length fp = 2%nat /\
    nearest_hundredths v (digits_value 0 (ip ++ fp)).
Proof.
  intros F. destruct v as [s|s| |s m e]; try discriminate F.
  - destruct (fixed2_shape 0 ltac:(lia)) as (ip & fp & E & P1 & P2 & P3 & P4 & P5).
    exists ip, fp. cbn [printf_2f signbit nearest_hundredths].
    rewrite E. auto 10.
  - destruct (fixed2_shape _ (hundredths_nonneg m e))
      as (ip & fp & E & P1 & P2 & P3 & P4 & P5).
    exists ip, fp. cbn [printf_2f signbit].
    rewrite E, P5. auto 10 using hundredths_nearest.
Qed.

(** X3. Every transfer goes to the same place in the same way: the fixed
    URL, the two FHIR headers in their order, the fixed user agent and CA
    bundle.  The size announced is the length of the document, which is
    never cut: it is at least 547 and less than 2048 bytes. *)
Theorem every_request_is_the_fixed_post (w : World) (rq : request) :
  In (Perform rq) (fst (main w)) ->
  rq_url rq = "https://hapi.fhir.org/baseR4/Observation" /\
  rq_headers rq = ["Content-Type: application/fhir+json;charset=utf-8";
                   "Accept: application/fhir+json"] /\
  rq_useragent rq = "fhir-c-uploader/1.0" /\
  rq_cainfo rq = "curl-ca-bundle.crt" /\
  rq_postfieldsize rq = Z.of_nat (String.length (rq_postfields rq)) /\
  547 <= rq_postfieldsize rq < 2048.
Proof.
  intros H. destruct (perform_inv w rq H) as (s & _ & F & L & _ & ->).
  cbn [rq_url rq_headers rq_useragent rq_cainfo rq_postfieldsize rq_postfields
       post_request].
  repeat split; try assumption.
  unfold payload. rewrite json_text_length.
  assert (4 <= String.length (printf_2f (atof s)))%nat; [|lia].
  destruct (value_shape (atof s) F) as (ip & fp & E & N & _ & _ & L2 & _).
  rewrite E, !length_append, L2. cbn [String.length].
  apply nonempty_length in N. lia.
Qed.

Lemma every_request_is_the_fixed_post_leap_day :
  rq_url (post_request (payload world_leap_day (atof "36.6"))) =
    "https://hapi.fhir.org/baseR4/Observation" /\
  rq_postfieldsize (post_request (payload world_leap_day (atof "36.6"))) = 568.
Proof.
  destruct (every_request_is_the_fixed_post world_leap_day
              (post_request (payload world_leap_day (atof "36.6"))))
    as (U & _ & _ & _ & S & _).
  - vm_compute. right. left. reflexivity.
  - split; [exact U|]. rewrite S. vm_compute. reflexivity.
Defined.

(** ** The document, with the clock *)

(** X9. When the clock reads a time in the years 1000 to 9999, no
    temperature text leads to the too-long guard, and every document
    posted is, in full: the fixed members, the effectiveDateTime member
    with the twenty-character stamp of that time, and the valueQuantity
    object whose value is the [%.2f] text of a finite temperature.  Its
    size is between 567 and 876 bytes. *)
Theorem document_with_clock (w : World) (t : Z) :
  clock_reads w t -> year_1000 <= t < year_10000 ->
  w_iso_time w = iso8601_text (gmtime t) /\
  (forall s, input_text w = Some s -> fits (payload w (atof s))) /\
  (forall rq, In (Perform rq) (fst (main w)) ->
     exists v,
       isfinite v = true /\
       rq_postfields rq =
         fixed_members ++
         "  " ++ member "effectiveDateTime" (iso8601_text (gmtime t)) ++ "," ++ nl ++
         "  " ++ js "valueQuantity" ++ ": { " ++ js "value" ++ ": " ++ printf_2f v ++
         ", " ++ member "unit" "degrees C" ++
         ", " ++ member "system" "http://unitsofmeasure.org" ++
         ", " ++ member "code" "Cel" ++ " }" ++ nl ++
         "}" ++ nl /\
       567 <= rq_postfieldsize rq <= 876).
Proof.
  intros C R. destruct (iso8601_text_shape_lemma t R) as (S & L).
  unfold clock_reads in C. rewrite S in C. injection C as C.
  split; [now symmetry|]. split.
  - intros s _. apply payload_fits; [apply atof_in_range|]. rewrite <- C, L. lia.
  - intros rq H. destruct (perform_inv w rq H) as (s & _ & F & _ & _ & ->).
    exists (atof s). split; [exact F|]. split.
    + cbn [rq_postfields post_request]. unfold payload, json_text, current_time_iso8601.
      rewrite <- C.
      change fixed_members with (fmt_1 ++ PATIENT_ID ++ dq ++ " }," ++ nl).
      unfold fmt_2, fmt_3, fmt_4, member, js.
      repeat rewrite append_assoc. reflexivity.
    + cbn [rq_postfieldsize post_request]. unfold payload, current_time_iso8601.
      rewrite json_text_length, <- C, L.
      pose proof (printf_2f_length (atof s) (atof_in_range s)).
      destruct (value_shape (atof s) F) as (ip & fp & E & N & _ & _ & L2 & _).
      assert (4 <= String.length (printf_2f (atof s)))%nat; [|lia].
      rewrite E, !length_append, L2. cbn [String.length].
      apply nonempty_length in N. lia.
Qed.

Lemma document_with_clock_leap_day :
  w_iso_time world_leap_day = iso8601_text (gmtime 1709210096) /\
  fits (payload world_leap_day (atof "36.6")).
Proof.
  destruct (document_with_clock world_leap_day 1709210096) as (E & F & _).
  - vm_compute. reflexivity.
  - unfold year_1000, year_10000. lia.
  - split; [exact E|]. apply (F "36.6"). reflexivity.
Defined.

(** ** More of [atof] and [printf] *)

Lemma binary_round_aux_opp (m e : Z) (l : location) :
  binary_round_aux prec64 emax64 true m e l =
  SFopp (binary_round_aux prec64 emax64 false m e l).
Proof.
  unfold binary_round_aux.
  destruct (shr_fexp prec64 emax64 m e l) as [mrs' e'].
  destruct (shr_fexp prec64 emax64 _ e' loc_Exact) as [mrs'' e''].
  destruct (shr_m mrs''); [reflexivity| |reflexivity].
  destruct (e'' <=? emax64 - prec64); reflexivity.
Qed.

Lemma scaled_opp (m base e : Z) :
  scaled true m base e = SFopp (scaled false m base e).
Proof.
  unfold scaled, round_ratio.
  destruct (0 <=? e).
  - destruct (_ =? 0); [reflexivity|].
    destruct (SFdiv_core_binary _ _ _ _ _ _) as [[q e'] l]. apply binary_round_aux_opp.
  - destruct (_ =? 0); [reflexivity|].
    destruct (SFdiv_core_binary _ _ _ _ _ _) as [[q e'] l]. apply binary_round_aux_opp.
Qed.

Lemma binary_round_aux_positive (m e : Z) (l : location) :
  signbit (binary_round_aux prec64 emax64 false m e l) = false.
Proof.
  unfold binary_round_aux.
  destruct (shr_fexp prec64 emax64 m e l) as [mrs' e'].
  destruct (shr_fexp prec64 emax64 _ e' loc_Exact) as [mrs'' e''].
  destruct (shr_m mrs''); [reflexivity| |reflexivity].
  destruct (e'' <=? emax64 - prec64); reflexivity.
Qed.

Lemma scaled_positive (m base e : Z) : signbit (scaled false m base e) = false.
Proof.
  unfold scaled, round_ratio.
  destruct (0 <=? e).
  - destruct (_ =? 0); [reflexivity|].
    destruct (SFdiv_core_binary _ _ _ _ _ _) as [[q e'] l].
    apply binary_round_aux_positive.
  - destruct (_ =? 0); [reflexivity|].
    destruct (SFdiv_core_binary _ _ _ _ _ _) as [[q e'] l].
    apply binary_round_aux_positive.
Qed.

Lemma scan_count (b : radix) (s : string) :
  forall acc k, k <= snd (fst (scan b acc k s)).
Proof.
  induction s as [|c s IH]; intros acc k; [simpl; lia|].
  cbn [scan]. destruct (in_radix b c); [|simpl; lia].
  specialize (IH (radix_base b * acc + radix_val b c) (k + 1)). lia.
Qed.

(** A text that starts with a digit, or with a point and a digit, has a
    mantissa. *)
Lemma mantissa_found (t : string) :
  match t with
  | "" => false
  | String c r =>
      is_digit c ||
      (is_char 46 c && match r with String d _ => is_digit d | "" => false end)
  end = true ->
  mantissa Dec t <> None.
Proof.
  destruct t as [|c r]; [discriminate|]. intros H.
  unfold mantissa. cbn [scan in_radix].
  destruct (is_digit c) eqn:D.
  - pose proof (scan_count Dec r (radix_base Dec * 0 + radix_val Dec c) (0 + 1)) as N.
    destruct (scan Dec _ (0 + 1) r) as [[ip ni] r1]. cbn [fst snd] in N.
    destruct r1 as [|x r2].
    + destruct (Z.eqb_spec ni 0); [lia | discriminate].
    + destruct (is_char 46 x).
      * pose proof (scan_count Dec r2 ip 0) as N2.
        destruct (scan Dec ip 0 r2) as [[m nf] r3]. cbn [fst snd] in N2.
        destruct (Z.eqb_spec (ni + nf) 0); [lia | discriminate].
      * destruct (Z.eqb_spec ni 0); [lia | discriminate].
  - cbn [orb] in H. apply andb_true_iff in H. destruct H as [P H]. rewrite P.
    destruct r as [|d r']; [discriminate H|].
    cbn [scan in_radix]. rewrite H.
    pose proof (scan_count Dec r' (radix_base Dec * 0 + radix_val Dec d) (0 + 1)) as N.
    destruct (scan Dec _ (0 + 1) r') as [[m nf] r3]. cbn [fst snd] in N.
    destruct (Z.eqb_spec (0 + nf) 0); [lia | discriminate].
Qed.

Lemma constant_opp (t : string) :
  numeric_start t = true ->
  constant true t = SFopp (constant false t) /\
  (constant false t = S754_nan \/ signbit (constant false t) = false).
Proof.
  intros N. unfold constant.
  assert (H : hex_constant true t = option_map SFopp (hex_constant false t) /\
              forall x, hex_constant false t = Some x -> signbit x = false).
  { unfold hex_constant. destruct t as [|c0 [|c1 r]]; try (split; [reflexivity|discriminate]).
    destruct (_ && _); [|split; [reflexivity|discriminate]].
    destruct (mantissa Hex r) as [[[m nf] r']|]; [|split; [reflexivity|discriminate]].
    cbn [option_map]. split; [now rewrite scaled_opp|].
    intros x E. injection E as <-. apply scaled_positive. }
  destruct H as [H1 H2]. rewrite H1.
  destruct (hex_constant false t) as [x|]; cbn [option_map]; [split; auto|].
  unfold decimal_constant.
  destruct (mantissa Dec t) as [[[m nf] r]|] eqn:M.
  { split; [apply scaled_opp | right; apply scaled_positive]. }
  unfold special_constant.
  destruct (prefix_nocase "inf" t) eqn:I; [split; [reflexivity | now right]|].
  destruct (prefix_nocase "nan" t) eqn:A; [split; [reflexivity | now left]|].
  exfalso. destruct t as [|c r]; [discriminate N|].
  cbn [numeric_start] in N. rewrite I, A, !orb_false_r in N.
  now apply (mantissa_found (String c r)) in N.
Qed.

Lemma numeric_start_head (t : string) :
  numeric_start t = true ->
  head_ok (fun c => negb (isspace c)) t = true /\
  head_ok (fun c => negb (is_char 45 c) && negb (is_char 43 c)) t = true.
Proof.
  destruct t as [|c r]; [discriminate|].
  cbn [numeric_start head_ok prefix_nocase]. intros H.
  pose proof (forall_ascii
    (fun c => implb (is_digit c || is_char 46 c ||
                     (code (ascii_of_nat 105) =? code (tolower c))%nat ||
                     (code (ascii_of_nat 110) =? code (tolower c))%nat)
                    (negb (isspace c) && negb (is_char 45 c) && negb (is_char 43 c)))
    ltac:(vm_compute; reflexivity) c) as F.
  cbv beta in F.
  assert (G : is_digit c || is_char 46 c ||
              (code (ascii_of_nat 105) =? code (tolower c))%nat ||
              (code (ascii_of_nat 110) =? code (tolower c))%nat = true).
  { change (code "i") with (code (ascii_of_nat 105)) in H.
    change (code "n") with (code (ascii_of_nat 110)) in H.
    destruct (is_digit c); [reflexivity|].
    destruct (is_char 46 c); [reflexivity|].
    cbn [orb andb] in H |- *.
    destruct (code (ascii_of_nat 105) =? code (tolower c))%nat; [reflexivity|].
    cbn [andb orb] in H |- *.
    destruct (code (ascii_of_nat 110) =? code (tolower c))%nat; [reflexivity|].
    discriminate H. }
  rewrite G in F. cbn [implb] in F.
  rewrite !andb_true_iff in F. destruct F as [[F1 F2] F3].
  now rewrite F1, F2, F3.
Qed.

(** X10. A sign in front of a number only sets its sign.  For a text [t]
    that starts like a number, after any white space: a minus sign gives
    the opposite of the value without it, a plus sign changes nothing,
    and when that value is finite the [%.2f] text of the negated one is
    the same text with a minus sign in front. *)
Theorem sign_only_sets_the_sign (ws t : string) :
  all_space ws = true -> numeric_start t = true ->
  atof (ws ++ "-" ++ t) = SFopp (atof (ws ++ t)) /\
  atof (ws ++ "+" ++ t) = atof (ws ++ t) /\
  (isfinite (atof (ws ++ t)) = true ->
   printf_2f (atof (ws ++ "-" ++ t)) = "-" ++ printf_2f (atof (ws ++ t))).
Proof.
  intros W N. destruct (numeric_start_head t N) as [S G].
  pose proof (atof_signed ws (Some true) t W S G) as M.
  pose proof (atof_signed ws (Some false) t W S G) as P.
  pose proof (atof_signed ws None t W S G) as U.
  cbn [sign_prefix is_minus] in M, P, U.
  change ("" ++ t) with t in U.
  destruct (constant_opp t N) as [O Z0].
  rewrite M, P, U, O. repeat split.
  intros F. destruct Z0 as [Z0|Z0]; [rewrite Z0 in F; discriminate F|].
  destruct (constant false t) as [s|s| |s m e]; try discriminate F;
    cbn [signbit] in Z0; subst s; reflexivity.
Qed.

Lemma sign_only_sets_the_sign_36_5 :
  atof ("  -36.5") = SFopp (atof "  36.5") /\
  atof ("  +36.5") = atof "  36.5" /\
  printf_2f (atof "  -36.5") = "-36.50".
Proof.
  destruct (sign_only_sets_the_sign "  " "36.5") as (M & P & T);
    [reflexivity | reflexivity |].
  split; [exact M|]. split; [exact P|].
  change (printf_2f (atof ("  " ++ "-" ++ "36.5")) = "-36.50").
  rewrite (T eq_refl). vm_compute. reflexivity.
Defined.

(** X13. A text that, after white space and an optional sign, starts
    with INF or NAN in any mix of cases is always rejected: whatever
    follows, the value is not finite, and the run ends with the
    invalid-value line and exit status 1. *)
Theorem inf_and_nan_spellings_rejected (w : World) (s : string) :
  input_text w = Some s ->
  prefix_nocase "inf" (unsigned_part s) || prefix_nocase "nan" (unsigned_part s) = true ->
  isfinite (atof s) = false /\
  main w =
    ((prompt_events w ++ [Stderr ("Invalid temperature value." ++ nl)])%list, 1).
Proof.
  intros I H.
  assert (F : isfinite (atof s) = false).
  { unfold unsigned_part, atof in *.
    destruct (take_sign (skip_space s)) as [neg t]. cbn [snd] in H.
    assert (L : exists c r, t = String c r /\ is_digit c = false /\ is_char 46 c = false).
    { destruct t as [|c r]; [discriminate H|]. exists c, r. split; [reflexivity|].
      cbn [prefix_nocase] in H.
      pose proof (forall_ascii
        (fun c => implb ((code (ascii_of_nat 105) =? code (tolower c))%nat ||
                         (code (ascii_of_nat 110) =? code (tolower c))%nat)
                        (negb (is_digit c) && negb (is_char 46 c)))
        ltac:(vm_compute; reflexivity) c) as K.
      cbv beta in K.
      change (code "i") with (code (ascii_of_nat 105)) in H.
      change (code "n") with (code (ascii_of_nat 110)) in H.
      destruct (code (ascii_of_nat 105) =? code (tolower c))%nat;
        destruct (code (ascii_of_nat 110) =? code (tolower c))%nat;
        cbn [orb andb implb] in K, H; try discriminate H;
        rewrite andb_true_iff, !negb_true_iff in K; exact K. }
    destruct L as (c & r & -> & D & P).
    unfold constant.
    assert (X : hex_constant neg (String c r) = None).
    { unfold hex_constant. destruct r as [|c1 r']; [reflexivity|].
      destruct (is_char 48 c) eqn:Z0; [|reflexivity].
      apply zero_is_digit in Z0. congruence. }
    assert (M : decimal_constant neg (String c r) = None).
    { unfold decimal_constant, mantissa. cbn [scan in_radix]. now rewrite D, P. }
    rewrite X, M. unfold special_constant.
    destruct (prefix_nocase "inf" (String c r)); [reflexivity|].
    cbn [orb] in H. now rewrite H. }
  split; [exact F|].
  rewrite main_eq, I. unfold after_read. now rewrite F.
Qed.

Lemma inf_and_nan_spellings_rejected_Infinity :
  main (world_of ["fhir_upload"; " -Infinity and beyond"] "") =
    ([Stderr ("Invalid temperature value." ++ nl)], 1).
Proof.
  apply (inf_and_nan_spellings_rejected
           (world_of ["fhir_upload"; " -Infinity and beyond"] "")
           " -Infinity and beyond"); reflexivity.
Defined.

(** X11. The conversion [%ld] writes a number so that it can be read
    back: a non-negative number as its decimal digits, a negative one as
    a minus sign and the digits of its opposite.  Two status codes are
    never printed alike. *)
Theorem printf_ld_reads_back :
  (forall n, 0 <= n ->
     all_digits (printf_ld n) = true /\ printf_ld n <> "" /\
     digits_value 0 (printf_ld n) = n) /\
  (forall n, n < 0 ->
     exists ds, printf_ld n = "-" ++ ds /\ all_digits ds = true /\
                digits_value 0 ds = - n) /\
  (forall n m, printf_ld n = printf_ld m -> n = m).
Proof.
  assert (P : forall n, 0 <= n ->
     all_digits (printf_ld n) = true /\ printf_ld n <> "" /\
     digits_value 0 (printf_ld n) = n).
  { intros n H. unfold printf_ld. destruct (Z.ltb_spec n 0); [lia|].
    split; [apply utoa_all_digits|]. split; [apply utoa_nonempty|].
    now apply utoa_value. }
  assert (Q : forall n, n < 0 ->
     exists ds, printf_ld n = "-" ++ ds /\ all_digits ds = true /\
                digits_value 0 ds = - n).
  { intros n H. unfold printf_ld. destruct (Z.ltb_spec n 0); [|lia].
    exists (utoa (- n)). split; [reflexivity|].
    split; [apply utoa_all_digits | apply utoa_value; lia]. }
  split; [exact P|]. split; [exact Q|].
  intros n m E.
  destruct (Z.lt_ge_cases n 0) as [Hn|Hn]; destruct (Z.lt_ge_cases m 0) as [Hm|Hm].
  - destruct (Q n Hn) as (dn & En & _ & Vn). destruct (Q m Hm) as (dm & Em & _ & Vm).
    rewrite En, Em in E. injection E as E. subst dm. lia.
  - destruct (Q n Hn) as (dn & En & _). destruct (P m Hm) as (A & _).
    rewrite <- E, En in A. discriminate A.
  - destruct (P n Hn) as (A & _). destruct (Q m Hm) as (dm & Em & _).
    rewrite E, Em in A. discriminate A.
  - destruct (P n Hn) as (_ & _ & Vn). destruct (P m Hm) as (_ & _ & Vm).
    rewrite E in Vn. lia.
Qed.

Lemma printf_ld_reads_back_404 :
  digits_value 0 (printf_ld 404) = 404 /\
  (exists ds, printf_ld (-1) = "-" ++ ds /\ all_digits ds = true /\
              digits_value 0 ds = - (-1)).
Proof.
  destruct printf_ld_reads_back as (P & Q & _).
  split.
  - apply (P 404). lia.
  - apply (Q (-1)). lia.
Defined.

(** ** Numbers that do not overflow *)

Lemma digits2_lt_le (m : positive) (k : Z) :
  0 <= k -> Zpos m < 2 ^ k -> Zpos (digits2_pos m) <= k.
Proof.
  revert k. induction m as [m IH|m IH|]; intros k K H; cbn [digits2_pos].
  - rewrite Pos2Z.inj_succ.
    assert (k <> 0) by (intros ->; simpl in H; lia).
    specialize (IH (k - 1) ltac:(lia)).
    replace k with (Z.succ (k - 1)) in H by lia.
    rewrite Z.pow_succ_r in H by lia. lia.
  - rewrite Pos2Z.inj_succ.
    assert (k <> 0) by (intros ->; simpl in H; lia).
    specialize (IH (k - 1) ltac:(lia)).
    replace k with (Z.succ (k - 1)) in H by lia.
    rewrite Z.pow_succ_r in H by lia. lia.
  - assert (k <> 0) by (intros ->; simpl in H; lia). lia.
Qed.

Lemma Zdigits2_le (m k : Z) : 0 <= k -> 0 <= m < 2 ^ k -> Zdigits2 m <= k.
Proof.
  intros K [M0 M]. destruct m as [|p|p]; cbn [Zdigits2]; [lia| |lia].
  now apply digits2_lt_le.
Qed.

Lemma Zdigits2_gt (m : Z) : 0 <= m -> m < 2 ^ Zdigits2 m.
Proof.
  intros M. destruct m as [|p|p]; cbn [Zdigits2]; [reflexivity| |lia].
  apply digits2_pos_gt.
Qed.

Lemma Zdigits2_succ (m : Z) : 0 <= m -> Zdigits2 (m + 1) <= Zdigits2 m + 1.
Proof.
  intros M. pose proof (Zdigits2_gt m M) as G. pose proof (Zdigits2_nonneg m) as N.
  apply Zdigits2_le; [lia|].
  rewrite Z.pow_add_r by lia. change (2 ^ 1) with 2. lia.
Qed.

Lemma shr_1_nonneg (mrs : shr_record) : 0 <= shr_m mrs -> 0 <= shr_m (shr_1 mrs).
Proof.
  destruct mrs as [m r s]. destruct m as [|[p|p|]|[p|p|]]; cbn [shr_1 shr_m]; lia.
Qed.

Lemma iter_shr_1_nonneg (p : positive) :
  forall mrs, 0 <= shr_m mrs -> 0 <= shr_m (iter_pos shr_1 p mrs).
Proof.
  induction p as [p IH|p IH|]; intros mrs M; cbn [iter_pos].
  - apply IH, IH, shr_1_nonneg, M.
  - apply IH, IH, M.
  - apply shr_1_nonneg, M.
Qed.

(** One pass of [shr_fexp] on a non-negative mantissa: the mantissa stays
    non-negative, the exponent becomes the larger of the old one and of
    the canonical one, and mantissa and exponent together do not reach
    further up than before. *)
Lemma shr_fexp_bounds (m e : Z) (l : location) :
  0 <= m ->
  0 <= shr_m (fst (shr_fexp prec64 emax64 m e l)) /\
  snd (shr_fexp prec64 emax64 m e l) =
    Z.max e (fexp prec64 emax64 (Zdigits2 m + e)) /\
  Zdigits2 (shr_m (fst (shr_fexp prec64 emax64 m e l)))
    + snd (shr_fexp prec64 emax64 m e l)
    <= Z.max (snd (shr_fexp prec64 emax64 m e l)) (Zdigits2 m + e).
Proof.
  intros M. unfold shr_fexp, shr.
  pose proof (Zdigits2_nonneg m) as D.
  destruct (fexp prec64 emax64 (Zdigits2 m + e) - e) as [|p|p] eqn:N; cbn [fst snd].
  - rewrite shr_record_of_loc_m. lia.
  - rewrite Zdigits2_iter_shr_1, shr_record_of_loc_m.
    split; [apply iter_shr_1_nonneg; now rewrite shr_record_of_loc_m | lia].
  - rewrite shr_record_of_loc_m. lia.
Qed.

Lemma round_nearest_even_bounds (m : Z) (l : location) :
  m <= round_nearest_even m l <= m + 1.
Proof.
  unfold round_nearest_even. destruct l as [|[]]; [| destruct (Z.even m) | |]; lia.
Qed.

Lemma Zdigits2_mono_succ (m m' : Z) :
  0 <= m -> m <= m' <= m + 1 -> Zdigits2 m' <= Zdigits2 m + 1.
Proof.
  intros M H. assert (C : m' = m \/ m' = m + 1) by lia.
  destruct C as [-> | ->]; [lia | now apply Zdigits2_succ].
Qed.

(** Rounding does not overflow what lies below [2 ^ 1023]. *)
Lemma binary_round_aux_finite (s : bool) (m e : Z) (l : location) :
  0 <= m -> e <= 0 -> Zdigits2 m + e <= 1023 ->
  isfinite (binary_round_aux prec64 emax64 s m e l) = true.
Proof.
  intros M E X. unfold binary_round_aux.
  destruct (shr_fexp_bounds m e l M) as (M1 & E1 & X1).
  destruct (shr_fexp prec64 emax64 m e l) as [mrs' e']. cbn [fst snd] in *.
  pose proof (round_nearest_even_bounds (shr_m mrs') (loc_of_shr_record mrs')) as R.
  pose proof (Zdigits2_mono_succ _ _ M1 R) as DR.
  destruct (shr_fexp_bounds (round_nearest_even (shr_m mrs') (loc_of_shr_record mrs'))
              e' loc_Exact ltac:(lia)) as (M2 & E2 & _).
  destruct (shr_fexp prec64 emax64 _ e' loc_Exact) as [mrs'' e'']. cbn [fst snd] in *.
  destruct (shr_m mrs'') as [|q|q]; [reflexivity| |lia].
  unfold fexp, emin, prec64, emax64 in *.
  destruct (Z.leb_spec e'' (1024 - 53)); [reflexivity | lia].
Qed.

Lemma round_ratio_finite (neg : bool) (p q : Z) :
  0 <= p -> 0 < q -> p < q * 2 ^ 1023 -> isfinite (round_ratio neg p q) = true.
Proof.
  intros P Q B. unfold round_ratio. destruct (p =? 0); [reflexivity|].
  unfold SFdiv_core_binary.
  set (e' := Z.min (fexp prec64 emax64 (Zdigits2 p + 0 - (Zdigits2 q + 0))) (0 - 0)).
  assert (E : e' <= 0) by (subst e'; lia).
  assert (V : (match 0 - 0 - e' with
               | 0 => p
               | Z.pos _ => Z.shiftl p (0 - 0 - e')
               | Z.neg _ => 0
               end) = p * 2 ^ (- e')).
  { destruct (0 - 0 - e') as [|k|k] eqn:K.
    - replace (- e') with 0 by lia. simpl. lia.
    - rewrite Z.shiftl_mul_pow2 by lia. f_equal. f_equal. lia.
    - lia. }
  rewrite V.
  pose proof (Z.div_eucl_eq (p * 2 ^ (- e')) q ltac:(lia)) as DE.
  pose proof (Z.mod_pos_bound (p * 2 ^ (- e')) q Q) as MB.
  unfold Z.modulo in MB.
  destruct (Z.div_eucl (p * 2 ^ (- e')) q) as [m r].
  assert (T : 0 < 2 ^ (- e')) by (apply Z.pow_pos_nonneg; lia).
  assert (M0 : 0 <= m) by nia.
  assert (M1 : m < 2 ^ (1023 - e')).
  { replace (1023 - e') with (1023 + - e') by lia.
    rewrite Z.pow_add_r by lia.
    assert (q * m < q * (2 ^ 1023 * 2 ^ (- e'))); [|nia].
    assert (p * 2 ^ (- e') < q * 2 ^ 1023 * 2 ^ (- e')) by nia.
    lia. }
  apply binary_round_aux_finite; [exact M0 | exact E |].
  pose proof (Zdigits2_le m (1023 - e') ltac:(lia) (conj M0 M1)). lia.
Qed.

Lemma is_digit_val (c : ascii) : is_digit c = true -> 0 <= digit_val c <= 9.
Proof.
  unfold is_digit, between, digit_val. intros H.
  apply andb_true_iff in H. destruct H as [A B].
  apply Nat.leb_le in A, B. lia.
Qed.

Lemma digits_value_bound (s : string) :
  forall a, 0 <= a -> all_digits s = true ->
    0 <= digits_value a s < (a + 1) * 10 ^ Z.of_nat (String.length s).
Proof.
  induction s as [|c s IH]; intros a A D.
  - simpl. lia.
  - cbn [all_digits] in D. apply andb_true_iff in D. destruct D as [C D].
    pose proof (is_digit_val c C) as V.
    cbn [digits_value String.length].
    specialize (IH (10 * a + digit_val c) ltac:(lia) D).
    rewrite Nat2Z.inj_succ, Z.pow_succ_r by lia.
    assert (T : 0 < 10 ^ Z.of_nat (String.length s)) by (apply Z.pow_pos_nonneg; lia).
    nia.
Qed.

(** X12. An ordinary number is never rejected.  For digits around a
    point with at most 307 digits before it, or digits alone, at most
    307 of them, after optional white space and sign and followed by
    anything that does not continue the number: the value is finite, and
    the run does not end with the invalid-value line. *)
Theorem ordinary_numbers_accepted :
  (forall ws sg ip fp rest,
     all_space ws = true -> all_digits ip = true -> all_digits fp = true ->
     ip ++ fp <> "" -> ends_fraction rest = true ->
     (String.length ip <= 307)%nat ->
     isfinite (atof (ws ++ sign_prefix sg ++ ip ++ "." ++ fp ++ rest)) = true /\
     forall w,
       input_text w = Some (ws ++ sign_prefix sg ++ ip ++ "." ++ fp ++ rest) ->
       ~ In (Stderr ("Invalid temperature value." ++ nl)) (fst (main w))) /\
  (forall ws sg ip rest,
     all_space ws = true -> all_digits ip = true -> ip <> "" ->
     ends_integer rest = true ->
     (String.length ip <= 307)%nat ->
     isfinite (atof (ws ++ sign_prefix sg ++ ip ++ rest)) = true /\
     forall w,
       input_text w = Some (ws ++ sign_prefix sg ++ ip ++ rest) ->
       ~ In (Stderr ("Invalid temperature value." ++ nl)) (fst (main w))).
Proof.
  assert (T : (10 : Z) ^ 307 < 2 ^ 1023) by reflexivity.
  split.
  - intros ws sg ip fp rest W I F N R L.
    assert (Fin : isfinite (atof (ws ++ sign_prefix sg ++ ip ++ "." ++ fp ++ rest)) = true).
    { rewrite atof_fraction by assumption.
      assert (A : all_digits (ip ++ fp) = true).
      { clear - I F. induction ip as [|c ip IH]; [exact F|].
        cbn [all_digits append] in *. apply andb_true_iff in I. destruct I as [C I].
        rewrite C. now apply IH. }
      pose proof (digits_value_bound (ip ++ fp) 0 ltac:(lia) A) as B.
      rewrite length_append, Nat2Z.inj_add, Z.pow_add_r in B by lia.
      assert (P1 : 0 < 10 ^ Z.of_nat (String.length fp)) by (apply Z.pow_pos_nonneg; lia).
      assert (P2 : 10 ^ Z.of_nat (String.length ip) <= 10 ^ 307)
        by (apply Z.pow_le_mono_r; lia).
      unfold scaled.
      destruct (Z.leb_spec 0 (- Z.of_nat (String.length fp))) as [Z0|Z0].
      + assert (E0 : Z.of_nat (String.length fp) = 0) by lia.
        rewrite E0 in *. rewrite Z.pow_0_r in B.
        change (- 0) with 0. rewrite Z.pow_0_r.
        apply round_ratio_finite; lia.
      + rewrite Z.opp_involutive.
        set (a := 10 ^ Z.of_nat (String.length ip)) in *.
        set (b := 10 ^ Z.of_nat (String.length fp)) in *.
        apply round_ratio_finite; [lia | lia |].
        apply Z.lt_le_trans with (b * 10 ^ 307); [nia|].
        apply Z.mul_le_mono_nonneg_l; lia. }
    split; [exact Fin|]. intros w Iw. now apply (finite_not_rejected w _ Iw).
  - intros ws sg ip rest W I N R L.
    assert (Fin : isfinite (atof (ws ++ sign_prefix sg ++ ip ++ rest)) = true).
    { rewrite atof_integer by assumption.
      pose proof (digits_value_bound ip 0 ltac:(lia) I) as B.
      assert (P2 : 10 ^ Z.of_nat (String.length ip) <= 10 ^ 307)
        by (apply Z.pow_le_mono_r; lia).
      unfold scaled. change (0 <=? 0) with true. cbv iota.
      rewrite Z.pow_0_r.
      apply round_ratio_finite; lia. }
    split; [exact Fin|]. intros w Iw. now apply (finite_not_rejected w _ Iw).
Qed.

Lemma ordinary_numbers_accepted_examples :
  isfinite (atof (" " ++ sign_prefix (Some true) ++ "273" ++ "." ++ "15" ++ " K")) = true /\
  isfinite (atof ("" ++ sign_prefix None ++ "1000000" ++ "abc")) = true.
Proof.
  destruct ordinary_numbers_accepted as (F & I).
  split.
  - apply (F " " (Some true) "273" "15" " K"); try reflexivity.
    + discriminate.
    + simpl. lia.
  - apply (I "" None "1000000" "abc"); try reflexivity.
    + discriminate.
    + simpl. lia.
Defined.

(** ** Numbers that overflow *)

Lemma digits2_pos_ge (m : positive) : 2 ^ (Zpos (digits2_pos m) - 1) <= Zpos m.
Proof.
  induction m as [m IH|m IH|]; cbn [digits2_pos]; [| |simpl; lia];
    rewrite Pos2Z.inj_succ;
    replace (Z.succ (Z.pos (digits2_pos m)) - 1)
      with (Z.succ (Z.pos (digits2_pos m) - 1)) by lia;
    rewrite Z.pow_succ_r by lia; lia.
Qed.

Lemma Zdigits2_ge (m k : Z) : 0 <= k -> 2 ^ k <= m -> k + 1 <= Zdigits2 m.
Proof.
  intros K H.
  assert (P : 0 < 2 ^ k) by (apply Z.pow_pos_nonneg; lia).
  pose proof (Zdigits2_gt m ltac:(lia)) as G.
  pose proof (Zdigits2_nonneg m) as N.
  assert (L : 2 ^ k < 2 ^ Zdigits2 m) by lia.
  apply Z.pow_lt_mono_r_iff in L; lia.
Qed.

Lemma Zdigits2_positive (m : Z) : 0 <= m -> 0 < Zdigits2 m -> 0 < m.
Proof. destruct m; simpl; lia. Qed.

Lemma Zdigits2_mono (m m' : Z) : 0 < m -> m <= m' -> Zdigits2 m <= Zdigits2 m'.
Proof.
  intros M H. destruct m as [|p|p]; try lia. cbn [Zdigits2].
  pose proof (digits2_pos_ge p) as G.
  assert (D : 0 < Z.pos (digits2_pos p)) by lia.
  pose proof (Zdigits2_ge m' (Z.pos (digits2_pos p) - 1) ltac:(lia) ltac:(lia)). lia.
Qed.

(** The mantissa that one pass of [shr_fexp] leaves has the digits that
    the shift did not remove. *)
Lemma shr_fexp_digits_exact (m e : Z) (l : location) :
  Zdigits2 (shr_m (fst (shr_fexp prec64 emax64 m e l))) =
    if 0 <? fexp prec64 emax64 (Zdigits2 m + e) - e
    then Z.max 0 (Zdigits2 m - (fexp prec64 emax64 (Zdigits2 m + e) - e))
    else Zdigits2 m.
Proof.
  unfold shr_fexp, shr.
  destruct (fexp prec64 emax64 (Zdigits2 m + e) - e) as [|p|p] eqn:N; cbn [fst].
  - now rewrite shr_record_of_loc_m.
  - rewrite Zdigits2_iter_shr_1, shr_record_of_loc_m. reflexivity.
  - now rewrite shr_record_of_loc_m.
Qed.

(** Rounding overflows what reaches [2 ^ 1024]. *)
Lemma fexp_large (x : Z) : -1021 <= x -> fexp prec64 emax64 x = x - 53.
Proof. unfold fexp, emin, prec64, emax64. lia. Qed.

Lemma binary_round_aux_overflow (s : bool) (m e : Z) (l : location) :
  0 <= m -> e <= 0 -> 1025 <= Zdigits2 m + e ->
  binary_round_aux prec64 emax64 s m e l = S754_infinity s.
Proof.
  intros M E X. unfold binary_round_aux.
  destruct (shr_fexp_bounds m e l M) as (M1 & E1 & _).
  pose proof (shr_fexp_digits_exact m e l) as D1.
  destruct (shr_fexp prec64 emax64 m e l) as [mrs' e']. cbn [fst snd] in *.
  rewrite fexp_large in E1, D1 by lia.
  assert (N1 : Zdigits2 (shr_m mrs') = 53).
  { rewrite D1. destruct (Z.ltb_spec 0 (Zdigits2 m + e - 53 - e)); lia. }
  assert (P1 : 0 < shr_m mrs') by (apply Zdigits2_positive; lia).
  pose proof (round_nearest_even_bounds (shr_m mrs') (loc_of_shr_record mrs')) as R.
  set (m1 := round_nearest_even (shr_m mrs') (loc_of_shr_record mrs')) in *.
  pose proof (Zdigits2_mono _ m1 P1 ltac:(lia)) as Lo.
  pose proof (Zdigits2_mono_succ _ m1 M1 R) as Hi.
  destruct (shr_fexp_bounds m1 e' loc_Exact ltac:(lia)) as (M2 & E2 & _).
  pose proof (shr_fexp_digits_exact m1 e' loc_Exact) as D2.
  destruct (shr_fexp prec64 emax64 m1 e' loc_Exact) as [mrs'' e'']. cbn [fst snd] in *.
  rewrite fexp_large in E2, D2 by lia.
  assert (N2 : 0 < Zdigits2 (shr_m mrs'')).
  { rewrite D2. destruct (Z.ltb_spec 0 (Zdigits2 m1 + e' - 53 - e')); lia. }
  pose proof (Zdigits2_positive _ M2 N2) as P2.
  destruct (shr_m mrs'') as [|q|q]; [lia| |lia].
  unfold prec64, emax64.
  destruct (Z.leb_spec e'' (1024 - 53)); [lia | reflexivity].
Qed.

Lemma round_ratio_overflow (neg : bool) (p q : Z) :
  0 < q -> q * 2 ^ 1024 <= p -> round_ratio neg p q = S754_infinity neg.
Proof.
  intros Q B. unfold round_ratio.
  assert (P : 0 < p).
  { assert (0 < 2 ^ 1024) by reflexivity. nia. }
  destruct (Z.eqb_spec p 0); [lia|].
  unfold SFdiv_core_binary.
  set (e' := Z.min (fexp prec64 emax64 (Zdigits2 p + 0 - (Zdigits2 q + 0))) (0 - 0)).
  assert (E : e' <= 0) by (subst e'; lia).
  assert (V : (match 0 - 0 - e' with
               | 0 => p
               | Z.pos _ => Z.shiftl p (0 - 0 - e')
               | Z.neg _ => 0
               end) = p * 2 ^ (- e')).
  { destruct (0 - 0 - e') as [|k|k] eqn:K.
    - replace (- e') with 0 by lia. simpl. lia.
    - rewrite Z.shiftl_mul_pow2 by lia. f_equal. f_equal. lia.
    - lia. }
  rewrite V.
  pose proof (Z.div_eucl_eq (p * 2 ^ (- e')) q ltac:(lia)) as DE.
  pose proof (Z.mod_pos_bound (p * 2 ^ (- e')) q Q) as MB.
  unfold Z.modulo in MB.
  destruct (Z.div_eucl (p * 2 ^ (- e')) q) as [m r].
  assert (T : 0 < 2 ^ (- e')) by (apply Z.pow_pos_nonneg; lia).
  assert (M1 : 2 ^ (1024 - e') <= m).
  { replace (1024 - e') with (1024 + - e') by lia.
    rewrite Z.pow_add_r by lia.
    assert (q * (2 ^ 1024 * 2 ^ (- e')) < q * (m + 1)); [|nia].
    assert (q * 2 ^ 1024 * 2 ^ (- e') <= p * 2 ^ (- e')) by nia.
    lia. }
  assert (M0 : 0 <= m).
  { assert (0 < 2 ^ (1024 - e')) by (apply Z.pow_pos_nonneg; lia). lia. }
  apply binary_round_aux_overflow; [exact M0 | exact E |].
  pose proof (Zdigits2_ge m (1024 - e') ltac:(lia) M1). lia.
Qed.

Lemma exponent_marker_facts (x : ascii) :
  is_char 101 (tolower x) = true ->
  is_digit x = false /\ is_char 46 x = false /\ is_char 120 (tolower x) = false.
Proof.
  intros H.
  pose proof (ascii_implb (fun x => is_char 101 (tolower x))
    (fun x => negb (is_digit x) && negb (is_char 46 x) && negb (is_char 120 (tolower x)))
    ltac:(vm_compute; reflexivity) x H) as F.
  cbv beta in F. rewrite !andb_true_iff, !negb_true_iff in F. tauto.
Qed.

(** Digits and a decimal exponent: the value is that of the digits times
    the power of ten, whatever follows. *)
Lemma atof_exponent (ws : string) (sg : option bool) (ip : string) (x : ascii)
    (esg : option bool) (ed rest : string) :
  all_space ws = true -> all_digits ip = true -> ip <> "" ->
  is_char 101 (tolower x) = true ->
  all_digits ed = true -> ed <> "" ->
  head_ok (fun c => negb (is_digit c)) rest = true ->
  atof (ws ++ sign_prefix sg ++ ip ++ String x (sign_prefix esg ++ ed ++ rest)) =
    scaled (is_minus sg) (digits_value 0 ip) 10
      (if is_minus esg then - digits_value 0 ed else digits_value 0 ed).
Proof.
  intros W I N X D DN R.
  destruct (exponent_marker_facts x X) as (XD & XP & XX).
  assert (H : exists c ip', ip = String c ip' /\ is_digit c = true).
  { destruct ip as [|c ip']; [congruence|]. exists c, ip'. split; [reflexivity|].
    cbn [all_digits] in I. apply andb_true_iff in I. tauto. }
  destruct H as (c & ip' & E & Dc).
  assert (HD : exists d ed', ed = String d ed' /\ is_digit d = true).
  { destruct ed as [|d ed']; [congruence|]. exists d, ed'. split; [reflexivity|].
    cbn [all_digits] in D. apply andb_true_iff in D. tauto. }
  destruct HD as (d & ed' & Ed & Dd).
  rewrite atof_signed; try assumption.
  - unfold constant, decimal_constant.
    rewrite hex_constant_decimal.
    + unfold mantissa. rewrite scan_all_digits by assumption.
      cbn [scan in_radix]. rewrite XD, XP.
      apply nonempty_length in N.
      destruct (Z.eqb_spec (0 + Z.of_nat (String.length ip)) 0); [lia|].
      cbn [exponent]. rewrite X.
      assert (TS : take_sign (sign_prefix esg ++ ed ++ rest) = (is_minus esg, ed ++ rest)).
      { destruct esg as [[|]|]; cbn [sign_prefix append is_minus]; try reflexivity.
        apply take_sign_head. rewrite Ed. cbn [append head_ok].
        now apply digit_not_sign. }
      rewrite TS, scan_all_digits by assumption.
      rewrite scan_stop.
      2:{ destruct rest as [|r0 r]; [reflexivity|]. exact R. }
      apply nonempty_length in DN.
      destruct (Z.eqb_spec (0 + Z.of_nat (String.length ed)) 0); [lia|].
      f_equal. destruct (is_minus esg); lia.
    + assumption.
    + subst ip. destruct ip'; [|reflexivity]. now rewrite XX.
  - subst ip. cbn [append head_ok]. now apply digit_not_space.
  - subst ip. cbn [append head_ok]. now apply digit_not_sign.
Qed.

(** X14. A number too large for a [double] is rejected.  Digits alone
    that read as [10 ^ 309] or more, and non-zero digits with a decimal
    exponent of 309 or more, convert to an infinity; the run ends with
    the invalid-value line and exit status 1. *)
Theorem overflowing_numbers_rejected :
  (forall w ws sg ip rest,
     all_space ws = true -> all_digits ip = true -> ip <> "" ->
     ends_integer rest = true ->
     10 ^ 309 <= digits_value 0 ip ->
     input_text w = Some (ws ++ sign_prefix sg ++ ip ++ rest) ->
     atof (ws ++ sign_prefix sg ++ ip ++ rest) = S754_infinity (is_minus sg) /\
     main w =
       ((prompt_events w ++ [Stderr ("Invalid temperature value." ++ nl)])%list, 1)) /\
  (forall w ws sg ip x esg ed rest,
     all_space ws = true -> all_digits ip = true -> ip <> "" ->
     is_char 101 (tolower x) = true ->
     all_digits ed = true -> ed <> "" ->
     head_ok (fun c => negb (is_digit c)) rest = true ->
     1 <= digits_value 0 ip -> is_minus esg = false -> 309 <= digits_value 0 ed ->
     input_text w =
       Some (ws ++ sign_prefix sg ++ ip ++ String x (sign_prefix esg ++ ed ++ rest)) ->
     atof (ws ++ sign_prefix sg ++ ip ++ String x (sign_prefix esg ++ ed ++ rest)) =
       S754_infinity (is_minus sg) /\
     main w =
       ((prompt_events w ++ [Stderr ("Invalid temperature value." ++ nl)])%list, 1)).
Proof.
  assert (T : (2 : Z) ^ 1024 <= 10 ^ 309) by (vm_compute; discriminate).
  assert (Rej : forall w s b, input_text w = Some s -> atof s = S754_infinity b ->
    main w =
      ((prompt_events w ++ [Stderr ("Invalid temperature value." ++ nl)])%list, 1)).
  { intros w s b Iw A. rewrite main_eq, Iw. unfold after_read. now rewrite A. }
  split.
  - intros w ws sg ip rest W I N R V Iw.
    assert (A : atof (ws ++ sign_prefix sg ++ ip ++ rest) = S754_infinity (is_minus sg)).
    { rewrite atof_integer by assumption.
      unfold scaled. change (0 <=? 0) with true. cbv iota. rewrite Z.pow_0_r.
      apply round_ratio_overflow; lia. }
    split; [exact A | exact (Rej w _ _ Iw A)].
  - intros w ws sg ip x esg ed rest W I N X D DN R V1 ES V2 Iw.
    assert (A : atof (ws ++ sign_prefix sg ++ ip ++ String x (sign_prefix esg ++ ed ++ rest))
                = S754_infinity (is_minus sg)).
    { rewrite atof_exponent by assumption. rewrite ES.
      unfold scaled. destruct (Z.leb_spec 0 (digits_value 0 ed)); [|lia].
      apply round_ratio_overflow; [lia|].
      assert (P : 10 ^ 309 <= 10 ^ digits_value 0 ed) by (apply Z.pow_le_mono_r; lia).
      assert (Q : 0 < 10 ^ digits_value 0 ed) by (apply Z.pow_pos_nonneg; lia).
      nia. }
    split; [exact A | exact (Rej w _ _ Iw A)].
Qed.

Lemma overflowing_numbers_rejected_1e400 :
  main (world_of ["fhir_upload"] ("1e400" ++ nl)) =
    ([Stdout prompt; Fgets; Stderr ("Invalid temperature value." ++ nl)], 1).
Proof.
  destruct overflowing_numbers_rejected as (_ & E).
  apply (E (world_of ["fhir_upload"] ("1e400" ++ nl)) "" None "1" (ascii_of_nat 101)
           None "400" nl); try reflexivity; try discriminate.
Defined.

(** * The value that [atof] converts *)

(** ** Rounding to the nearest binary64 *)

(** The location that the division computes from the remainder is that
    of the quotient [N / q]. *)
Lemma new_location_located (q r N m : Z) :
  0 < q -> 0 <= r < q -> N = q * m + r -> located N q m (new_location q r).
Proof.
  intros Q R E. unfold located. split; [lia|].
  unfold new_location. destruct (Z.even q) eqn:Ev.
  - unfold new_location_even. destruct (Z.eqb_spec r 0); [lia|].
    destruct (Z.compare_spec (2 * r) q); lia.
  - unfold new_location_odd. destruct (Z.eqb_spec r 0); [lia|].
    assert (O : Z.odd q = true) by (rewrite <- Z.negb_even, Ev; reflexivity).
    apply Z.odd_spec in O. destruct O as [j O].
    destruct (Z.compare_spec (2 * r + 1) q); lia.
Qed.

(** Dropping the last bit of the mantissa keeps the location, for a
    unit twice as large. *)
Lemma located_shr_1 (N D : Z) (mrs : shr_record) :
  0 < D -> 0 <= shr_m mrs ->
  located N D (shr_m mrs) (loc_of_shr_record mrs) ->
  located N (2 * D) (shr_m (shr_1 mrs)) (loc_of_shr_record (shr_1 mrs)).
Proof.
  intros HD M. destruct mrs as [m r s]. unfold located.
  destruct m as [|[p|p|]|p]; try (cbn [shr_m] in M; lia).
  - destruct r, s; cbn [shr_1 shr_m loc_of_shr_record orb]; intros [B L]; lia.
  - set (x := Z.pos p * D).
    destruct r, s; cbn [shr_1 shr_m loc_of_shr_record orb]; intros [B L];
    rewrite ?(Pos2Z.inj_xI p) in *;
    replace ((2 * Z.pos p + 1) * D) with (2 * x + D) in * by (unfold x; ring);
    replace ((2 * Z.pos p + 1 + 1) * D) with (2 * x + 2 * D) in * by (unfold x; ring);
    replace ((2 * (2 * Z.pos p + 1) + 1) * D) with (4 * x + 3 * D) in * by (unfold x; ring);
    replace (Z.pos p * (2 * D)) with (2 * x) by (unfold x; ring);
    replace ((Z.pos p + 1) * (2 * D)) with (2 * x + 2 * D) by (unfold x; ring);
    replace ((2 * Z.pos p + 1) * (2 * D)) with (4 * x + 2 * D) by (unfold x; ring);
    lia.
  - set (x := Z.pos p * D).
    destruct r, s; cbn [shr_1 shr_m loc_of_shr_record orb]; intros [B L];
    rewrite ?(Pos2Z.inj_xO p) in *;
    replace (2 * Z.pos p * D) with (2 * x) in * by (unfold x; ring);
    replace ((2 * Z.pos p + 1) * D) with (2 * x + D) in * by (unfold x; ring);
    replace ((2 * (2 * Z.pos p) + 1) * D) with (4 * x + D) in * by (unfold x; ring);
    replace (Z.pos p * (2 * D)) with (2 * x) by (unfold x; ring);
    replace ((Z.pos p + 1) * (2 * D)) with (2 * x + 2 * D) by (unfold x; ring);
    replace ((2 * Z.pos p + 1) * (2 * D)) with (4 * x + 2 * D) by (unfold x; ring);
    lia.
  - destruct r, s; cbn [shr_1 shr_m loc_of_shr_record orb]; intros [B L]; lia.
Qed.

Lemma located_iter_shr_1 (N : Z) (p : positive) :
  forall mrs D,
    0 < D -> 0 <= shr_m mrs ->
    located N D (shr_m mrs) (loc_of_shr_record mrs) ->
    located N (D * 2 ^ Zpos p)
      (shr_m (iter_pos shr_1 p mrs)) (loc_of_shr_record (iter_pos shr_1 p mrs)).
Proof.
  induction p as [p IH|p IH|]; intros mrs D HD M L; cbn [iter_pos].
  - assert (P : 0 < 2 ^ Z.pos p) by (apply Z.pow_pos_nonneg; lia).
    replace (D * 2 ^ Z.pos p~1) with (2 * D * 2 ^ Z.pos p * 2 ^ Z.pos p).
    + apply IH; [nia | apply iter_shr_1_nonneg, shr_1_nonneg, M |].
      apply IH; [lia | apply shr_1_nonneg, M |].
      now apply located_shr_1.
    + replace (Z.pos p~1) with (1 + Z.pos p + Z.pos p) by lia.
      rewrite !Z.pow_add_r by lia. change (2 ^ 1) with 2. ring.
  - assert (P : 0 < 2 ^ Z.pos p) by (apply Z.pow_pos_nonneg; lia).
    replace (D * 2 ^ Z.pos p~0) with (D * 2 ^ Z.pos p * 2 ^ Z.pos p).
    + apply IH; [nia | apply iter_shr_1_nonneg, M |].
      now apply IH.
    + replace (Z.pos p~0) with (Z.pos p + Z.pos p) by lia.
      rewrite !Z.pow_add_r by lia. ring.
  - replace (D * 2 ^ 1) with (2 * D) by (change (2 ^ 1) with 2; ring).
    now apply located_shr_1.
Qed.

Lemma loc_of_shr_record_of_loc (m : Z) (l : location) :
  loc_of_shr_record (shr_record_of_loc m l) = l.
Proof. destruct l as [|[]]; reflexivity. Qed.

(** One pass of [shr_fexp] keeps the location, for the unit of the
    exponent it moves to. *)
Lemma located_shr_fexp (N D m e : Z) (l : location) :
  0 < D -> 0 <= m -> located N D m l ->
  e <= snd (shr_fexp prec64 emax64 m e l) /\
  located N (D * 2 ^ (snd (shr_fexp prec64 emax64 m e l) - e))
    (shr_m (fst (shr_fexp prec64 emax64 m e l)))
    (loc_of_shr_record (fst (shr_fexp prec64 emax64 m e l))).
Proof.
  intros HD M L. unfold shr_fexp, shr.
  destruct (fexp prec64 emax64 (Zdigits2 m + e) - e) as [|p|p]; cbn [fst snd].
  - rewrite Z.sub_diag, Z.mul_1_r, shr_record_of_loc_m, loc_of_shr_record_of_loc.
    split; [lia | exact L].
  - replace (e + Z.pos p - e) with (Z.pos p) by lia.
    split; [lia|]. apply located_iter_shr_1; [exact HD | |].
    + now rewrite shr_record_of_loc_m.
    + now rewrite shr_record_of_loc_m, loc_of_shr_record_of_loc.
  - rewrite Z.sub_diag, Z.mul_1_r, shr_record_of_loc_m, loc_of_shr_record_of_loc.
    split; [lia | exact L].
Qed.

(** The integer chosen from a location is within half a unit, and even
    when exactly half a unit away. *)
Lemma round_nearest_even_located (N D m : Z) (l : location) :
  0 < D -> located N D m l ->
  2 * Z.abs (round_nearest_even m l * D - N) <= D /\
  (2 * Z.abs (round_nearest_even m l * D - N) = D ->
   Z.even (round_nearest_even m l) = true).
Proof.
  intros HD [B L]. unfold round_nearest_even.
  destruct l as [|[| |]].
  - split; [lia|]. intros T. lia.
  - destruct (Z.even m) eqn:E.
    + split; [lia|]. intros _. exact E.
    + split; [lia|]. intros _.
      replace (m + 1) with (Z.succ m) by lia.
      rewrite Z.even_succ, <- Z.negb_even, E. reflexivity.
  - split; [lia|]. intros T. lia.
  - split; [lia|]. intros T. lia.
Qed.

Lemma located_scale (N D m c : Z) (l : location) :
  0 < c -> located N D m l -> located (N * c) (D * c) m l.
Proof.
  intros C [B L]. unfold located.
  set (x := m * D) in *.
  replace (m * (D * c)) with (x * c) by (unfold x; ring).
  replace ((m + 1) * (D * c)) with ((x + D) * c) by (unfold x; ring).
  replace ((m + 1) * D) with (x + D) in B by (unfold x; ring).
  split; [nia|].
  destruct l as [|[| |]].
  - nia.
  - replace ((2 * m + 1) * (D * c)) with ((2 * x + D) * c) by (unfold x; ring).
    replace ((2 * m + 1) * D) with (2 * x + D) in L by (unfold x; ring). nia.
  - replace ((2 * m + 1) * (D * c)) with ((2 * x + D) * c) by (unfold x; ring).
    replace ((2 * m + 1) * D) with (2 * x + D) in L by (unfold x; ring). nia.
  - replace ((2 * m + 1) * (D * c)) with ((2 * x + D) * c) by (unfold x; ring).
    replace ((2 * m + 1) * D) with (2 * x + D) in L by (unfold x; ring). nia.
Qed.

Lemma fexp_eq (x : Z) : fexp prec64 emax64 x = Z.max (x - 53) (-1074).
Proof. reflexivity. Qed.

Lemma Zdigits2_lower (m : Z) : 0 < m -> 2 ^ (Zdigits2 m - 1) <= m.
Proof.
  intros M. destruct m as [|p|p]; try lia. cbn [Zdigits2]. apply digits2_pos_ge.
Qed.

(** [binary_round_aux] on a located mantissa with enough bits: on the
    grid of step [2 ^ ev], the exponent of the binade of [N / D], it picks
    the multiple [k] nearest to [N / D], even on a tie, and writes it with
    a mantissa below [2 ^ 53]. *)
Lemma binary_round_aux_grid (s : bool) (m0 e0 : Z) (l : location) (N D : Z) :
  0 < D -> 0 <= m0 -> located N D m0 l ->
  e0 <= fexp prec64 emax64 (Zdigits2 m0 + e0) ->
  exists ev k m e,
    e0 <= ev /\ -1074 <= ev /\ 0 <= k /\
    N < 2 ^ 53 * (D * 2 ^ (ev - e0)) /\
    (ev = -1074 \/ 2 ^ 52 * (D * 2 ^ (ev - e0)) <= N) /\
    2 * Z.abs (k * (D * 2 ^ (ev - e0)) - N) <= D * 2 ^ (ev - e0) /\
    (2 * Z.abs (k * (D * 2 ^ (ev - e0)) - N) = D * 2 ^ (ev - e0) -> Z.even k = true) /\
    (m = k /\ e = ev /\ k < 2 ^ 53 \/ k = 2 ^ 53 /\ m = 2 ^ 52 /\ e = ev + 1) /\
    binary_round_aux prec64 emax64 s m0 e0 l =
      match m with
      | Z0 => S754_zero s
      | Zpos m' => if e <=? 971 then S754_finite s m' e else S754_infinity s
      | Zneg _ => S754_nan
      end.
Proof.
  intros HD M L F. unfold binary_round_aux.
  destruct (shr_fexp_bounds m0 e0 l M) as (M1 & E1 & _).
  pose proof (shr_fexp_digits_exact m0 e0 l) as D1.
  pose proof (shr_fexp_digits m0 e0 l) as D1'.
  destruct (located_shr_fexp N D m0 e0 l HD M L) as (Ge & L1).
  destruct (shr_fexp prec64 emax64 m0 e0 l) as [mrs1 e1]. cbn [fst snd] in *.
  set (m1 := shr_m mrs1) in *. set (l1 := loc_of_shr_record mrs1) in *.
  rewrite fexp_eq in *.
  pose proof (Zdigits2_nonneg m0) as N0.
  assert (E1' : e1 = Z.max (Zdigits2 m0 + e0 - 53) (-1074)) by lia.
  assert (P2 : 0 < 2 ^ (e1 - e0)) by (apply Z.pow_pos_nonneg; lia).
  assert (HU : 0 < D * 2 ^ (e1 - e0)) by nia.
  set (U := D * 2 ^ (e1 - e0)) in *.
  destruct (round_nearest_even_located N U m1 l1 HU L1) as (R1 & R2).
  pose proof (round_nearest_even_bounds m1 l1) as RB.
  set (k := round_nearest_even m1 l1) in *.
  assert (B1 : m1 < 2 ^ 53).
  { pose proof (Zdigits2_gt m1 M1) as G.
    assert (2 ^ Zdigits2 m1 <= 2 ^ 53) by (apply Z.pow_le_mono_r; unfold prec64 in D1'; lia).
    lia. }
  destruct L1 as [BL LL].
  assert (NU : N < 2 ^ 53 * U).
  { set (x := m1 * U) in *.
    replace ((m1 + 1) * U) with (x + U) in BL by (unfold x; ring).
    assert (x + U <= 2 ^ 53 * U); [|lia].
    replace (x + U) with ((m1 + 1) * U) by (unfold x; ring).
    apply Z.mul_le_mono_nonneg_r; lia. }
  assert (BN : e1 = -1074 \/ 2 ^ 52 * U <= N).
  { destruct (Z.eq_dec e1 (-1074)) as [|NE]; [now left | right].
    assert (X : Zdigits2 m1 = 53).
    { rewrite D1. destruct (Z.ltb_spec 0 (Z.max (Zdigits2 m0 + e0 - 53) (-1074) - e0)); lia. }
    assert (P1 : 0 < m1) by (apply Zdigits2_positive; lia).
    pose proof (Zdigits2_lower m1 P1) as Lo. rewrite X in Lo.
    change (2 ^ (53 - 1)) with (2 ^ 52) in Lo.
    apply Z.le_trans with (m1 * U); [|lia].
    apply Z.mul_le_mono_nonneg_r; lia. }
  assert (K : k < 2 ^ 53 \/ k = 2 ^ 53) by lia.
  destruct K as [K|K].
  - exists e1, k, k, e1.
    repeat (split; [first [assumption | lia]|]).
    assert (DK : Zdigits2 k <= 53) by (apply Zdigits2_le; lia).
    unfold shr_fexp, shr. rewrite fexp_eq.
    pose proof (Zdigits2_nonneg k) as NK.
    destruct (Z.max (Zdigits2 k + e1 - 53) (-1074) - e1) as [|j|j] eqn:J; [|lia|];
      rewrite shr_record_of_loc_m; reflexivity.
  - exists e1, k, (2 ^ 52), (e1 + 1).
    repeat (split; [first [assumption | lia]|]).
    rewrite K. unfold shr_fexp.
    replace (fexp prec64 emax64 (Zdigits2 (2 ^ 53) + e1) - e1) with 1
      by (rewrite fexp_eq; change (Zdigits2 (2 ^ 53)) with 54; lia).
    reflexivity.
Qed.

(** The same for [round_ratio]: the division leaves enough bits. *)
Lemma round_ratio_grid (neg : bool) (p q : Z) :
  0 < p -> 0 < q ->
  exists ev k m e,
    -1074 <= ev /\ 0 <= k /\
    p * 2 ^ 1074 < 2 ^ 53 * (q * 2 ^ (ev + 1074)) /\
    (ev = -1074 \/ 2 ^ 52 * (q * 2 ^ (ev + 1074)) <= p * 2 ^ 1074) /\
    2 * Z.abs (k * (q * 2 ^ (ev + 1074)) - p * 2 ^ 1074) <= q * 2 ^ (ev + 1074) /\
    (2 * Z.abs (k * (q * 2 ^ (ev + 1074)) - p * 2 ^ 1074) = q * 2 ^ (ev + 1074) ->
     Z.even k = true) /\
    (m = k /\ e = ev /\ k < 2 ^ 53 \/ k = 2 ^ 53 /\ m = 2 ^ 52 /\ e = ev + 1) /\
    round_ratio neg p q =
      match m with
      | Z0 => S754_zero neg
      | Zpos m' => if e <=? 971 then S754_finite neg m' e else S754_infinity neg
      | Zneg _ => S754_nan
      end.
Proof.
  intros P Q. unfold round_ratio.
  destruct (Z.eqb_spec p 0); [lia|].
  unfold SFdiv_core_binary.
  set (e0 := Z.min (fexp prec64 emax64 (Zdigits2 p + 0 - (Zdigits2 q + 0))) (0 - 0)).
  assert (E : -1074 <= e0 <= 0) by (subst e0; rewrite fexp_eq; lia).
  assert (V : (match 0 - 0 - e0 with
               | 0 => p
               | Z.pos _ => Z.shiftl p (0 - 0 - e0)
               | Z.neg _ => 0
               end) = p * 2 ^ (- e0)).
  { destruct (0 - 0 - e0) as [|k|k] eqn:K.
    - replace (- e0) with 0 by lia. simpl. lia.
    - rewrite Z.shiftl_mul_pow2 by lia. f_equal. f_equal. lia.
    - lia. }
  rewrite V.
  pose proof (Z.div_eucl_eq (p * 2 ^ (- e0)) q ltac:(lia)) as DE.
  pose proof (Z.mod_pos_bound (p * 2 ^ (- e0)) q Q) as MB.
  unfold Z.modulo in MB.
  destruct (Z.div_eucl (p * 2 ^ (- e0)) q) as [m0 r].
  assert (T : 0 < 2 ^ (- e0)) by (apply Z.pow_pos_nonneg; lia).
  assert (M0 : 0 <= m0) by nia.
  assert (C : 0 < 2 ^ (e0 + 1074)) by (apply Z.pow_pos_nonneg; lia).
  pose proof (new_location_located q r (p * 2 ^ (- e0)) m0 Q MB DE) as L0.
  apply (located_scale _ _ _ (2 ^ (e0 + 1074))) in L0; [|exact C].
  replace (p * 2 ^ (- e0) * 2 ^ (e0 + 1074)) with (p * 2 ^ 1074) in L0
    by (rewrite <- Z.mul_assoc, <- Z.pow_add_r by lia; do 2 f_equal; lia).
  assert (F : e0 <= fexp prec64 emax64 (Zdigits2 m0 + e0)).
  { assert (X : Zdigits2 p - Zdigits2 q <= Zdigits2 m0 + e0);
      [|subst e0; rewrite !fexp_eq in *; lia].
    pose proof (Zdigits2_nonneg m0) as N0.
    destruct (Z.le_gt_cases (Zdigits2 p - Zdigits2 q - e0) 0) as [|G]; [lia|].
    pose proof (Zdigits2_lower p P) as Lp.
    pose proof (Zdigits2_gt q ltac:(lia)) as Gq.
    pose proof (Zdigits2_nonneg q) as Nq.
    pose proof (Zdigits2_ge p 0 ltac:(lia) ltac:(change (2 ^ 0) with 1; lia)) as Np.
    set (j := Zdigits2 p - Zdigits2 q - e0 - 1).
    assert (J : 0 <= j) by lia.
    assert (PJ : 0 < 2 ^ j) by (apply Z.pow_pos_nonneg; lia).
    assert (S : 2 ^ (Zdigits2 p - 1) * 2 ^ (- e0) = 2 ^ j * 2 ^ Zdigits2 q).
    { rewrite <- !Z.pow_add_r by lia. f_equal. lia. }
    assert (B : 2 ^ j <= m0).
    { assert (2 ^ j * q < q * m0 + q); [|nia].
      assert (2 ^ j * q < 2 ^ j * 2 ^ Zdigits2 q) by (apply Z.mul_lt_mono_pos_l; lia).
      assert (2 ^ (Zdigits2 p - 1) * 2 ^ (- e0) <= p * 2 ^ (- e0))
        by (apply Z.mul_le_mono_nonneg_r; lia).
      lia. }
    pose proof (Zdigits2_ge m0 j J B). lia. }
  assert (HD : 0 < q * 2 ^ (e0 + 1074)) by nia.
  destruct (binary_round_aux_grid neg m0 e0 (new_location q r)
              (p * 2 ^ 1074) (q * 2 ^ (e0 + 1074)) HD M0 L0 F)
    as (ev & k & m & e & H1 & H2 & H3 & H4 & H5 & H6 & H7 & H8 & H9).
  assert (S : q * 2 ^ (e0 + 1074) * 2 ^ (ev - e0) = q * 2 ^ (ev + 1074)).
  { rewrite <- Z.mul_assoc, <- Z.pow_add_r by lia. do 2 f_equal. lia. }
  rewrite S in *.
  exists ev, k, m, e. repeat (split; [assumption|]). exact H9.
Qed.

(** A multiple within half a step is nearest among the multiples. *)
Lemma closest_on_grid (P U k k' : Z) :
  0 < U -> 2 * Z.abs (k * U - P) <= U ->
  Z.abs (k * U - P) <= Z.abs (k' * U - P) /\
  (Z.abs (k' * U - P) = Z.abs (k * U - P) -> k' <> k ->
   2 * Z.abs (k * U - P) = U).
Proof.
  intros HU R.
  destruct (Z.lt_total k' k) as [C|[C|C]].
  - assert (k' * U <= k * U - U) by nia. lia.
  - subst k'. lia.
  - assert (k * U + U <= k' * U) by nia. lia.
Qed.

Lemma grid_binade (P U k : Z) :
  0 < U -> 2 ^ 52 * U <= P -> 2 * Z.abs (k * U - P) <= U -> 2 ^ 52 <= k.
Proof.
  intros HU B R. destruct (Z.le_gt_cases (2 ^ 52) k) as [|C]; [assumption|].
  assert (k * U <= 2 ^ 52 * U - U) by nia. lia.
Qed.

(** What lies below the binade of [P / U] is farther than the multiple
    chosen. *)
Lemma below_binade (P U k y : Z) :
  0 < U -> 2 ^ 52 * U <= P -> y < 2 ^ 52 * U ->
  2 * Z.abs (k * U - P) <= U -> Z.abs (k * U - P) < Z.abs (y - P).
Proof.
  intros HU B Y R.
  pose proof (grid_binade P U k HU B R) as K.
  assert (C : k = 2 ^ 52 \/ 2 ^ 52 + 1 <= k) by lia.
  destruct C as [C|C].
  - subst k. lia.
  - assert (2 ^ 52 * U + U <= k * U) by nia. lia.
Qed.

(** Any other magnitude is a multiple of the step, or lies below the
    binade. *)
Lemma other_magnitude (q ev m' e' : Z) :
  0 < q -> -1074 <= ev -> binary64_magnitude m' e' ->
  (exists k', m' * 2 ^ (e' + 1074) * q = k' * (q * 2 ^ (ev + 1074))) \/
  (-1074 < ev /\ m' * 2 ^ (e' + 1074) * q < 2 ^ 52 * (q * 2 ^ (ev + 1074))).
Proof.
  intros Q E [[M0 M1] [E0 E1]].
  destruct (Z.le_gt_cases ev e') as [C|C].
  - left. exists (m' * 2 ^ (e' - ev)).
    replace (e' + 1074) with (e' - ev + (ev + 1074)) by lia.
    rewrite Z.pow_add_r by lia. ring.
  - right. split; [lia|].
    replace (ev + 1074) with (ev - e' - 1 + 1 + (e' + 1074)) by lia.
    rewrite (Z.pow_add_r 2 (ev - e' - 1 + 1) (e' + 1074)),
      (Z.pow_add_r 2 (ev - e' - 1) 1) by lia.
    change (2 ^ 1) with 2.
    assert (J : 0 < 2 ^ (ev - e' - 1)) by (apply Z.pow_pos_nonneg; lia).
    assert (H : 0 < 2 ^ (e' + 1074)) by (apply Z.pow_pos_nonneg; lia).
    set (j := 2 ^ (ev - e' - 1)) in *. set (h := 2 ^ (e' + 1074)) in *.
    assert (A : 0 < h * q) by nia.
    replace (m' * h * q) with (m' * (h * q)) by ring.
    replace (2 ^ 52 * (q * (j * 2 * h))) with (2 ^ 53 * j * (h * q))
      by (change (2 ^ 53) with (2 ^ 52 * 2); ring).
    set (a := h * q) in *.
    apply Z.lt_le_trans with (2 ^ 53 * a).
    + apply Z.mul_lt_mono_pos_r; lia.
    + apply Z.mul_le_mono_nonneg_r; lia.
Qed.

Lemma magnitude_on_grid (q ev k m e : Z) :
  -1074 <= ev ->
  (m = k /\ e = ev /\ k < 2 ^ 53 \/ k = 2 ^ 53 /\ m = 2 ^ 52 /\ e = ev + 1) ->
  m * 2 ^ (e + 1074) * q = k * (q * 2 ^ (ev + 1074)).
Proof.
  intros E [(-> & -> & _)|(-> & -> & ->)]; [ring|].
  replace (ev + 1 + 1074) with (1 + (ev + 1074)) by lia.
  rewrite Z.pow_add_r by lia. change (2 ^ 1) with 2.
  change (2 ^ 53) with (2 ^ 52 * 2). ring.
Qed.

Section Grid.

Variables p q ev k m e : Z.
Hypothesis Hp : 0 < p.
Hypothesis Hq : 0 < q.
Hypothesis Hev : -1074 <= ev.
Hypothesis Hk : 0 <= k.
Hypothesis Hbelow : p * 2 ^ 1074 < 2 ^ 53 * (q * 2 ^ (ev + 1074)).
Hypothesis Habove : ev = -1074 \/ 2 ^ 52 * (q * 2 ^ (ev + 1074)) <= p * 2 ^ 1074.
Hypothesis Hnear :
  2 * Z.abs (k * (q * 2 ^ (ev + 1074)) - p * 2 ^ 1074) <= q * 2 ^ (ev + 1074).
Hypothesis Htie :
  2 * Z.abs (k * (q * 2 ^ (ev + 1074)) - p * 2 ^ 1074) = q * 2 ^ (ev + 1074) ->
  Z.even k = true.
Hypothesis Hme :
  m = k /\ e = ev /\ k < 2 ^ 53 \/ k = 2 ^ 53 /\ m = 2 ^ 52 /\ e = ev + 1.

Lemma grid_unit_pos : 0 < q * 2 ^ (ev + 1074).
Proof.
  assert (0 < 2 ^ (ev + 1074)) by (apply Z.pow_pos_nonneg; lia). nia.
Qed.

Lemma grid_zero : m = 0 -> e = -1074.
Proof.
  intros Zm. pose proof grid_unit_pos as HU.
  assert (T : 0 < 2 ^ 1074) by (apply Z.pow_pos_nonneg; lia).
  assert (PT : 0 < p * 2 ^ 1074) by nia.
  destruct Hme as [(A & B & C)|(A & B & C)]; [|lia].
  assert (K0 : k = 0) by lia. rewrite B.
  destruct Habove as [|H]; [assumption|].
  pose proof Hnear as N. rewrite K0 in N. revert N H HU PT.
  generalize (q * 2 ^ (ev + 1074)) (p * 2 ^ 1074). intros U P N H HU PT.
  lia.
Qed.

Lemma grid_threshold : e <= 971 -> 2 * p < (2 ^ 1025 - 2 ^ 971) * q.
Proof.
  intros E. pose proof grid_unit_pos as HU.
  assert (T : 0 < 2 ^ 1074) by (apply Z.pow_pos_nonneg; lia).
  destruct (Z.le_gt_cases ev 970) as [C|C].
  - assert (G : 2 ^ (ev + 1074) <= 2 ^ 970 * 2 ^ 1074).
    { rewrite <- Z.pow_add_r by lia. apply Z.pow_le_mono_r; lia. }
    assert (L : p * 2 ^ 1074 < 2 ^ 1023 * q * 2 ^ 1074).
    { apply Z.lt_le_trans with (1 := Hbelow).
      replace (2 ^ 1023 * q * 2 ^ 1074) with (2 ^ 53 * (q * (2 ^ 970 * 2 ^ 1074)))
        by (change (2 ^ 1023) with (2 ^ 53 * 2 ^ 970); ring).
      apply Z.mul_le_mono_nonneg_l; [lia|].
      apply Z.mul_le_mono_nonneg_l; lia. }
    apply Z.mul_lt_mono_pos_r in L; [|exact T].
    change (2 ^ 1025 - 2 ^ 971) with (2 ^ 1023 * 3 + (2 ^ 1023 - 2 ^ 971)).
    assert (0 < 2 ^ 1023 - 2 ^ 971) by reflexivity.
    nia.
  - destruct Hme as [(A & B & K)|(A & B & K)]; [|lia].
    assert (C' : ev = 971) by lia.
    assert (G : 2 ^ (ev + 1074) = 2 ^ 971 * 2 ^ 1074).
    { rewrite C'. now rewrite <- Z.pow_add_r by lia. }
    assert (L : 2 * (p * 2 ^ 1074) < (2 ^ 54 - 1) * (q * 2 ^ (ev + 1074))).
    { assert (K' : k <= 2 ^ 53 - 2 \/ k = 2 ^ 53 - 1) by lia.
      clear Hbelow Habove Hme. revert Hnear Htie.
      set (U := q * 2 ^ (ev + 1074)) in *. set (P := p * 2 ^ 1074) in *.
      intros Hnear Htie.
      destruct K' as [K'|K'].
      - assert (k * U <= (2 ^ 53 - 2) * U) by (apply Z.mul_le_mono_nonneg_r; lia).
        lia.
      - assert (NT : 2 * Z.abs (k * U - P) <> U).
        { intros X. apply Htie in X. rewrite K' in X. discriminate X. }
        rewrite K' in *. lia. }
    rewrite G in L.
    replace (2 * (p * 2 ^ 1074)) with (2 * p * 2 ^ 1074) in L by ring.
    replace ((2 ^ 54 - 1) * (q * (2 ^ 971 * 2 ^ 1074)))
      with ((2 ^ 1025 - 2 ^ 971) * q * 2 ^ 1074) in L
      by (change (2 ^ 1025 - 2 ^ 971) with ((2 ^ 54 - 1) * 2 ^ 971); ring).
    apply Z.mul_lt_mono_pos_r in L; [exact L | exact T].
Qed.

Lemma grid_overflow : 971 < e -> (2 ^ 1025 - 2 ^ 971) * q <= 2 * p.
Proof.
  intros E. pose proof grid_unit_pos as HU.
  assert (T : 0 < 2 ^ 1074) by (apply Z.pow_pos_nonneg; lia).
  destruct (Z.le_gt_cases 972 ev) as [C|C].
  - destruct Habove as [|B]; [lia|].
    assert (G : 2 ^ 972 * 2 ^ 1074 <= 2 ^ (ev + 1074)).
    { rewrite <- Z.pow_add_r by lia. apply Z.pow_le_mono_r; lia. }
    assert (L : 2 ^ 1024 * q * 2 ^ 1074 <= p * 2 ^ 1074).
    { apply Z.le_trans with (2 := B).
      replace (2 ^ 1024 * q * 2 ^ 1074) with (2 ^ 52 * (q * (2 ^ 972 * 2 ^ 1074)))
        by (change (2 ^ 1024) with (2 ^ 52 * 2 ^ 972); ring).
      apply Z.mul_le_mono_nonneg_l; [lia|].
      apply Z.mul_le_mono_nonneg_l; lia. }
    apply Z.mul_le_mono_pos_r in L; [|exact T].
    change (2 ^ 1025 - 2 ^ 971) with (2 ^ 1024 * 2 - 2 ^ 971).
    assert (0 < 2 ^ 971) by reflexivity.
    nia.
  - destruct Hme as [(A & B & K)|(A & B & K)]; [lia|].
    assert (C' : ev = 971) by lia.
    assert (G : 2 ^ (ev + 1074) = 2 ^ 971 * 2 ^ 1074).
    { rewrite C'. now rewrite <- Z.pow_add_r by lia. }
    assert (L : (2 ^ 54 - 1) * (q * 2 ^ (ev + 1074)) <= 2 * (p * 2 ^ 1074)).
    { clear Hbelow Habove Hme Htie. revert Hnear. rewrite A.
      set (U := q * 2 ^ (ev + 1074)) in *. set (P := p * 2 ^ 1074) in *.
      intros Hnear. lia. }
    rewrite G in L.
    replace (2 * (p * 2 ^ 1074)) with (2 * p * 2 ^ 1074) in L by ring.
    replace ((2 ^ 54 - 1) * (q * (2 ^ 971 * 2 ^ 1074)))
      with ((2 ^ 1025 - 2 ^ 971) * q * 2 ^ 1074) in L
      by (change (2 ^ 1025 - 2 ^ 971) with ((2 ^ 54 - 1) * 2 ^ 971); ring).
    apply Z.mul_le_mono_pos_r in L; [exact L | exact T].
Qed.

Lemma grid_canonical : 2 ^ 52 <= m \/ e = -1074.
Proof.
  pose proof grid_unit_pos as HU.
  destruct Hme as [(A & B & K)|(A & B & K)]; [|left; lia].
  destruct Habove as [|H]; [right; lia | left].
  rewrite A. exact (grid_binade _ _ _ HU H Hnear).
Qed.

Lemma grid_closest (m' e' : Z) :
  binary64_magnitude m' e' -> gap p q m e <= gap p q m' e'.
Proof.
  intros Mg. pose proof grid_unit_pos as HU. unfold gap.
  rewrite (magnitude_on_grid q ev k m e Hev Hme).
  destruct (other_magnitude q ev m' e' Hq Hev Mg) as [[k' Hk']|[Ev Hy]].
  - rewrite Hk'. apply closest_on_grid; assumption.
  - destruct Habove as [|H]; [lia|].
    apply Z.lt_le_incl, below_binade; assumption.
Qed.

Lemma grid_ties (m' e' : Z) :
  binary64_magnitude m' e' -> gap p q m' e' = gap p q m e ->
  m' * 2 ^ (e' + 1074) <> m * 2 ^ (e + 1074) -> Z.even m = true.
Proof.
  intros Mg. pose proof grid_unit_pos as HU. unfold gap.
  intros Eq Ne.
  assert (Ne' : m' * 2 ^ (e' + 1074) * q <> m * 2 ^ (e + 1074) * q).
  { intros X. apply Ne. apply Z.mul_reg_r with q; [lia | exact X]. }
  rewrite (magnitude_on_grid q ev k m e Hev Hme) in Eq, Ne'.
  destruct (other_magnitude q ev m' e' Hq Hev Mg) as [[k' Hk']|[Ev Hy]].
  - rewrite Hk' in Eq, Ne'.
    assert (NK : k' <> k) by (intros X; apply Ne'; now rewrite X).
    destruct (closest_on_grid _ _ k k' HU Hnear) as [_ Tie].
    specialize (Tie Eq NK). apply Htie in Tie.
    destruct Hme as [(A & B & K)|(A & B & K)]; [now rewrite A | rewrite B; reflexivity].
  - destruct Habove as [|H]; [lia|].
    pose proof (below_binade _ _ k _ HU H Hy Hnear). lia.
Qed.

Lemma grid_nearest : e <= 971 -> nearest_magnitude p q m e.
Proof.
  intros E. unfold nearest_magnitude.
  split; [|split; [exact grid_canonical|split; [exact (grid_threshold E)|split]]].
  - unfold binary64_magnitude.
    destruct Hme as [(A & B & K)|(A & B & K)]; lia.
  - exact grid_closest.
  - exact grid_ties.
Qed.

End Grid.

Lemma nearest_of_zero (q : Z) : 0 < q -> nearest_magnitude 0 q 0 (-1074).
Proof.
  intros Q. unfold nearest_magnitude, binary64_magnitude, gap.
  split; [split; [split; [lia | reflexivity] | lia]|].
  split; [right; reflexivity|].
  split; [change (2 ^ 1025 - 2 ^ 971) with (Z.pos (2 ^ 1025 - 2 ^ 971)); lia|].
  split.
  - intros m' e' _. rewrite !Z.mul_0_l, Z.sub_0_r. apply Z.abs_nonneg.
  - reflexivity.
Qed.

(** [round_ratio] gives the binary64 number nearest to [p / q]. *)
Lemma round_ratio_nearest (neg : bool) (p q : Z) :
  0 <= p -> 0 < q -> nearest_binary64 (round_ratio neg p q) neg p q.
Proof.
  intros P Q. destruct (Z.eq_dec p 0) as [->|NZ].
  - unfold round_ratio. cbn [Z.eqb nearest_binary64].
    split; [reflexivity | now apply nearest_of_zero].
  - assert (P' : 0 < p) by lia.
    destruct (round_ratio_grid neg p q P' Q)
      as (ev & k & m & e & H1 & H2 & H3 & H4 & H5 & H6 & H7 & H8).
    rewrite H8.
    assert (GZ : m = 0 -> e = -1074)
      by (apply (grid_zero p q ev k m e); assumption).
    assert (GN : e <= 971 -> nearest_magnitude p q m e)
      by (apply (grid_nearest p q ev k m e); assumption).
    assert (GO : 971 < e -> (2 ^ 1025 - 2 ^ 971) * q <= 2 * p)
      by (apply (grid_overflow p q ev k m e); assumption).
    destruct m as [|m'|m'].
    + specialize (GZ eq_refl). rewrite GZ in GN.
      split; [reflexivity | apply GN; lia].
    + destruct (Z.leb_spec e 971) as [C|C].
      * split; [reflexivity | now apply GN].
      * split; [reflexivity | now apply GO].
    + destruct H7 as [(A & _)|(_ & A & _)]; lia.
Qed.

(** A magnitude is below every magnitude of a higher exponent that is
    written with the mantissa of its binade. *)
Lemma lower_exponent_below (m1 e1 m2 e2 : Z) :
  binary64_magnitude m1 e1 -> binary64_magnitude m2 e2 ->
  (2 ^ 52 <= m2 \/ e2 = -1074) -> e1 < e2 ->
  m1 * 2 ^ (e1 + 1074) < m2 * 2 ^ (e2 + 1074).
Proof.
  intros [[A1 A2] [A3 A4]] [[B1 B2] [B3 B4]] C L.
  destruct C as [C|C]; [|lia].
  replace (e2 + 1074) with (e2 - e1 - 1 + 1 + (e1 + 1074)) by lia.
  rewrite (Z.pow_add_r 2 (e2 - e1 - 1 + 1) (e1 + 1074)),
    (Z.pow_add_r 2 (e2 - e1 - 1) 1) by lia.
  change (2 ^ 1) with 2.
  assert (J : 0 < 2 ^ (e2 - e1 - 1)) by (apply Z.pow_pos_nonneg; lia).
  assert (G : 0 < 2 ^ (e1 + 1074)) by (apply Z.pow_pos_nonneg; lia).
  set (j := 2 ^ (e2 - e1 - 1)) in *. set (g := 2 ^ (e1 + 1074)) in *.
  apply Z.lt_le_trans with (2 ^ 53 * g).
  - apply Z.mul_lt_mono_pos_r; lia.
  - replace (m2 * (j * 2 * g)) with (m2 * 2 * j * g) by ring.
    apply Z.mul_le_mono_nonneg_r; [lia|].
    assert (2 ^ 53 <= m2 * 2) by (change (2 ^ 53) with (2 ^ 52 * 2); lia).
    nia.
Qed.

(** Two magnitudes written with the mantissa of their binade and of the
    same value are the same. *)
Lemma canonical_unique (m1 e1 m2 e2 : Z) :
  binary64_magnitude m1 e1 -> binary64_magnitude m2 e2 ->
  (2 ^ 52 <= m1 \/ e1 = -1074) -> (2 ^ 52 <= m2 \/ e2 = -1074) ->
  m1 * 2 ^ (e1 + 1074) = m2 * 2 ^ (e2 + 1074) ->
  m1 = m2 /\ e1 = e2.
Proof.
  intros M1 M2 C1 C2 E.
  destruct (Z.lt_total e1 e2) as [L|[L|L]].
  - pose proof (lower_exponent_below m1 e1 m2 e2 M1 M2 C2 L). lia.
  - subst e2. split; [|reflexivity].
    assert (G : 0 < 2 ^ (e1 + 1074))
      by (apply Z.pow_pos_nonneg; destruct M1 as [_ ?]; lia).
    apply Z.mul_reg_r with (2 ^ (e1 + 1074)); [lia | exact E].
  - pose proof (lower_exponent_below m2 e2 m1 e1 M2 M1 C1 L). lia.
Qed.

(** Of two magnitudes nearest to [p / q], the lower one is not below the
    other: the magnitude next above it would be nearer, or odd. *)
Lemma nearest_not_below (p q m1 e1 m2 e2 : Z) :
  0 < q -> nearest_magnitude p q m1 e1 -> nearest_magnitude p q m2 e2 ->
  ~ m1 * 2 ^ (e1 + 1074) < m2 * 2 ^ (e2 + 1074).
Proof.
  intros Q (M1 & C1 & _ & N1 & T1) (M2 & C2 & _ & N2 & T2) L.
  pose proof (N1 m2 e2 M2) as G12. pose proof (N2 m1 e1 M1) as G21.
  assert (GE : gap p q m2 e2 = gap p q m1 e1) by lia.
  assert (Ev1 : Z.even m1 = true) by (apply (T1 m2 e2 M2 GE); lia).
  assert (Ev2 : Z.even m2 = true)
    by (apply (T2 m1 e1 M1 (eq_sym GE)); lia).
  apply Z.even_spec in Ev1, Ev2. destruct Ev1 as [a1 Ea1]. destruct Ev2 as [a2 Ea2].
  assert (S : binary64_magnitude (m1 + 1) e1).
  { destruct M1 as [[A1 A2] A3]. split; [|exact A3].
    assert (m1 <> 2 ^ 53 - 1) by (change (2 ^ 53 - 1) with (2 * (2 ^ 52 - 1) + 1); lia).
    lia. }
  pose proof (N1 (m1 + 1) e1 S) as GS.
  assert (P1 : 0 < 2 ^ (e1 + 1074))
    by (apply Z.pow_pos_nonneg; destruct M1 as [_ ?]; lia).
  destruct (Z.le_gt_cases e1 e2) as [E|E].
  - (* the other one is a multiple of the step of the first *)
    assert (X : 2 ^ (e2 + 1074) = 2 ^ (e2 - e1) * 2 ^ (e1 + 1074)).
    { rewrite <- Z.pow_add_r by (destruct M1 as [_ ?]; lia). f_equal. lia. }
    unfold gap in *. rewrite X in *.
    assert (J : 0 < 2 ^ (e2 - e1)) by (apply Z.pow_pos_nonneg; lia).
    assert (Par : e1 = e2 \/ exists b, 2 ^ (e2 - e1) = 2 * b).
    { destruct (Z.eq_dec e1 e2) as [|NE]; [now left | right].
      exists (2 ^ (e2 - e1 - 1)).
      replace (e2 - e1) with (1 + (e2 - e1 - 1)) at 1 by lia.
      rewrite Z.pow_add_r by lia. reflexivity. }
    set (g := 2 ^ (e1 + 1074)) in *. set (j := 2 ^ (e2 - e1)) in *.
    replace (m2 * (j * g)) with (m2 * j * g) in * by ring.
    assert (K : m1 + 1 <= m2 * j).
    { assert (m1 < m2 * j); [|lia].
      apply Z.mul_lt_mono_pos_r with g; assumption. }
    assert (K' : m1 + 1 = m2 * j \/ m1 + 2 <= m2 * j) by lia.
    destruct K' as [K'|K'].
    + destruct Par as [Par|[b Par]].
      * assert (j = 1) by (unfold j; rewrite <- Par, Z.sub_diag; reflexivity). lia.
      * lia.
    + assert (Y : (m1 + 2) * g <= m2 * j * g)
        by (apply Z.mul_le_mono_nonneg_r; lia).
      revert GE GS Y L.
      replace ((m1 + 1) * g * q) with (m1 * g * q + g * q) by ring.
      replace ((m1 + 2) * g) with (m1 * g + 2 * g) by ring.
      assert (GQ : 0 < g * q) by nia.
      generalize dependent (p * 2 ^ 1074). intros P.
      set (x := m1 * g) in *. set (y := m2 * j * g) in *.
      intros. assert (x * q + 2 * (g * q) <= y * q) by nia.
      lia.
  - pose proof (lower_exponent_below m2 e2 m1 e1 M2 M1 C1 E). lia.
Qed.

(** At most one magnitude is nearest to [p / q]. *)
Lemma nearest_magnitude_unique (p q m1 e1 m2 e2 : Z) :
  0 < q -> nearest_magnitude p q m1 e1 -> nearest_magnitude p q m2 e2 ->
  m1 = m2 /\ e1 = e2.
Proof.
  intros Q H1 H2.
  pose proof (nearest_not_below p q m1 e1 m2 e2 Q H1 H2) as A.
  pose proof (nearest_not_below p q m2 e2 m1 e1 Q H2 H1) as B.
  destruct H1 as (M1 & C1 & _). destruct H2 as (M2 & C2 & _).
  apply canonical_unique; try assumption. lia.
Qed.

(** At most one binary64 number is nearest to [p / q] with a given sign. *)
Lemma nearest_binary64_unique (x y : double) (neg : bool) (p q : Z) :
  0 < q -> nearest_binary64 x neg p q -> nearest_binary64 y neg p q -> x = y.
Proof.
  intros Q X Y.
  destruct x as [s|s| |s m e], y as [s'|s'| |s' m' e']; cbn [nearest_binary64] in X, Y;
    try contradiction;
    destruct X as [<- X], Y as [<- Y];
    try reflexivity;
    try (destruct X as (_ & _ & X & _); lia);
    try (destruct Y as (_ & _ & Y & _); lia);
    destruct (nearest_magnitude_unique p q _ _ _ _ Q X Y) as [Em Ee];
    try discriminate Em.
  injection Em as <-. now rewrite Ee.
Qed.

(** [scaled] with a negative power of ten gives the binary64 number
    nearest to the decimal fraction. *)
Lemma scaled_nearest (neg : bool) (m n : Z) :
  0 <= m -> 0 <= n -> nearest_binary64 (scaled neg m 10 (- n)) neg m (10 ^ n).
Proof.
  intros M N. unfold scaled.
  destruct (Z.leb_spec 0 (- n)) as [C|C].
  - assert (E : n = 0) by lia. subst n.
    change (- 0) with 0. rewrite Z.pow_0_r, Z.mul_1_r.
    apply round_ratio_nearest; lia.
  - rewrite Z.opp_involutive.
    apply round_ratio_nearest; [lia | apply Z.pow_pos_nonneg; lia].
Qed.

Lemma all_digits_app (a b : string) :
  all_digits a = true -> all_digits b = true -> all_digits (a ++ b) = true.
Proof.
  intros A B. induction a as [|c a IH]; [exact B|].
  cbn [all_digits append] in *. apply andb_true_iff in A. destruct A as [C A].
  rewrite C. now apply IH.
Qed.

(** ** Permissive parsing *)


